(** * McCracken dump-ticket system: a shallow embedding of [app.py]

    The development follows the layout of the application:
    - [Text]: the string helpers the handlers rely on ([str.strip], [in],
      [str.split(sep, 1)], the [06d] format), on texts given by their UTF-8
      bytes;
    - [Float]: the IEEE doubles of Python's [float] and SQLite's REAL;
    - [Runtime]: the interpreter, SQLite and reportlab builtins the code calls
      but does not define, taken as an interface;
    - the tables of the SQLite file and a small program monad [prog] whose
      operations are the statements a handler sends over its connection;
    - the handlers [next_ticket_number], [new_ticket], [refresh_jobs_cache],
      [refresh_jobs], [refresh_jobs_on_startup], [reports],
      [export_reports_csv], [print_reports], [search_tickets], [ticket_pdf],
      [print_ticket], [admin_materials], [toggle_material], [toggle_truck],
      [list_materials] and [list_jobs];
    - an interleaving semantics for several requests sharing one database file;
    - the properties of the ticket sequence and the ticket numbers, of ticket
      creation, of the jobs synchronisation, of the reference data and of the
      report and search queries. *)

From Stdlib Require Import Ascii String QArith SpecFloat Sorting Permutation OrdersEx.
From stdpp Require Import gmap strings list pretty.

Open Scope string_scope.
Open Scope list_scope.
Open Scope Z_scope.

(** ** Text helpers

    A text is a [string], the sequence of the bytes of its UTF-8 encoding:
    a character takes one byte (ASCII) or up to four. *)
Module Text.

(** The characters [str.strip()] removes are those of [str.isspace()]. In
    one byte: TAB, LF, VT, FF, CR, the separators FS, GS, RS, US and the
    space. *)
Definition space1 (a : ascii) : bool :=
  let n := nat_of_ascii a in
  (Nat.leb 9 n && Nat.leb n 13) || (Nat.leb 28 n && Nat.leb n 32).

(** In two bytes: U+0085 (next line) and U+00A0 (no-break space). *)
Definition space2 (a b : ascii) : bool :=
  Nat.eqb (nat_of_ascii a) 194
  && (Nat.eqb (nat_of_ascii b) 133 || Nat.eqb (nat_of_ascii b) 160).

(** In three bytes: U+1680, U+2000 to U+200A, U+2028, U+2029, U+202F,
    U+205F and U+3000. *)
Definition space3 (a b c : ascii) : bool :=
  let x := nat_of_ascii a in
  let y := nat_of_ascii b in
  let z := nat_of_ascii c in
  (Nat.eqb x 225 && Nat.eqb y 154 && Nat.eqb z 128)
  || (Nat.eqb x 226 && Nat.eqb y 128
      && ((Nat.leb 128 z && Nat.leb z 138)
          || Nat.eqb z 168 || Nat.eqb z 169 || Nat.eqb z 175))
  || (Nat.eqb x 226 && Nat.eqb y 129 && Nat.eqb z 159)
  || (Nat.eqb x 227 && Nat.eqb y 128 && Nat.eqb z 128).

(** [c.isspace()] of one character, given as its bytes *)
Definition is_space (c : string) : bool :=
  match c with
  | String a EmptyString => space1 a
  | String a (String b EmptyString) => space2 a b
  | String a (String b (String c EmptyString)) => space3 a b c
  | _ => false
  end.

(** The text without the white space characters at its head; [two] and
    [three] recognise the characters of two and three bytes. *)
Fixpoint drop_spaces (two : ascii -> ascii -> bool)
    (three : ascii -> ascii -> ascii -> bool) (s : string) : string :=
  match s with
  | EmptyString => EmptyString
  | String a s1 =>
      if space1 a then drop_spaces two three s1
      else
        match s1 with
        | EmptyString => s
        | String b s2 =>
            if two a b then drop_spaces two three s2
            else
              match s2 with
              | EmptyString => s
              | String c s3 =>
                  if three a b c then drop_spaces two three s3 else s
              end
        end
  end.

(** A white space character as [drop_spaces two three] reads it, and a run
    of them. *)
Definition space_read (two : ascii -> ascii -> bool)
    (three : ascii -> ascii -> ascii -> bool) (c : string) : bool :=
  match c with
  | String a EmptyString => space1 a
  | String a (String b EmptyString) => two a b
  | String a (String b (String c EmptyString)) => three a b c
  | _ => false
  end.

Inductive blank_read (two : ascii -> ascii -> bool)
    (three : ascii -> ascii -> ascii -> bool) : string -> Prop :=
| blank_read_nil : blank_read two three EmptyString
| blank_read_cons (c s : string) :
    space_read two three c = true -> blank_read two three s ->
    blank_read two three (c +:+ s).

(** [s.lstrip()] *)
Definition lstrip (s : string) : string := drop_spaces space2 space3 s.

Definition reverse (s : string) : string :=
  string_of_list_ascii (rev (list_ascii_of_string s)).

(** [s.rstrip()]: from the end the bytes of a character come last first. *)
Definition rstrip (s : string) : string :=
  reverse (drop_spaces (fun b a => space2 a b) (fun c b a => space3 a b c)
             (reverse s)).

(** [s.strip()] *)
Definition strip (s : string) : string := rstrip (lstrip s).

(** A run of white space characters. *)
Inductive blank : string -> Prop :=
| blank_nil : blank EmptyString
| blank_cons (c s : string) : is_space c = true -> blank s -> blank (c +:+ s).

(** [r] is [s] trimmed: [s] is [r] between two runs of white space, and [r]
    neither starts nor ends with a white space character. *)
Definition trimmed (s r : string) : Prop :=
  (exists head tail, blank head /\ blank tail /\ s = head +:+ r +:+ tail)
  /\ (forall c rest, is_space c = true -> r <> c +:+ rest)
  /\ (forall c rest, is_space c = true -> r <> rest +:+ c).

(** The upper case of an ASCII letter, the byte itself otherwise: the
    folding SQLite's [LIKE] applies. *)
Definition upper_char (c : ascii) : ascii :=
  let n := nat_of_ascii c in
  if Nat.leb 97 n && Nat.leb n 122 then ascii_of_nat (n - 32) else c.

Fixpoint drop_chars (n : nat) (s : string) : string :=
  match n, s with
  | O, _ => s
  | S _, EmptyString => EmptyString
  | S n', String _ s' => drop_chars n' s'
  end.

(** [sep in s] *)
Fixpoint contains (sep s : string) : bool :=
  String.prefix sep s ||
  match s with
  | EmptyString => false
  | String _ s' => contains sep s'
  end.

(** [s.split(sep, 1)]: cut at the leftmost occurrence of [sep]; the whole
    text in one piece when [sep] does not occur. *)
Fixpoint split1 (sep s : string) : list string :=
  if String.prefix sep s then [EmptyString; drop_chars (String.length sep) s]
  else match s with
       | EmptyString => [EmptyString]
       | String c s' =>
           match split1 sep s' with
           | [a; b] => [String c a; b]
           | _ => [s]
           end
       end.

Fixpoint zeros (n : nat) : string :=
  match n with O => EmptyString | S n' => String "0" (zeros n') end.

Definition zfill (width : nat) (digits : string) : string :=
  zeros (width - String.length digits) +:+ digits.

(** [f"{n}"] for an [int] *)
Definition fmt_d (n : Z) : string := pretty n.

(** [f"{n:06d}"]: zero padding to six characters, the sign included. *)
Definition fmt_06d (n : Z) : string :=
  if n <? 0 then "-" +:+ zfill 5 (pretty (- n)) else zfill 6 (pretty n).

End Text.

(** ** Exceptions *)
Inductive exn : Type :=
| ValueError (msg : string)
| TypeError (msg : string)
| RuntimeError (msg : string)
| IntegrityError (msg : string)
| OperationalError (msg : string)
| OSError (msg : string)
| RenderFailure (msg : string).

(** A call that returns a value of type [A] or raises. *)
Definition result (A : Type) : Type := (exn + A)%type.

(** ** Numbers

    A [float] of Python and a REAL of SQLite are IEEE 754 binary64 numbers:
    zeros, infinities, one NaN, and the finite numbers of a 53-bit
    significand. *)
Definition double : Type := spec_float.

Module Float.

Definition prec : Z := 53.
Definition emax : Z := 1024.

(** The integer [n], rounded to the nearest number. *)
Definition of_Z (n : Z) : double := binary_normalize prec emax n 0 false.

(** [x + y] and [x / y], rounded to the nearest number, ties to even. *)
Definition add (x y : double) : double := SFadd prec emax x y.
Definition div (x y : double) : double := SFdiv prec emax x y.
Definition opp (x : double) : double := SFopp x.

Definition is_nan (x : double) : bool :=
  match x with S754_nan => true | _ => false end.

(** The sum of numbers by additions from left to right, each one
    rounded. *)
Definition sum (l : list double) : double := fold_left add l (of_Z 0).

(** What a REAL column keeps of a number: a zero is kept without its
    sign. *)
Definition kept (x : double) : double :=
  match x with
  | S754_zero _ => S754_zero false
  | _ => x
  end.

End Float.

(** ** Tables *)

(** A row of [tickets]. *)
Record ticket : Type := mk_ticket {
  ticket_id : Z;
  ticket_number : string;
  ticket_year : Z;
  ticket_sequence : Z;
  direction : string;
  created_at : string;
  job_id : option Z;
  job_code_snapshot : string;
  job_name_snapshot : string;
  customer_snapshot : string;
  truck_id : option Z;
  truck_number_snapshot : string;
  material_id : option Z;
  material_name_snapshot : string;
  quantity : double;
  unit_ : string;
  notes : string;
  pdf_path : string;
  pdf_blob : string
}.

(** A row of [jobs_cache]. *)
Record job : Type := mk_job {
  jc_id : Z;
  jc_job_code : string;
  jc_job_name : string;
  jc_customer : string;
  jc_active : Z;
  jc_source_updated_at : option string;
  jc_refreshed_at : string
}.

(** A row of [trucks]. *)
Record truck : Type := mk_truck {
  tr_id : Z;
  tr_truck_number : string;
  tr_active : Z
}.

(** A row of [materials]. *)
Record material : Type := mk_material {
  ma_id : Z;
  ma_material_name : string;
  ma_active : Z
}.

(** The contents of the database file. [ticket_sequence] has one row per
    year (the year is its key), hence a finite map from the year to
    [last_value]. *)
Record store : Type := mk_store {
  tbl_ticket_sequence : gmap Z Z;
  tbl_tickets : list ticket;
  tbl_jobs_cache : list job;
  tbl_trucks : list truck;
  tbl_materials : list material
}.

Definition empty_store : store :=
  {| tbl_ticket_sequence := ∅; tbl_tickets := []; tbl_jobs_cache := [];
     tbl_trucks := []; tbl_materials := [] |}.

(** The dictionary [row] that [new_ticket] hands to [to_pdf_bytes]. *)
Record pdf_row : Type := mk_pdf_row {
  pr_ticket_number : string;
  pr_created_at : string;
  pr_direction : string;
  pr_job_code_snapshot : string;
  pr_job_name_snapshot : string;
  pr_customer_snapshot : string;
  pr_truck_number_snapshot : string;
  pr_material_name_snapshot : string;
  pr_quantity : double;
  pr_unit : string;
  pr_notes : string
}.

(** ** The runtime interface

    What the handlers call and the repository does not define. *)
Class Runtime : Type := {
  (** [float(text)]; [None] is [ValueError]. The text may read [nan] or
      [inf]: the answer is any number. *)
  py_float : string -> option double;
  (** [text.upper()] and [text.lower()], of Unicode *)
  str_upper : string -> string;
  str_lower : string -> string;
  (** SQLite [SUM] over the REAL values of the rows of a group, taken in the
      order of the table; [None] is NULL *)
  sql_sum : list double -> option double;
  (** [int(text)]; [None] is [ValueError] *)
  py_int : string -> option Z;
  (** [datetime.fromisoformat(text).isoformat(timespec="seconds")];
      [None] is [ValueError] *)
  fromisoformat_seconds : string -> option string;
  (** [date.isoformat()] of the day with the given ordinal *)
  date_isoformat : Z -> string;
  (** SQLite [date(text)] as a day ordinal; [None] is NULL *)
  sql_date : string -> option Z;
  (** the integer a text parameter is compared as against an INTEGER column;
      [None] when the text is not an integer literal *)
  sql_integer : string -> option Z;
  (** the reportlab rendering of a ticket *)
  to_pdf_bytes : pdf_row -> result string;
  (** writes the bytes under [tickets_pdf/<year>/] and returns the path *)
  save_pdf : string -> string -> result string;
  (** sends a file to the printer *)
  print_pdf_file : string -> result unit
}.

(** ** Statements and programs

    A handler is a program over the statements it sends on its connection.
    Every statement answers with a value or an exception, so that
    [try]/[except] around statements is a function on programs. The
    statements are those that read or write the tables: the
    [PRAGMA foreign_keys = ON] that [get_db] sends when it opens the
    connection of a request sets an option of that connection, touches no
    table, and is left out. *)
Inductive op : Type -> Type :=
| BeginImmediate : op unit                        (* db.execute("BEGIN IMMEDIATE") *)
| Select {B : Type} (q : store -> B) : op B       (* a SELECT and its fetch *)
| Execute (w : store -> result store) : op unit   (* an INSERT or UPDATE *)
| CommitOp : op unit                              (* db.commit() *)
| RollbackOp : op unit.                           (* db.rollback() *)

Inductive prog (A : Type) : Type :=
| Ret (a : A)
| Raise (e : exn)
| Op {B : Type} (o : op B) (k : result B -> prog A).

Arguments Ret {A} a.
Arguments Raise {A} e.
Arguments Op {A B} o k.

Fixpoint bind {A B : Type} (p : prog A) (f : A -> prog B) : prog B :=
  match p with
  | Ret a => f a
  | Raise e => Raise e
  | Op o k => Op o (fun r => bind (k r) f)
  end.

#[export] Instance prog_ret : MRet prog := @Ret.
#[export] Instance prog_bind : MBind prog := fun A B f p => bind p f.

(** [try: p except Exception as e: h e] *)
Fixpoint try_except {A : Type} (p : prog A) (h : exn -> prog A) : prog A :=
  match p with
  | Ret a => Ret a
  | Raise e => h e
  | Op o k => Op o (fun r => try_except (k r) h)
  end.

(** Send one statement; its exception, if any, is raised in the program. *)
Definition perform {B : Type} (o : op B) : prog B :=
  Op o (fun r => match r with inl e => Raise e | inr b => Ret b end).

Definition select {B : Type} (q : store -> B) : prog B := perform (Select q).
Definition execute (w : store -> result store) : prog unit := perform (Execute w).

(** ** The database file and a connection to it

    The file holds the committed tables and records which connection, if any,
    holds the write lock. A connection is identified by a number and is either
    in autocommit mode ([None]) or inside a transaction with its working copy
    of the tables ([Some]). *)
Record database : Type := mk_database {
  db_store : store;
  db_writer : option nat
}.

Definition release (me : nat) (d : database) : database :=
  match db_writer d with
  | Some w => if Nat.eqb w me then {| db_store := db_store d; db_writer := None |} else d
  | None => d
  end.

Definition locked_by_other (me : nat) (d : database) : bool :=
  match db_writer d with
  | Some w => negb (Nat.eqb w me)
  | None => false
  end.

Definition busy : exn := OperationalError "database is locked".

(** The effect of one statement sent by connection [me].
    - [BEGIN IMMEDIATE] takes the write lock or fails when another connection
      holds it;
    - a SELECT reads the connection's working copy inside a transaction and
      the committed tables otherwise;
    - an INSERT or UPDATE outside a transaction first opens one (the [sqlite3]
      module does so implicitly) and a statement that fails changes nothing;
    - [commit] publishes the working copy and releases the lock;
    - [rollback] drops the working copy and releases the lock. *)
Definition do_op (me : nat) {B : Type} (o : op B) (txn : option store) (d : database)
  : result B * option store * database :=
  match o in op T return result T * option store * database with
  | BeginImmediate =>
      match txn with
      | Some _ =>
          (inl (OperationalError "cannot start a transaction within a transaction"), txn, d)
      | None =>
          if locked_by_other me d then (inl busy, None, d)
          else (inr tt, Some (db_store d), {| db_store := db_store d; db_writer := Some me |})
      end
  | Select q =>
      (inr (q (default (db_store d) txn)), txn, d)
  | Execute w =>
      match txn with
      | Some s =>
          match w s with
          | inl e => (inl e, txn, d)
          | inr s' => (inr tt, Some s', d)
          end
      | None =>
          if locked_by_other me d then (inl busy, None, d)
          else
            let d' := {| db_store := db_store d; db_writer := Some me |} in
            match w (db_store d) with
            | inl e => (inl e, Some (db_store d), d')
            | inr s' => (inr tt, Some s', d')
            end
      end
  | CommitOp =>
      match txn with
      | Some s => (inr tt, None, {| db_store := s; db_writer := None |})
      | None => (inr tt, None, d)
      end
  | RollbackOp =>
      (inr tt, None, release me d)
  end.

(** Run a handler to its end on connection [me]. *)
Fixpoint run {A : Type} (me : nat) (p : prog A) (txn : option store) (d : database)
  : result A * option store * database :=
  match p with
  | Ret a => (inr a, txn, d)
  | Raise e => (inl e, txn, d)
  | Op o k => let '(r, txn', d') := do_op me o txn d in run me (k r) txn' d'
  end.

(** [close_db]: closing the connection drops a transaction left open. *)
Definition close_db (me : nat) (txn : option store) (d : database) : database :=
  release me d.

(** One request: a fresh connection, the handler, then the teardown. *)
Definition serve {A : Type} (me : nat) (p : prog A) (d : database) : result A * database :=
  let '(r, txn, d') := run me p None d in (r, close_db me txn d').

(** ** Ticket numbers *)

(** Rendering of [f"DT-{year}-{next_value:06d}"]. *)
Definition format_ticket_number (year next_value : Z) : string :=
  "DT-" +:+ Text.fmt_d year +:+ "-" +:+ Text.fmt_06d next_value.

(** [INSERT OR IGNORE INTO ticket_sequence (ticket_year, last_value) VALUES (?, 0)] *)
Definition insert_or_ignore_sequence (year : Z) (s : store) : result store :=
  inr match tbl_ticket_sequence s !! year with
      | Some _ => s
      | None =>
          {| tbl_ticket_sequence := <[year := 0]> (tbl_ticket_sequence s);
             tbl_tickets := tbl_tickets s; tbl_jobs_cache := tbl_jobs_cache s;
             tbl_trucks := tbl_trucks s; tbl_materials := tbl_materials s |}
      end.

(** [UPDATE ticket_sequence SET last_value = ? WHERE ticket_year = ?] *)
Definition update_sequence (year next_value : Z) (s : store) : result store :=
  inr match tbl_ticket_sequence s !! year with
      | Some _ =>
          {| tbl_ticket_sequence := <[year := next_value]> (tbl_ticket_sequence s);
             tbl_tickets := tbl_tickets s; tbl_jobs_cache := tbl_jobs_cache s;
             tbl_trucks := tbl_trucks s; tbl_materials := tbl_materials s |}
      | None => s
      end.

(** [next_ticket_number(db)]; [year] is the reading [datetime.now().year]. *)
Definition next_ticket_number (year : Z) : prog (string * Z * Z) :=
  _ ← execute (insert_or_ignore_sequence year);
  row ← select (fun s => tbl_ticket_sequence s !! year);
  match row with
  | None => Raise (TypeError "'NoneType' object is not subscriptable")
  | Some last_value =>
      let next_value := last_value + 1 in
      _ ← execute (update_sequence year next_value);
      mret (format_ticket_number year next_value, year, next_value)
  end.

(** ** Ticket creation *)

(** The fields of the POST form; [None] is a key the request does not carry. *)
Record form : Type := mk_form {
  fm_direction : option string;
  fm_job_id : option string;
  fm_job_entry : option string;
  fm_truck_id : option string;
  fm_truck_entry : option string;
  fm_material_id : option string;
  fm_material_entry : option string;
  fm_customer : option string;
  fm_quantity : option string;
  fm_unit : option string;
  fm_notes : option string;
  fm_auto_print : option string;
  fm_use_now : option string;
  fm_custom_datetime : option string
}.

(** The two readings of the wall clock a ticket creation uses: the year read
    by [next_ticket_number] and [datetime.now().isoformat(timespec="seconds")]. *)
Record clock : Type := mk_clock {
  now_year : Z;
  now_isoformat : string
}.

(** What a handler answers: a redirect carrying the flashed message. *)
Inductive response : Type :=
| Redirect (endpoint : string) (category : string) (message : string).

Definition exn_message (e : exn) : string :=
  match e with
  | ValueError m | TypeError m | RuntimeError m | IntegrityError m
  | OperationalError m | OSError m | RenderFailure m => m
  end.

(** [request.form.get(key, "")] *)
Definition get_or_empty (v : option string) : string := default "" v.

(** [request.form.get(key) or fallback] *)
Definition get_or (v : option string) (fallback : string) : string :=
  match v with
  | Some s => if String.eqb s "" then fallback else s
  | None => fallback
  end.

(** Truth of a [str]: non-empty. *)
Definition truthy (s : string) : bool := negb (String.eqb s "").

(** [request.form.get(key) == "on"] *)
Definition is_on (v : option string) : bool :=
  match v with Some s => String.eqb s "on" | None => false end.

(** [WHERE id = ?] with a text parameter against the integer key. *)
Definition id_matches `{Runtime} (param : string) (id : Z) : bool :=
  bool_decide (sql_integer param = Some id).

(** The rowid SQLite gives to a new row: one more than the largest in use. *)
Definition next_rowid (ids : list Z) : Z := 1 + foldr Z.max 0 ids.

(** The row as the table keeps it: the bound values under a new id, the
    quantity as the column stores it. *)
Definition with_id (id : Z) (t : ticket) : ticket :=
  {| ticket_id := id;
     ticket_number := ticket_number t;
     ticket_year := ticket_year t;
     ticket_sequence := ticket_sequence t;
     direction := direction t;
     created_at := created_at t;
     job_id := job_id t;
     job_code_snapshot := job_code_snapshot t;
     job_name_snapshot := job_name_snapshot t;
     customer_snapshot := customer_snapshot t;
     truck_id := truck_id t;
     truck_number_snapshot := truck_number_snapshot t;
     material_id := material_id t;
     material_name_snapshot := material_name_snapshot t;
     quantity := Float.kept (quantity t);
     unit_ := unit_ t;
     notes := notes t;
     pdf_path := pdf_path t;
     pdf_blob := pdf_blob t |}.

(** Modelled from the spec: [schema.sql] is not among the sources. The
    logical schema gives every ticket a numeric quantity and declares
    [ticket_number] UNIQUE: the INSERT of a NULL quantity (a NaN, as the
    [sqlite3] module binds it) or of a number already in the table raises
    [IntegrityError] and changes nothing, the NOT NULL constraint being
    checked first. *)
Definition insert_ticket (t : ticket) (s : store) : result store :=
  if Float.is_nan (quantity t)
  then inl (IntegrityError "NOT NULL constraint failed: tickets.quantity")
  else
    if existsb (fun t' => String.eqb (ticket_number t') (ticket_number t)) (tbl_tickets s)
    then inl (IntegrityError "UNIQUE constraint failed: tickets.ticket_number")
    else inr {| tbl_ticket_sequence := tbl_ticket_sequence s;
                tbl_tickets :=
                  tbl_tickets s ++ [with_id (next_rowid (map ticket_id (tbl_tickets s))) t];
                tbl_jobs_cache := tbl_jobs_cache s;
                tbl_trucks := tbl_trucks s;
                tbl_materials := tbl_materials s |}.

(** Lift a runtime call into a program. *)
Definition call {A : Type} (r : result A) : prog A :=
  match r with inl e => Raise e | inr a => Ret a end.

(** The resolved references of a request: what the code holds in
    [job_id_value], [job_code_snapshot], [job_name_snapshot], [customer],
    [truck_id_value], [truck_number_snapshot], [material_id_value] and
    [material_name_snapshot] when it reaches the quantity check. *)
Record snapshot : Type := mk_snapshot {
  sn_job_id_value : option Z;
  sn_job_code : string;
  sn_job_name : string;
  sn_customer : string;
  sn_truck_id_value : option Z;
  sn_truck_number : string;
  sn_material_id_value : option Z;
  sn_material_name : string
}.

(** Lines 549-561: the job part of the snapshot. *)
Definition job_snapshot (job_row : option job) (job_entry customer : string)
  : prog (option Z * string * string * string) :=
  match job_row with
  | Some j =>
      mret (Some (jc_id j), jc_job_code j, jc_job_name j,
            if truthy customer then customer else Text.strip (jc_customer j))
  | None =>
      if Text.contains " - " job_entry then
        match map Text.strip (Text.split1 " - " job_entry) with
        | [code; name] => mret (None, code, name, customer)
        | _ => Raise (ValueError "not enough values to unpack (expected 2)")
        end
      else mret (None, job_entry, job_entry, customer)
  end.

(** Lines 598-610: the dictionary [row]. *)
Definition pdf_row_of (number created direction_ : string) (sn : snapshot)
    (quantity_num : double) (unit_text notes_text : string) : pdf_row :=
  {| pr_ticket_number := number; pr_created_at := created;
     pr_direction := direction_;
     pr_job_code_snapshot := sn_job_code sn;
     pr_job_name_snapshot := sn_job_name sn;
     pr_customer_snapshot := sn_customer sn;
     pr_truck_number_snapshot := sn_truck_number sn;
     pr_material_name_snapshot := sn_material_name sn;
     pr_quantity := quantity_num; pr_unit := unit_text; pr_notes := notes_text |}.

(** Lines 623-642: the values bound to the INSERT; the table assigns the id. *)
Definition ticket_of (number : string) (year seq : Z) (created direction_ : string)
    (sn : snapshot) (quantity_num : double) (unit_text notes_text path pdf_bytes : string) : ticket :=
  {| ticket_id := 0;
     ticket_number := number; ticket_year := year; ticket_sequence := seq;
     direction := direction_; created_at := created;
     job_id := sn_job_id_value sn;
     job_code_snapshot := sn_job_code sn;
     job_name_snapshot := sn_job_name sn;
     customer_snapshot := sn_customer sn;
     truck_id := sn_truck_id_value sn;
     truck_number_snapshot := sn_truck_number sn;
     material_id := sn_material_id_value sn;
     material_name_snapshot := sn_material_name sn;
     quantity := quantity_num; unit_ := unit_text; notes := notes_text;
     pdf_path := path; pdf_blob := pdf_bytes |}.

(** Lines 586-596: the creation time, or the early [return] of the handler. *)
Definition choose_created_at `{Runtime} (clk : clock)
    (use_now : bool) (custom_datetime : option string) : response + string :=
  if use_now then inr (now_isoformat clk)
  else
    if negb (truthy (get_or_empty custom_datetime)) then
      inl (Redirect "new_ticket" "error" "Please select a valid date and time.")
    else
      match fromisoformat_seconds (get_or_empty custom_datetime) with
      | None => inl (Redirect "new_ticket" "error" "Invalid date format.")
      | Some created => inr created
      end.

(** The body of the [try] block, lines 584-644. It ends by an early [return]
    of a response ([inl]) or with the committed ticket's number and path. *)
Definition create_in_transaction `{Runtime} (clk : clock)
    (use_now : bool) (custom_datetime : option string)
    (direction_ : string) (sn : snapshot) (quantity_num : double) (unit_text notes_text : string)
  : prog (response + string * string) :=
  _ ← perform BeginImmediate;
  '(number, year, seq) ← next_ticket_number (now_year clk);
  match choose_created_at clk use_now custom_datetime with
  | inl early => mret (inl early)
  | inr created =>
      pdf_bytes ← call (to_pdf_bytes (pdf_row_of number created direction_ sn
                                         quantity_num unit_text notes_text));
      path ← call (save_pdf number pdf_bytes);
      _ ← execute (insert_ticket (ticket_of number year seq created direction_ sn
                                     quantity_num unit_text notes_text path pdf_bytes));
      _ ← perform CommitOp;
      mret (inr (number, path))
  end.

(** The [except Exception] clause of lines 645-647. *)
Definition rollback_and_raise {A : Type} (e : exn) : prog A :=
  _ ← perform RollbackOp; Raise e.

(** The [try] statement of lines 583-647. *)
Definition create_ticket `{Runtime} (clk : clock)
    (use_now : bool) (custom_datetime : option string)
    (direction_ : string) (sn : snapshot) (quantity_num : double) (unit_text notes_text : string)
  : prog (response + string * string) :=
  try_except
    (create_in_transaction clk use_now custom_datetime direction_ sn
       quantity_num unit_text notes_text)
    rollback_and_raise.

(** Lines 517-530: the local variables read from the form. *)
Record fields : Type := mk_fields {
  fd_direction : string;
  fd_job_id : string;
  fd_job_entry : string;
  fd_truck_id : string;
  fd_truck_entry : string;
  fd_material_id : string;
  fd_material_entry : string;
  fd_customer : string;
  fd_quantity : string;
  fd_unit : string;
  fd_notes : string;
  fd_auto_print : bool;
  fd_use_now : bool;
  fd_custom_datetime : option string
}.

Definition read_form `{Runtime} (f : form) : fields :=
  {| fd_direction := str_upper (Text.strip (get_or_empty (fm_direction f)));
     fd_job_id := Text.strip (get_or_empty (fm_job_id f));
     fd_job_entry := Text.strip (get_or_empty (fm_job_entry f));
     fd_truck_id := Text.strip (get_or_empty (fm_truck_id f));
     fd_truck_entry := Text.strip (get_or_empty (fm_truck_entry f));
     fd_material_id := Text.strip (get_or_empty (fm_material_id f));
     fd_material_entry := Text.strip (get_or_empty (fm_material_entry f));
     fd_customer := Text.strip (get_or_empty (fm_customer f));
     fd_quantity := Text.strip (get_or (fm_quantity f) "1");
     fd_unit := Text.strip (get_or (fm_unit f) "Load");
     fd_notes := Text.strip (get_or_empty (fm_notes f));
     fd_auto_print := is_on (fm_auto_print f);
     fd_use_now := is_on (fm_use_now f);
     fd_custom_datetime := fm_custom_datetime f |}.

(** Line 532: [direction in {"IN", "OUT"}]. *)
Definition direction_ok (d : string) : bool := String.eqb d "IN" || String.eqb d "OUT".

(** Line 535: [all([job_entry, truck_entry, material_entry, quantity, unit])]. *)
Definition required_present (v : fields) : bool :=
  forallb truthy [fd_job_entry v; fd_truck_entry v; fd_material_entry v; fd_quantity v; fd_unit v].

(** Lines 542-547: the three lookups by identifier. *)
Definition find_job `{Runtime} (job_id_ : string) (s : store) : option job :=
  find (fun j => id_matches job_id_ (jc_id j)) (tbl_jobs_cache s).
Definition find_truck `{Runtime} (truck_id_ : string) (s : store) : option truck :=
  find (fun t => id_matches truck_id_ (tr_id t)) (tbl_trucks s).
Definition find_material `{Runtime} (material_id_ : string) (s : store) : option material :=
  find (fun m => id_matches material_id_ (ma_id m)) (tbl_materials s).

(** Lines 563-575 on top of the job part. *)
Definition snapshot_of (v : fields) (job_part : option Z * string * string * string)
    (truck_row : option truck) (material_row : option material) : snapshot :=
  let '(job_id_value, job_code, job_name, customer) := job_part in
  {| sn_job_id_value := job_id_value;
     sn_job_code := job_code;
     sn_job_name := job_name;
     sn_customer := customer;
     sn_truck_id_value := tr_id <$> truck_row;
     sn_truck_number := from_option tr_truck_number (fd_truck_entry v) truck_row;
     sn_material_id_value := ma_id <$> material_row;
     sn_material_name := from_option ma_material_name (fd_material_entry v) material_row |}.

(** Lines 649-658: what is answered once the ticket is committed. *)
Definition after_commit `{Runtime} (auto_print : bool) (number path : string) : response :=
  let created := Redirect "new_ticket" "success" ("Ticket " +:+ number +:+ " created.") in
  if auto_print then
    match print_pdf_file path with
    | inl e => Redirect "new_ticket" "error" ("Ticket saved, but print failed: " +:+ exn_message e)
    | inr _ => created
    end
  else created.

(** [new_ticket()], the POST branch (lines 516-658). *)
Definition new_ticket `{Runtime} (clk : clock) (f : form) : prog response :=
  let v := read_form f in
  if negb (direction_ok (fd_direction v)) then
    mret (Redirect "new_ticket" "error" "Direction must be IN or OUT.")
  else if negb (required_present v) then
    mret (Redirect "new_ticket" "error" "Job, truck, material, quantity, and unit are required.")
  else
    job_row ← (if truthy (fd_job_id v) then select (find_job (fd_job_id v)) else mret None);
    truck_row ← (if truthy (fd_truck_id v) then select (find_truck (fd_truck_id v)) else mret None);
    material_row ← (if truthy (fd_material_id v)
                    then select (find_material (fd_material_id v)) else mret None);
    job_part ← job_snapshot job_row (fd_job_entry v) (fd_customer v);
    let sn := snapshot_of v job_part truck_row material_row in
    match py_float (fd_quantity v) with
    | None => mret (Redirect "new_ticket" "error" "Quantity must be numeric.")
    | Some quantity_num =>
        outcome ← create_ticket clk (fd_use_now v) (fd_custom_datetime v)
                    (fd_direction v) sn quantity_num (fd_unit v) (fd_notes v);
        match outcome with
        | inl early => mret early
        | inr (number, path) => mret (after_commit (fd_auto_print v) number path)
        end
    end.

(** ** A reference runtime

    One implementation of the interface, used to evaluate the handlers on
    concrete requests: decimal literals for [float] and [int], timestamps of
    the shape [YYYY-MM-DDTHH:MM[:SS]], the proleptic Gregorian calendar for
    dates, a rendering that always succeeds and a host without a printer. *)
Module Reference.

Definition digit_of (c : ascii) : option Z :=
  let n := nat_of_ascii c in
  if Nat.leb 48 n && Nat.leb n 57 then Some (Z.of_nat (n - 48)) else None.

Fixpoint digits_value (acc : Z) (s : string) : option Z :=
  match s with
  | EmptyString => Some acc
  | String c s' =>
      match digit_of c with
      | Some d => digits_value (10 * acc + d) s'
      | None => None
      end
  end.

Definition parse_digits (s : string) : option Z :=
  if String.eqb s "" then None else digits_value 0 s.

Definition parse_int (s : string) : option Z :=
  match s with
  | String "-" s' => Z.opp <$> parse_digits s'
  | String "+" s' => parse_digits s'
  | _ => parse_digits s
  end.

(** The decimal [digits / 10^places], rounded once: exact to the last bit
    for the short literals of the scenarios, whose digits and power of ten
    are numbers themselves. *)
Definition decimal (digits : Z) (places : nat) : double :=
  Float.div (Float.of_Z digits) (Float.of_Z (10 ^ Z.of_nat places)).

Definition parse_unsigned_decimal (s : string) : option double :=
  if String.eqb s "nan" then Some S754_nan
  else if String.eqb s "inf" then Some (S754_infinity false)
  else
    match Text.split1 "." s with
    | [whole] => (fun w => decimal w 0) <$> parse_digits whole
    | [whole; frac] =>
        match parse_digits whole, parse_digits frac with
        | Some w, Some f =>
            Some (decimal (w * 10 ^ Z.of_nat (String.length frac) + f) (String.length frac))
        | _, _ => None
        end
    | _ => None
    end.

Definition parse_decimal (s : string) : option double :=
  match s with
  | String "-" s' => Float.opp <$> parse_unsigned_decimal s'
  | String "+" s' => parse_unsigned_decimal s'
  | _ => parse_unsigned_decimal s
  end.

(** Upper and lower case of the ASCII letters. *)
Definition lower_char (c : ascii) : ascii :=
  let n := nat_of_ascii c in
  if Nat.leb 65 n && Nat.leb n 90 then ascii_of_nat (n + 32) else c.

Fixpoint upper (s : string) : string :=
  match s with
  | EmptyString => EmptyString
  | String c s' => String (Text.upper_char c) (upper s')
  end.

Fixpoint lower (s : string) : string :=
  match s with
  | EmptyString => EmptyString
  | String c s' => String (lower_char c) (lower s')
  end.

(** The additions from left to right; NULL for a NaN. *)
Definition sum_real (l : list double) : option double :=
  let total := Float.sum l in
  if Float.is_nan total then None else Some total.

(** Days of the civil date [y-m-d], counted so that 0001-01-01 is day 1. *)
Definition ordinal_of_civil (y m d : Z) : Z :=
  let y' := if m <=? 2 then y - 1 else y in
  let era := y' / 400 in
  let yoe := y' - era * 400 in
  let mp := (m + 9) mod 12 in
  let doy := (153 * mp + 2) / 5 + d - 1 in
  let doe := yoe * 365 + yoe / 4 - yoe / 100 + doy in
  era * 146097 + doe - 305.

Definition civil_of_ordinal (n : Z) : Z * Z * Z :=
  let z := n + 305 in
  let era := z / 146097 in
  let doe := z - era * 146097 in
  let yoe := (doe - doe / 1460 + doe / 36524 - doe / 146096) / 365 in
  let doy := doe - (365 * yoe + yoe / 4 - yoe / 100) in
  let mp := (5 * doy + 2) / 153 in
  let d := doy - (153 * mp + 2) / 5 + 1 in
  let m := if mp <? 10 then mp + 3 else mp - 9 in
  let y := yoe + era * 400 in
  (if m <=? 2 then y + 1 else y, m, d).

Definition iso_date (n : Z) : string :=
  let '(y, m, d) := civil_of_ordinal n in
  Text.zfill 4 (pretty y) +:+ "-" +:+ Text.zfill 2 (pretty m) +:+ "-" +:+ Text.zfill 2 (pretty d).

(** The day of a text that starts with [YYYY-MM-DD]. *)
Definition date_of_text (s : string) : option Z :=
  match parse_digits (String.substring 0 4 s),
        parse_digits (String.substring 5 2 s),
        parse_digits (String.substring 8 2 s) with
  | Some y, Some m, Some d =>
      if String.eqb (String.substring 4 1 s) "-" && String.eqb (String.substring 7 1 s) "-"
         && (1 <=? m) && (m <=? 12) && (1 <=? d) && (d <=? 31)
      then Some (ordinal_of_civil y m d) else None
  | _, _, _ => None
  end.

(** [YYYY-MM-DDTHH:MM] gains its seconds, [YYYY-MM-DDTHH:MM:SS] is kept. *)
Definition iso_seconds (s : string) : option string :=
  match date_of_text s with
  | Some _ =>
      if String.eqb (String.substring 10 1 s) "T" then
        if Nat.eqb (String.length s) 16 then Some (s +:+ ":00")
        else if Nat.eqb (String.length s) 19 then Some s else None
      else None
  | None => None
  end.

#[export] Instance runtime : Runtime := {|
  py_float := parse_decimal;
  str_upper := upper;
  str_lower := lower;
  sql_sum := sum_real;
  py_int := parse_int;
  fromisoformat_seconds := iso_seconds;
  date_isoformat := iso_date;
  sql_date := date_of_text;
  sql_integer := parse_int;
  to_pdf_bytes := fun row => inr ("%PDF-1.4 " +:+ pr_ticket_number row);
  save_pdf := fun number _ => inr ("tickets_pdf/" +:+ number +:+ ".pdf");
  print_pdf_file := fun _ =>
    inl (RuntimeError "Automatic printing is currently implemented for Windows only.")
|}.

End Reference.

(** The tables after an allocation for [year]: the counter row exists and
    holds one more than before (one, when there was no row). *)
Definition last_value (year : Z) (s : store) : Z :=
  default 0 (tbl_ticket_sequence s !! year).

Definition allocated (year : Z) (s : store) : store :=
  {| tbl_ticket_sequence := <[year := last_value year s + 1]> (tbl_ticket_sequence s);
     tbl_tickets := tbl_tickets s; tbl_jobs_cache := tbl_jobs_cache s;
     tbl_trucks := tbl_trucks s; tbl_materials := tbl_materials s |}.

(** ** The outcomes of a ticket creation

    What one run of [new_ticket] on connection [me] can leave behind, starting
    in autocommit mode on the database [d]: the answer (or the exception), the
    state of the connection and the database file. *)
Section Outcome.
Context `{Runtime}.
Variables (me : nat) (clk : clock) (f : form) (d : database).

Definition job_row_of : option job :=
  if truthy (fd_job_id (read_form f))
  then find_job (fd_job_id (read_form f)) (db_store d) else None.
Definition truck_row_of : option truck :=
  if truthy (fd_truck_id (read_form f))
  then find_truck (fd_truck_id (read_form f)) (db_store d) else None.
Definition material_row_of : option material :=
  if truthy (fd_material_id (read_form f))
  then find_material (fd_material_id (read_form f)) (db_store d) else None.

Inductive new_ticket_outcome : result response -> option store -> database -> Prop :=
| nt_rejected (m : string) :
    (* a validation before the transaction *)
    new_ticket_outcome (inr (Redirect "new_ticket" "error" m)) None d
| nt_raised (e : exn) :
    (* an exception, after the rollback when inside the transaction *)
    new_ticket_outcome (inl e) None d
| nt_left_open (early : response) :
    (* the early return of the timestamp check *)
    direction_ok (fd_direction (read_form f)) = true ->
    required_present (read_form f) = true ->
    choose_created_at clk (fd_use_now (read_form f)) (fd_custom_datetime (read_form f))
      = inl early ->
    new_ticket_outcome (inr early)
      (Some (allocated (now_year clk) (db_store d)))
      {| db_store := db_store d; db_writer := Some me |}
| nt_created (job_part : option Z * string * string * string) (q : double)
             (created pdf_bytes path : string) (s2 : store) :
    let v := read_form f in
    let sn := snapshot_of v job_part truck_row_of material_row_of in
    let year := now_year clk in
    let seq := last_value year (db_store d) + 1 in
    let number := format_ticket_number year seq in
    direction_ok (fd_direction v) = true ->
    required_present v = true ->
    job_snapshot job_row_of (fd_job_entry v) (fd_customer v) = Ret job_part ->
    py_float (fd_quantity v) = Some q ->
    choose_created_at clk (fd_use_now v) (fd_custom_datetime v) = inr created ->
    to_pdf_bytes (pdf_row_of number created (fd_direction v) sn q (fd_unit v) (fd_notes v))
      = inr pdf_bytes ->
    save_pdf number pdf_bytes = inr path ->
    insert_ticket (ticket_of number year seq created (fd_direction v) sn q
                     (fd_unit v) (fd_notes v) path pdf_bytes)
                  (allocated year (db_store d)) = inr s2 ->
    new_ticket_outcome (inr (after_commit (fd_auto_print v) number path)) None
      {| db_store := s2; db_writer := None |}.

End Outcome.

(** ** Scenarios

    Concrete requests, evaluated with the reference runtime. *)
Module Scenario.

Definition fresh_database : database :=
  {| db_store := empty_store; db_writer := None |}.

Definition clock_2025 : clock :=
  {| now_year := 2025; now_isoformat := "2025-03-01T10:00:00" |}.

(** Direction IN, job text "J100 - Main St", truck text "T12", material
    text "Gravel", quantity "12.5", unit "Ton", created now. *)
Definition gravel_form : form :=
  {| fm_direction := Some "IN";
     fm_job_id := None; fm_job_entry := Some "J100 - Main St";
     fm_truck_id := None; fm_truck_entry := Some "T12";
     fm_material_id := None; fm_material_entry := Some "Gravel";
     fm_customer := None;
     fm_quantity := Some "12.5"; fm_unit := Some "Ton";
     fm_notes := None; fm_auto_print := None;
     fm_use_now := Some "on"; fm_custom_datetime := None |}.

(** The same request without its quantity and unit fields. *)
Definition form_without_quantity_and_unit : form :=
  {| fm_direction := Some "IN";
     fm_job_id := None; fm_job_entry := Some "J100 - Main St";
     fm_truck_id := None; fm_truck_entry := Some "T12";
     fm_material_id := None; fm_material_entry := Some "Gravel";
     fm_customer := None;
     fm_quantity := None; fm_unit := None;
     fm_notes := None; fm_auto_print := None;
     fm_use_now := Some "on"; fm_custom_datetime := None |}.

(** The same request with a blank job text. *)
Definition form_with_blank_job : form :=
  {| fm_direction := Some "IN";
     fm_job_id := None; fm_job_entry := Some "   ";
     fm_truck_id := None; fm_truck_entry := Some "T12";
     fm_material_id := None; fm_material_entry := Some "Gravel";
     fm_customer := None;
     fm_quantity := Some "12.5"; fm_unit := Some "Ton";
     fm_notes := None; fm_auto_print := None;
     fm_use_now := Some "on"; fm_custom_datetime := None |}.

(** The use-now box unchecked and no timestamp given. *)
Definition form_without_timestamp : form :=
  {| fm_direction := Some "IN";
     fm_job_id := None; fm_job_entry := Some "J100 - Main St";
     fm_truck_id := None; fm_truck_entry := Some "T12";
     fm_material_id := None; fm_material_entry := Some "Gravel";
     fm_customer := None;
     fm_quantity := Some "12.5"; fm_unit := Some "Ton";
     fm_notes := None; fm_auto_print := None;
     fm_use_now := None; fm_custom_datetime := None |}.

(** The use-now box unchecked and a timestamp of the year 2019. *)
Definition form_dated_2019 : form :=
  {| fm_direction := Some "OUT";
     fm_job_id := None; fm_job_entry := Some "J200";
     fm_truck_id := None; fm_truck_entry := Some "T7";
     fm_material_id := None; fm_material_entry := Some "Sand";
     fm_customer := Some "Acme";
     fm_quantity := Some "3"; fm_unit := Some "Load";
     fm_notes := None; fm_auto_print := None;
     fm_use_now := None; fm_custom_datetime := Some "2019-06-30T08:15" |}.

End Scenario.

(** A runtime whose renderer always fails, the rest as in the reference. *)
Module Broken.

#[export] Instance runtime : Runtime := {|
  py_float := Reference.parse_decimal;
  str_upper := Reference.upper;
  str_lower := Reference.lower;
  sql_sum := Reference.sum_real;
  py_int := Reference.parse_int;
  fromisoformat_seconds := Reference.iso_seconds;
  date_isoformat := Reference.iso_date;
  sql_date := Reference.date_of_text;
  sql_integer := Reference.parse_int;
  to_pdf_bytes := fun _ => inl (RenderFailure "cannot draw the ticket");
  save_pdf := fun number _ => inr ("tickets_pdf/" +:+ number +:+ ".pdf");
  print_pdf_file := fun _ =>
    inl (RuntimeError "Automatic printing is currently implemented for Windows only.")
|}.

End Broken.

(** The resolved references of [Scenario.gravel_form]. *)
Definition gravel_snapshot : snapshot :=
  {| sn_job_id_value := None; sn_job_code := "J100"; sn_job_name := "Main St";
     sn_customer := "";
     sn_truck_id_value := None; sn_truck_number := "T12";
     sn_material_id_value := None; sn_material_name := "Gravel" |}.

(** ** Several requests on one database file

    Each request runs on a connection of its own, numbered by its position in
    the list of requests. A step of the system is a new request arriving, one
    statement of one request, or the end of a request with the teardown that
    closes its connection. *)
Inductive thread : Type :=
| Running (txn : option store) (p : prog response)
| Closed (r : result response).

Record system : Type := mk_system {
  sys_db : database;
  sys_threads : list thread
}.

Inductive step : system -> system -> Prop :=
| step_arrive (d : database) (ts : list thread) (rt : Runtime) (clk : clock) (f : form) :
    step {| sys_db := d; sys_threads := ts |}
         {| sys_db := d; sys_threads := ts ++ [Running None (@new_ticket rt clk f)] |}
| step_statement (d : database) (ts : list thread) (i : nat) (txn : option store)
    (B : Type) (o : op B) (k : result B -> prog response)
    (r : result B) (txn' : option store) (d' : database) :
    ts !! i = Some (Running txn (Op o k)) ->
    do_op i o txn d = (r, txn', d') ->
    step {| sys_db := d; sys_threads := ts |}
         {| sys_db := d'; sys_threads := <[i := Running txn' (k r)]> ts |}
| step_return (d : database) (ts : list thread) (i : nat) (txn : option store) (a : response) :
    ts !! i = Some (Running txn (Ret a)) ->
    step {| sys_db := d; sys_threads := ts |}
         {| sys_db := close_db i txn d; sys_threads := <[i := Closed (inr a)]> ts |}
| step_raise (d : database) (ts : list thread) (i : nat) (txn : option store) (e : exn) :
    ts !! i = Some (Running txn (Raise e)) ->
    step {| sys_db := d; sys_threads := ts |}
         {| sys_db := close_db i txn d; sys_threads := <[i := Closed (inl e)]> ts |}.

(** The states the system reaches from the empty database. *)
Inductive reachable : system -> Prop :=
| reachable_start :
    reachable {| sys_db := {| db_store := empty_store; db_writer := None |};
                 sys_threads := [] |}
| reachable_step (s s' : system) : reachable s -> step s s' -> reachable s'.

(** ** The sequence invariant *)

(** The sequence values of the tickets of a year, in insertion order. *)
Definition sequences_of_year (year : Z) (s : store) : list Z :=
  map ticket_sequence
      (filter (fun t => bool_decide (ticket_year t = year)) (tbl_tickets s)).

(** [1; 2; ...; n] *)
Definition one_to (n : nat) : list Z := map Z.of_nat (seq 1 n).

(** Every year's tickets carry the values 1, 2, ... up to the year's counter. *)
Definition sequence_consistent (s : store) : Prop :=
  forall year,
    0 <= last_value year s /\
    sequences_of_year year s = one_to (Z.to_nat (last_value year s)).

(** What a connection may assume of the file before each of its statements,
    and must re-establish after it: the committed tables are consistent, and
    the connection holds the write lock exactly when it is in a transaction. *)
Definition db_ok (me : nat) (txn : option store) (d : database) : Prop :=
  sequence_consistent (db_store d) /\ (is_Some txn <-> db_writer d = Some me).

(** [wp me p txn Q]: whatever consistent state the file is in when each
    statement of [p] is sent, the statement keeps it consistent, and [p] ends
    with a result and a connection state that satisfy [Q]. *)
Fixpoint wp {A : Type} (me : nat) (p : prog A) (txn : option store)
    (Q : result A -> option store -> Prop) : Prop :=
  match p with
  | Ret a => Q (inr a) txn
  | Raise e => Q (inl e) txn
  | Op o k =>
      forall d, db_ok me txn d ->
                let '(r, txn', d') := do_op me o txn d in
                db_ok me txn' d' /\ wp me (k r) txn' Q
  end.

Definition safe {A : Type} (me : nat) (p : prog A) (txn : option store) : Prop :=
  wp me p txn (fun _ _ => True).

(** The invariant of the system. *)
Definition system_ok (s : system) : Prop :=
  sequence_consistent (db_store (sys_db s)) /\
  (forall i txn p, sys_threads s !! i = Some (Running txn p) ->
                   safe i p txn /\ (is_Some txn <-> db_writer (sys_db s) = Some i)) /\
  (forall i r, sys_threads s !! i = Some (Closed r) -> db_writer (sys_db s) <> Some i) /\
  (forall i, db_writer (sys_db s) = Some i -> (i < length (sys_threads s))%nat).

(** ** Schedules

    The step relation, made executable: a schedule says which request
    arrives or which connection moves next. *)
Inductive action : Type :=
| Arrive (rt : Runtime) (clk : clock) (f : form)
| Move (i : nat).

Definition perform_action (a : action) (s : system) : system :=
  match a with
  | Arrive rt clk f =>
      {| sys_db := sys_db s;
         sys_threads := sys_threads s ++ [Running None (@new_ticket rt clk f)] |}
  | Move i =>
      match sys_threads s !! i with
      | Some (Running txn (Op o k)) =>
          let '(r, txn', d') := do_op i o txn (sys_db s) in
          {| sys_db := d'; sys_threads := <[i := Running txn' (k r)]> (sys_threads s) |}
      | Some (Running txn (Ret a)) =>
          {| sys_db := close_db i txn (sys_db s);
             sys_threads := <[i := Closed (inr a)]> (sys_threads s) |}
      | Some (Running txn (Raise e)) =>
          {| sys_db := close_db i txn (sys_db s);
             sys_threads := <[i := Closed (inl e)]> (sys_threads s) |}
      | Some (Closed _) | None => s
      end
  end.

Definition run_schedule (sched : list action) (s : system) : system :=
  foldl (fun s a => perform_action a s) s sched.

Definition start : system :=
  {| sys_db := {| db_store := empty_store; db_writer := None |}; sys_threads := [] |}.

(** Two requests in flight at once: both arrive, the first opens its
    transaction, the second is refused the lock and fails, a third request
    arrives while the first is still inside its transaction and starts its
    own once the first has committed. *)
Definition contended_schedule : list action :=
  [ Arrive Reference.runtime Scenario.clock_2025 Scenario.gravel_form;
    Arrive Reference.runtime Scenario.clock_2025 Scenario.form_dated_2019;
    Move 0; Move 0;
    Move 1; Move 1; Move 1;
    Arrive Reference.runtime Scenario.clock_2025 Scenario.form_dated_2019;
    Move 0; Move 0; Move 0; Move 0;
    Move 2; Move 2; Move 2;
    Move 0;
    Move 2; Move 2; Move 2; Move 2 ].

(** ** The jobs cache *)

(** [upsert_job_cache_row]: INSERT, or on a [job_code] already in the table,
    UPDATE of every other column of that row. *)
Definition upsert_job_cache_row (job_code job_name customer : string) (active : Z)
    (source_updated_at : option string) (refreshed_at : string) (s : store) : result store :=
  let jobs := tbl_jobs_cache s in
  let jobs' :=
    if existsb (fun j => String.eqb (jc_job_code j) job_code) jobs then
      map (fun j =>
             if String.eqb (jc_job_code j) job_code then
               {| jc_id := jc_id j; jc_job_code := job_code; jc_job_name := job_name;
                  jc_customer := customer; jc_active := active;
                  jc_source_updated_at := source_updated_at;
                  jc_refreshed_at := refreshed_at |}
             else j) jobs
    else
      jobs ++ [ {| jc_id := next_rowid (map jc_id jobs); jc_job_code := job_code;
                   jc_job_name := job_name; jc_customer := customer; jc_active := active;
                   jc_source_updated_at := source_updated_at;
                   jc_refreshed_at := refreshed_at |} ] in
  inr {| tbl_ticket_sequence := tbl_ticket_sequence s; tbl_tickets := tbl_tickets s;
         tbl_jobs_cache := jobs'; tbl_trucks := tbl_trucks s;
         tbl_materials := tbl_materials s |}.

(** A row of the remote [jobs] query, after [str()]. *)
Record odbc_row : Type := mk_odbc_row {
  or_job_code : string;
  or_job_name : option string;
  or_customer : option string;
  or_active : option Z;
  or_source_updated_at : option string
}.

(** What [resolve_jobs_csv_path] and the environment offer: a CSV file, given
    by its header ([reader.fieldnames], empty when the file has none) and its
    data rows; or the remote query with its rows or its failure; or nothing. *)
Inductive jobs_source : Type :=
| CsvFile (fieldnames : list string) (rows : list (list string))
| RemoteQuery (rows : result (list odbc_row))
| NoSource.

(** [first_present]: the first of [names] that is a column of the header. *)
Definition first_present (fieldnames : list string) (names : list string) : option string :=
  find (fun name => existsb (String.eqb name) fieldnames) names.

(** [dict(zip(fieldnames, values)).get(col)]: the value under the last
    column of that name among those that have a value. *)
Fixpoint zipped_get (fieldnames values : list string) (col : string) : option string :=
  match fieldnames, values with
  | name :: fieldnames', value :: values' =>
      match zipped_get fieldnames' values' col with
      | Some v => Some v
      | None => if String.eqb name col then Some value else None
      end
  | _, _ => None
  end.

(** [row.get(col)] on the dictionary [csv.DictReader] builds from a data
    row: the header zipped with the values, after which every column the row
    has no value for is set to [None], also when a column of the same name
    had one. *)
Definition row_get (fieldnames values : list string) (col : string) : option string :=
  if existsb (String.eqb col) (drop (length values) fieldnames) then None
  else zipped_get fieldnames values col.

(** [str(row.get(col) or "").strip() if col else ""] *)
Definition cell (fieldnames values : list string) (col : option string) : string :=
  match col with
  | Some c => Text.strip (default "" (row_get fieldnames values c))
  | None => ""
  end.

(** [', '.join(parts)] *)
Fixpoint join_comma (parts : list string) : string :=
  match parts with
  | [] => ""
  | [p] => p
  | p :: rest => p +:+ ", " +:+ join_comma rest
  end.

(** Lines 413-420: the active flag of a CSV row. *)
Definition csv_active `{Runtime} (active_col : option string) (active_raw : string) : Z :=
  if bool_decide (active_col = Some "Job Status") then
    if String.eqb (str_upper active_raw) "A" then 1 else 0
  else
    if truthy active_raw then default 1 (py_int active_raw) else 1.

(** Lines 406-434: the loop over the data rows. *)
Fixpoint sync_csv_rows `{Runtime} (fieldnames : list string)
    (job_code_col job_name_col : string) (customer_col active_col source_col : option string)
    (now : string) (rows : list (list string)) (synced : Z) : prog Z :=
  match rows with
  | [] => mret synced
  | values :: rows' =>
      let job_code := cell fieldnames values (Some job_code_col) in
      if negb (truthy job_code) then
        sync_csv_rows fieldnames job_code_col job_name_col customer_col active_col source_col
          now rows' synced
      else
        let job_name := cell fieldnames values (Some job_name_col) in
        let customer := cell fieldnames values customer_col in
        let active := csv_active active_col (cell fieldnames values active_col) in
        let source_text := cell fieldnames values source_col in
        let source_updated_at := if truthy source_text then Some source_text else None in
        _ ← execute (upsert_job_cache_row job_code job_name customer active
                       source_updated_at now);
        sync_csv_rows fieldnames job_code_col job_name_col customer_col active_col source_col
          now rows' (synced + 1)
  end.

(** Lines 463-480: the loop over the rows of the remote query. *)
Fixpoint sync_odbc_rows (now : string) (rows : list odbc_row) : prog unit :=
  match rows with
  | [] => mret tt
  | row :: rows' =>
      _ ← execute (upsert_job_cache_row
                     (Text.strip (or_job_code row))
                     (from_option Text.strip "" (or_job_name row))
                     (from_option Text.strip "" (or_customer row))
                     (default 1 (or_active row))
                     (or_source_updated_at row) now);
      sync_odbc_rows now rows'
  end.

(** [refresh_jobs_cache(db)]; [now] is
    [datetime.now().isoformat(timespec="seconds")]. *)
Definition refresh_jobs_cache `{Runtime} (now : string) (source : jobs_source) : prog Z :=
  match source with
  | CsvFile fieldnames rows =>
      if bool_decide (fieldnames = []) then Raise (RuntimeError "CSV is missing a header row.")
      else
        let job_code_col := first_present fieldnames ["job_code"; "Job #"; "Job#"; "Job Number"] in
        let job_name_col := first_present fieldnames ["job_name"; "Job Name"] in
        let customer_col := first_present fieldnames ["customer"; "Customer Name"] in
        let active_col := first_present fieldnames ["active"; "Job Status"] in
        let source_updated_at_col := first_present fieldnames ["source_updated_at"] in
        let missing :=
          (if job_code_col is Some _ then [] else ["job_code or Job #"]) ++
          (if job_name_col is Some _ then [] else ["job_name or Job Name"]) in
        match job_code_col, job_name_col with
        | Some code_col, Some name_col =>
            sync_csv_rows fieldnames code_col name_col customer_col active_col
              source_updated_at_col now rows 0
        | _, _ =>
            Raise (RuntimeError ("CSV missing required columns: " +:+ join_comma missing))
        end
  | RemoteQuery (inl e) => Raise e
  | RemoteQuery (inr rows) =>
      _ ← sync_odbc_rows now rows;
      mret (Z.of_nat (length rows))
  | NoSource =>
      Raise (RuntimeError
        ("No jobs source found. Set JOBS_CSV_PATH, place CSV at data/jobs.csv, "
         +:+ "or configure REMOTE_SQL_ODBC_CONNECTION_STRING."))
  end.

(** [refresh_jobs()], the handler of [/jobs/refresh]. *)
Definition refresh_jobs `{Runtime} (now : string) (source : jobs_source) : prog response :=
  try_except
    (count ← refresh_jobs_cache now source;
     _ ← perform CommitOp;
     mret (Redirect "new_ticket" "success"
             ("Jobs refresh complete. " +:+ Text.fmt_d count +:+ " rows synced.")))
    (fun exc =>
       _ ← perform RollbackOp;
       mret (Redirect "new_ticket" "error" ("Jobs refresh failed: " +:+ exn_message exc))).

(** ** Reports *)

(** ORDER BY: insertion into an ordered list, row after row. *)
Fixpoint insert_ordered {A : Type} (le : A -> A -> bool) (x : A) (l : list A) : list A :=
  match l with
  | [] => [x]
  | y :: l' => if le x y then x :: l else y :: insert_ordered le x l'
  end.

Definition order_by {A : Type} (le : A -> A -> bool) (l : list A) : list A :=
  foldr (insert_ordered le) [] l.

(** GROUP BY: the keys of the rows, each of them once. *)
Fixpoint distinct {K : Type} (eqb : K -> K -> bool) (keys : list K) : list K :=
  match keys with
  | [] => []
  | k :: keys' => k :: List.filter (fun k' => negb (eqb k' k)) (distinct eqb keys')
  end.

(** The rows of the group of a key, in the order of the table. *)
Definition group_of {K : Type} (eqb : K -> K -> bool) (key : ticket -> K) (k : K)
    (rows : list ticket) : list ticket :=
  List.filter (fun t => eqb (key t) k) rows.

(** GROUP BY with [SUM(quantity)]: a row per key, with the SUM over the rows
    of its group. *)
Definition group_sum `{Runtime} {K : Type} (eqb : K -> K -> bool) (key : ticket -> K)
    (rows : list ticket) : list (K * option double) :=
  map (fun k => (k, sql_sum (map quantity (group_of eqb key k rows))))
      (distinct eqb (map key rows)).

(** [COALESCE(SUM(t.quantity), 0)]: the SUM, or the integer 0, read as the
    number zero, when the SUM is NULL. *)
Definition coalesce_zero {K : Type} (row : K * option double) : K * double :=
  (fst row, default (Float.of_Z 0) (snd row)).

(** Two keys in sequence: the second decides among equals of the first. *)
Definition then_by (c1 c2 : comparison) : comparison :=
  match c1 with Eq => c2 | _ => c1 end.

Definition not_after (c : comparison) : bool :=
  match c with Gt => false | _ => true end.

(** Text compares byte by byte, as under SQLite's BINARY collation. *)
Definition text_compare : string -> string -> comparison := String_as_OT.compare.

(** [CASE WHEN t.direction = 'IN' THEN 1 WHEN t.direction = 'OUT' THEN 2 ELSE 3 END] *)
Definition direction_rank (d : string) : Z :=
  if String.eqb d "IN" then 1 else if String.eqb d "OUT" then 2 else 3.

(** [ORDER BY t.customer_snapshot ASC, CASE ... END, t.id DESC] *)
Definition report_compare (a b : ticket) : comparison :=
  then_by (text_compare (customer_snapshot a) (customer_snapshot b))
    (then_by (direction_rank (direction a) ?= direction_rank (direction b))
       (ticket_id b ?= ticket_id a)).

Definition report_le (a b : ticket) : bool := not_after (report_compare a b).

(** [ORDER BY t.id DESC] *)
Definition id_desc_le (a b : ticket) : bool := not_after (ticket_id b ?= ticket_id a).

(** [ORDER BY t.unit] and [ORDER BY t.material_name_snapshot, t.unit] on the
    rows of the totals. *)
Definition unit_le {A : Type} (a b : string * A) : bool :=
  not_after (text_compare (fst a) (fst b)).
Definition material_unit_le {A : Type} (a b : string * string * A) : bool :=
  not_after (then_by (text_compare (fst (fst a)) (fst (fst b)))
                     (text_compare (snd (fst a)) (snd (fst b)))).

Definition pair_eqb (a b : string * string) : bool :=
  String.eqb (fst a) (fst b) && String.eqb (snd a) (snd b).

(** The query parameters of the three report handlers. *)
Record report_args : Type := mk_report_args {
  ra_date_from : option string;
  ra_date_to : option string;
  ra_direction : option string;
  ra_job_id : option string;
  ra_material_id : option string;
  ra_offset : option string
}.

(** The values the WHERE clause is built from. *)
Record filters : Type := mk_filters {
  fl_date_from : string;
  fl_date_to : string;
  fl_direction : string;
  fl_job_id : string;
  fl_material_id : string
}.

(** A comparison of SQL values is true only when both are present. *)
Definition both {A : Type} (test : A -> A -> bool) (x y : option A) : bool :=
  match x, y with
  | Some a, Some b => test a b
  | _, _ => false
  end.

(** The WHERE clause the three handlers assemble: a condition per value that
    is present, and for the direction only when it is IN or OUT. *)
Definition where_clause `{Runtime} (fl : filters) (t : ticket) : bool :=
  (if truthy (fl_date_from fl)
   then both Z.geb (sql_date (created_at t)) (sql_date (fl_date_from fl)) else true) &&
  (if truthy (fl_date_to fl)
   then both Z.leb (sql_date (created_at t)) (sql_date (fl_date_to fl)) else true) &&
  (if direction_ok (fl_direction fl) then String.eqb (direction t) (fl_direction fl) else true) &&
  (if truthy (fl_job_id fl) then both Z.eqb (job_id t) (sql_integer (fl_job_id fl)) else true) &&
  (if truthy (fl_material_id fl)
   then both Z.eqb (material_id t) (sql_integer (fl_material_id fl)) else true).

Definition filtered `{Runtime} (fl : filters) (s : store) : list ticket :=
  List.filter (where_clause fl) (tbl_tickets s).

(** [LIMIT 20 OFFSET ?]; a negative offset counts as none. *)
Definition page_of (offset : Z) (rows : list ticket) : list ticket :=
  take 20 (drop (Z.to_nat offset) rows).

(** The three queries of [reports] and [export_reports_csv]. *)
Definition report_page `{Runtime} (fl : filters) (offset : Z) (s : store) : list ticket :=
  page_of offset (order_by report_le (filtered fl s)).
Definition totals_by_unit `{Runtime} (fl : filters) (s : store) : list (string * double) :=
  order_by unit_le (map coalesce_zero (group_sum String.eqb unit_ (filtered fl s))).
Definition totals_by_material `{Runtime} (fl : filters) (s : store)
  : list (string * string * double) :=
  order_by material_unit_le
    (map coalesce_zero
       (group_sum pair_eqb (fun t => (material_name_snapshot t, unit_ t)) (filtered fl s))).
Definition export_tickets `{Runtime} (fl : filters) (s : store) : list ticket :=
  take 1000 (order_by id_desc_le (filtered fl s)).

(** Lines 721-725 and 825-829: the values read from the query string. *)
Definition request_filters `{Runtime} (args : report_args) : filters :=
  {| fl_date_from := Text.strip (get_or_empty (ra_date_from args));
     fl_date_to := Text.strip (get_or_empty (ra_date_to args));
     fl_direction := str_upper (Text.strip (get_or_empty (ra_direction args)));
     fl_job_id := Text.strip (get_or_empty (ra_job_id args));
     fl_material_id := Text.strip (get_or_empty (ra_material_id args)) |}.

(** Lines 727-729: without a date, the last 14 days through today.
    [today_first] and [today_second] are the days of the two readings
    [datetime.now().date()]. *)
Definition with_default_window `{Runtime} (today_first today_second : Z) (fl : filters)
  : filters :=
  if negb (truthy (fl_date_from fl)) && negb (truthy (fl_date_to fl)) then
    {| fl_date_from := date_isoformat (today_second - 14);
       fl_date_to := date_isoformat today_first;
       fl_direction := fl_direction fl; fl_job_id := fl_job_id fl;
       fl_material_id := fl_material_id fl |}
  else fl.

(** Line 726: [int(request.args.get("offset", 0))]. *)
Definition request_offset `{Runtime} (args : report_args) : option Z :=
  match ra_offset args with
  | Some text => py_int text
  | None => Some 0
  end.

(** What [reports] hands to its template. *)
Record report_view : Type := mk_report_view {
  rv_tickets : list ticket;
  rv_offset : Z;
  rv_totals_by_unit : list (string * double);
  rv_totals_by_material : list (string * string * double);
  rv_filters : filters
}.

(** [reports()]. The lists of jobs and materials that fill the form of the
    page are left out. *)
Definition reports `{Runtime} (today_first today_second : Z) (args : report_args)
  : prog report_view :=
  match request_offset args with
  | None => Raise (ValueError "invalid literal for int() with base 10")
  | Some offset =>
      let fl := with_default_window today_first today_second (request_filters args) in
      tickets ← select (report_page fl offset);
      by_unit ← select (totals_by_unit fl);
      by_material ← select (totals_by_material fl);
      mret {| rv_tickets := tickets; rv_offset := offset;
              rv_totals_by_unit := by_unit; rv_totals_by_material := by_material;
              rv_filters := fl |}
  end.

(** What [export_reports_csv] writes, before its formatting as CSV text. *)
Record export_view : Type := mk_export_view {
  ev_tickets : list ticket;
  ev_totals_by_unit : list (string * double);
  ev_totals_by_material : list (string * string * double)
}.

(** [export_reports_csv()] *)
Definition export_reports_csv `{Runtime} (args : report_args) : prog export_view :=
  let fl := request_filters args in
  tickets ← select (export_tickets fl);
  by_unit ← select (totals_by_unit fl);
  by_material ← select (totals_by_material fl);
  mret {| ev_tickets := tickets; ev_totals_by_unit := by_unit;
          ev_totals_by_material := by_material |}.

(** The CASE of [print_reports] has no ELSE: a direction other than IN and OUT
    yields NULL, which SQLite orders before every number. *)
Definition print_direction_rank (d : string) : Z :=
  if String.eqb d "IN" then 1 else if String.eqb d "OUT" then 2 else 0.

Definition print_le (a b : ticket) : bool :=
  not_after
    (then_by (text_compare (customer_snapshot a) (customer_snapshot b))
       (then_by (print_direction_rank (direction a) ?= print_direction_rank (direction b))
          (ticket_id b ?= ticket_id a))).

(** Lines 961-965: the values [print_reports] reads from the query string. *)
Definition raw_filters (args : report_args) : filters :=
  {| fl_date_from := get_or_empty (ra_date_from args);
     fl_date_to := get_or_empty (ra_date_to args);
     fl_direction := get_or_empty (ra_direction args);
     fl_job_id := get_or_empty (ra_job_id args);
     fl_material_id := get_or_empty (ra_material_id args) |}.

(** The conditions of the WHERE clause that are not on the date. *)
Definition where_undated `{Runtime} (fl : filters) (t : ticket) : bool :=
  (if direction_ok (fl_direction fl) then String.eqb (direction t) (fl_direction fl) else true) &&
  (if truthy (fl_job_id fl) then both Z.eqb (job_id t) (sql_integer (fl_job_id fl)) else true) &&
  (if truthy (fl_material_id fl)
   then both Z.eqb (material_id t) (sql_integer (fl_material_id fl)) else true).

(** What [print_reports] hands to [report_to_pdf_bytes]: its totals are the
    SUMs as they come, NULL included. *)
Record print_view : Type := mk_print_view {
  pv_tickets : list ticket;
  pv_totals_by_unit : list (string * option double);
  pv_totals_by_material : list (string * string * option double)
}.

(** [print_reports()], up to the rendering of the document: the arguments are
    taken as they come and every selected ticket is listed. The totals have
    no ORDER BY; SQLite, which groups by sorting the rows on the key, gives
    them in the order of their keys. *)
Definition print_reports `{Runtime} (args : report_args) : prog print_view :=
  let fl := raw_filters args in
  tickets ← select (fun s => order_by print_le (filtered fl s));
  by_unit ← select (fun s => order_by unit_le (group_sum String.eqb unit_ (filtered fl s)));
  by_material ← select (fun s =>
                   order_by material_unit_le
                     (group_sum pair_eqb (fun t => (material_name_snapshot t, unit_ t))
                        (filtered fl s)));
  mret {| pv_tickets := tickets; pv_totals_by_unit := by_unit;
          pv_totals_by_material := by_material |}.

(** The sum of rationals, every addition exact. *)
Fixpoint exact_sum (l : list Q) : Q :=
  match l with
  | [] => 0%Q
  | q :: l' => (q + exact_sum l')%Q
  end.

(** A yard with four tickets of 2025, the first older than the others, seen
    on the first of March 2025. *)
Module Yard.

Definition yard_ticket (id : Z) (dir created customer material : string)
    (q : double) (unit_text : string) : ticket :=
  {| ticket_id := id;
     ticket_number := format_ticket_number 2025 id;
     ticket_year := 2025; ticket_sequence := id;
     direction := dir; created_at := created;
     job_id := None; job_code_snapshot := "J100"; job_name_snapshot := "Main St";
     customer_snapshot := customer;
     truck_id := None; truck_number_snapshot := "T12";
     material_id := None; material_name_snapshot := material;
     quantity := q; unit_ := unit_text; notes := "";
     pdf_path := ""; pdf_blob := "" |}.

Definition tickets : list ticket :=
  [ yard_ticket 1 "IN" "2025-01-05T09:00:00" "Acme" "Gravel" (Float.of_Z 10) "Ton";
    yard_ticket 2 "OUT" "2025-02-20T09:00:00" "Acme" "Sand" (Reference.decimal 25 1) "Ton";
    yard_ticket 3 "IN" "2025-02-25T09:00:00" "Acme" "Gravel" (Float.of_Z 4) "Ton";
    yard_ticket 4 "OUT" "2025-02-27T09:00:00" "Baker" "Gravel" (Float.of_Z 1) "Load" ].

Definition yard : database :=
  {| db_store :=
       {| tbl_ticket_sequence := {[ 2025 := 4 ]}; tbl_tickets := tickets;
          tbl_jobs_cache := []; tbl_trucks := []; tbl_materials := [] |};
     db_writer := None |}.

(** Three tickets of the last days, of 0.1 Load, 0.2 Ton and 0.3 Ton. *)
Definition tenths : database :=
  {| db_store :=
       {| tbl_ticket_sequence := {[ 2025 := 3 ]};
          tbl_tickets :=
            [ yard_ticket 1 "IN" "2025-02-20T09:00:00" "Acme" "Gravel"
                (Reference.decimal 1 1) "Load";
              yard_ticket 2 "IN" "2025-02-25T09:00:00" "Acme" "Sand"
                (Reference.decimal 2 1) "Ton";
              yard_ticket 3 "IN" "2025-02-27T09:00:00" "Acme" "Sand"
                (Reference.decimal 3 1) "Ton" ];
          tbl_jobs_cache := []; tbl_trucks := []; tbl_materials := [] |};
     db_writer := None |}.

(** The day 2025-03-01. *)
Definition today : Z := 739311.

Definition no_filter : report_args :=
  {| ra_date_from := None; ra_date_to := None; ra_direction := None;
     ra_job_id := None; ra_material_id := None; ra_offset := None |}.

Definition since_february : report_args :=
  {| ra_date_from := Some "2025-02-01"; ra_date_to := None; ra_direction := None;
     ra_job_id := None; ra_material_id := None; ra_offset := None |}.

End Yard.

(** [first_cut sep s before after]: [sep] occurs in [s] between [before] and
    [after], and nowhere further to the left. *)
Definition first_cut (sep s before after : string) : Prop :=
  s = before +:+ sep +:+ after /\
  forall p q, s = p +:+ sep +:+ q -> (String.length before <= String.length p)%nat.

(** The same query with another [offset] parameter. *)
Definition with_offset (args : report_args) (offset : option string) : report_args :=
  {| ra_date_from := ra_date_from args; ra_date_to := ra_date_to args;
     ra_direction := ra_direction args; ra_job_id := ra_job_id args;
     ra_material_id := ra_material_id args; ra_offset := offset |}.

(** A depot whose cache knows one job, one truck and two materials, the
    second of them deactivated; and a request that selects them by id. *)
Module Depot.

Definition depot : database :=
  {| db_store :=
       {| tbl_ticket_sequence := ∅; tbl_tickets := [];
          tbl_jobs_cache :=
            [ {| jc_id := 1; jc_job_code := "J100"; jc_job_name := "Main St";
                 jc_customer := "  Acme Paving "; jc_active := 1;
                 jc_source_updated_at := None;
                 jc_refreshed_at := "2025-02-01T08:00:00" |} ];
          tbl_trucks := [ {| tr_id := 1; tr_truck_number := "T12"; tr_active := 1 |} ];
          tbl_materials :=
            [ {| ma_id := 1; ma_material_name := "Gravel"; ma_active := 1 |};
              {| ma_id := 2; ma_material_name := "Sand"; ma_active := 0 |} ] |};
     db_writer := None |}.

(** The same file while connection 7 holds the write lock. *)
Definition locked_depot : database :=
  {| db_store := db_store depot; db_writer := Some 7%nat |}.

Definition selected_form : form :=
  {| fm_direction := Some " out ";
     fm_job_id := Some "1"; fm_job_entry := Some "typed job";
     fm_truck_id := Some "1"; fm_truck_entry := Some "typed truck";
     fm_material_id := Some "2"; fm_material_entry := Some "typed material";
     fm_customer := None;
     fm_quantity := Some "2"; fm_unit := None;
     fm_notes := Some " rear gate "; fm_auto_print := Some "on";
     fm_use_now := Some "on"; fm_custom_datetime := None |}.

(** The same request with a quantity that is no number. *)
Definition form_with_bad_quantity : form :=
  {| fm_direction := Some "IN";
     fm_job_id := Some "1"; fm_job_entry := Some "typed job";
     fm_truck_id := None; fm_truck_entry := Some "T12";
     fm_material_id := None; fm_material_entry := Some "Gravel";
     fm_customer := None;
     fm_quantity := Some "a lot"; fm_unit := None;
     fm_notes := None; fm_auto_print := None;
     fm_use_now := Some "on"; fm_custom_datetime := None |}.

End Depot.

(** ** The stored document *)

(** What [send_file] is given: the bytes and the name of the download. *)
Inductive download : Type :=
| Attachment (content : string) (download_name : string).

(** [SELECT ... FROM tickets WHERE id = ?] with [fetchone()] *)
Definition ticket_by_id (id : Z) (s : store) : option ticket :=
  find (fun t => ticket_id t =? id) (tbl_tickets s).

(** [ticket_pdf(ticket_id)] *)
Definition ticket_pdf (id : Z) : prog (response + download) :=
  row ← select (ticket_by_id id);
  match row with
  | None => mret (inl (Redirect "search_tickets" "error" "Ticket not found."))
  | Some t => mret (inr (Attachment (pdf_blob t) (ticket_number t +:+ ".pdf")))
  end.

(** ** What a synchronisation merges *)

(** The values of one upsert. *)
Record job_values : Type := mk_job_values {
  jv_job_code : string;
  jv_job_name : string;
  jv_customer : string;
  jv_active : Z;
  jv_source_updated_at : option string
}.

(** The tables after the upsert of [v] at the time [now]. *)
Definition upsert_values (now : string) (s : store) (v : job_values) : store :=
  match upsert_job_cache_row (jv_job_code v) (jv_job_name v) (jv_customer v) (jv_active v)
          (jv_source_updated_at v) now s with
  | inr s' => s'
  | inl _ => s
  end.

(** The values the loop of lines 406-434 upserts for a data row: none for a
    row whose job code is blank. *)
Definition csv_row_values `{Runtime} (fieldnames : list string)
    (job_code_col job_name_col : string) (customer_col active_col source_col : option string)
    (values : list string) : option job_values :=
  let job_code := cell fieldnames values (Some job_code_col) in
  if negb (truthy job_code) then None
  else
    let source_text := cell fieldnames values source_col in
    Some {| jv_job_code := job_code;
            jv_job_name := cell fieldnames values (Some job_name_col);
            jv_customer := cell fieldnames values customer_col;
            jv_active := csv_active active_col (cell fieldnames values active_col);
            jv_source_updated_at := if truthy source_text then Some source_text else None |}.

(** The values the loop of lines 463-480 upserts for a row of the query. *)
Definition odbc_row_values (row : odbc_row) : job_values :=
  {| jv_job_code := Text.strip (or_job_code row);
     jv_job_name := from_option Text.strip "" (or_job_name row);
     jv_customer := from_option Text.strip "" (or_customer row);
     jv_active := default 1 (or_active row);
     jv_source_updated_at := or_source_updated_at row |}.

(** All the values a source makes [refresh_jobs_cache] upsert, in order, or
    the exception it raises before the first of them. *)
Definition source_values `{Runtime} (source : jobs_source) : result (list job_values) :=
  match source with
  | CsvFile fieldnames rows =>
      if bool_decide (fieldnames = []) then inl (RuntimeError "CSV is missing a header row.")
      else
        let job_code_col := first_present fieldnames ["job_code"; "Job #"; "Job#"; "Job Number"] in
        let job_name_col := first_present fieldnames ["job_name"; "Job Name"] in
        match job_code_col, job_name_col with
        | Some code_col, Some name_col =>
            inr (omap (csv_row_values fieldnames code_col name_col
                         (first_present fieldnames ["customer"; "Customer Name"])
                         (first_present fieldnames ["active"; "Job Status"])
                         (first_present fieldnames ["source_updated_at"])) rows)
        | _, _ =>
            inl (RuntimeError
                   ("CSV missing required columns: " +:+
                    join_comma ((if job_code_col is Some _ then [] else ["job_code or Job #"]) ++
                                (if job_name_col is Some _ then []
                                 else ["job_name or Job Name"]))))
        end
  | RemoteQuery (inl e) => inl e
  | RemoteQuery (inr rows) => inr (map odbc_row_values rows)
  | NoSource =>
      inl (RuntimeError
        ("No jobs source found. Set JOBS_CSV_PATH, place CSV at data/jobs.csv, "
         +:+ "or configure REMOTE_SQL_ODBC_CONNECTION_STRING."))
  end.

(** The row a cache row becomes under an upsert of its code. *)
Definition updated_by (now : string) (v : job_values) (j : job) : job :=
  {| jc_id := jc_id j; jc_job_code := jv_job_code v; jc_job_name := jv_job_name v;
     jc_customer := jv_customer v; jc_active := jv_active v;
     jc_source_updated_at := jv_source_updated_at v; jc_refreshed_at := now |}.

(** A cache row after the upserts of [vs], those of its code taking effect. *)
Definition row_merge (now : string) (vs : list job_values) (j : job) : job :=
  foldl (fun j v => if String.eqb (jc_job_code j) (jv_job_code v) then updated_by now v j else j)
        j vs.

(** The last of [vs] that carries the code [code]. *)
Definition last_with_code (code : string) (vs : list job_values) : option job_values :=
  find (fun v => String.eqb (jv_job_code v) code) (rev vs).


(** A CSV export with a status column, one blank code and one repeated code. *)
Definition jobs_file : jobs_source :=
  CsvFile ["Job #"; "Job Name"; "Customer Name"; "Job Status"]
          [ ["J100"; "Main St"; "Acme"; "A"];
            [""; "no code"; "Nobody"; "A"];
            ["J200"; "Depot"; "Baker"; "C"];
            ["J100"; "Main Street"; "Acme Paving"; "a"] ].

(** One upsert, seen from a row of the cache. *)
Definition upsert_step (now : string) (v : job_values) (j : job) : job :=
  if String.eqb (jc_job_code j) (jv_job_code v) then updated_by now v j else j.

(** The tables with another jobs cache. *)
Definition with_jobs (s : store) (jobs : list job) : store :=
  {| tbl_ticket_sequence := tbl_ticket_sequence s; tbl_tickets := tbl_tickets s;
     tbl_jobs_cache := jobs; tbl_trucks := tbl_trucks s; tbl_materials := tbl_materials s |}.




(** ** Trucks and materials *)

(** [CASE WHEN active = 1 THEN 0 ELSE 1 END] *)
Definition toggled (active : Z) : Z := if active =? 1 then 0 else 1.

(** [UPDATE materials SET active = CASE ... END WHERE id = ?] *)
Definition update_material_active (material_id_ : Z) (s : store) : result store :=
  inr {| tbl_ticket_sequence := tbl_ticket_sequence s; tbl_tickets := tbl_tickets s;
         tbl_jobs_cache := tbl_jobs_cache s; tbl_trucks := tbl_trucks s;
         tbl_materials :=
           map (fun m => if ma_id m =? material_id_
                         then {| ma_id := ma_id m; ma_material_name := ma_material_name m;
                                 ma_active := toggled (ma_active m) |}
                         else m) (tbl_materials s) |}.

(** [UPDATE trucks SET active = CASE ... END WHERE id = ?] *)
Definition update_truck_active (truck_id_ : Z) (s : store) : result store :=
  inr {| tbl_ticket_sequence := tbl_ticket_sequence s; tbl_tickets := tbl_tickets s;
         tbl_jobs_cache := tbl_jobs_cache s;
         tbl_trucks :=
           map (fun t => if tr_id t =? truck_id_
                         then {| tr_id := tr_id t; tr_truck_number := tr_truck_number t;
                                 tr_active := toggled (tr_active t) |}
                         else t) (tbl_trucks s);
         tbl_materials := tbl_materials s |}.

(** [toggle_material(material_id)]. It flashes nothing; the result is the
    endpoint it redirects to. *)
Definition toggle_material (material_id_ : Z) : prog string :=
  _ ← execute (update_material_active material_id_);
  _ ← perform CommitOp;
  mret "admin_materials".

(** [toggle_truck(truck_id)] *)
Definition toggle_truck (truck_id_ : Z) : prog string :=
  _ ← execute (update_truck_active truck_id_);
  _ ← perform CommitOp;
  mret "admin_trucks".

(** Modelled from the spec: [schema.sql] is not among the sources; the logical
    schema declares [material_name] UNIQUE, so the INSERT of a name already in
    the table raises [IntegrityError] and changes nothing.
    [INSERT INTO materials (material_name, active) VALUES (?, 1)] *)
Definition insert_material (material_name : string) (s : store) : result store :=
  if existsb (fun m => String.eqb (ma_material_name m) material_name) (tbl_materials s)
  then inl (IntegrityError "UNIQUE constraint failed: materials.material_name")
  else inr {| tbl_ticket_sequence := tbl_ticket_sequence s; tbl_tickets := tbl_tickets s;
              tbl_jobs_cache := tbl_jobs_cache s; tbl_trucks := tbl_trucks s;
              tbl_materials :=
                tbl_materials s ++
                [ {| ma_id := next_rowid (map ma_id (tbl_materials s));
                     ma_material_name := material_name; ma_active := 1 |} ] |}.

(** [ORDER BY material_name] and [ORDER BY job_code] *)
Definition material_name_le (a b : material) : bool :=
  not_after (text_compare (ma_material_name a) (ma_material_name b)).
Definition job_code_le (a b : job) : bool :=
  not_after (text_compare (jc_job_code a) (jc_job_code b)).

(** [admin_materials()]: on a POST the answer is the redirect with its
    flashed message, otherwise the rows the page lists. Only
    [sqlite3.IntegrityError] is caught. *)
Definition admin_materials (method : string) (material_name_field : option string)
  : prog (response + list material) :=
  if String.eqb method "POST" then
    let material_name := Text.strip (get_or_empty material_name_field) in
    if negb (truthy material_name) then
      mret (inl (Redirect "admin_materials" "error" "Material name is required."))
    else
      answer ← try_except
        (_ ← execute (insert_material material_name);
         _ ← perform CommitOp;
         mret (Redirect "admin_materials" "success" "Material added."))
        (fun exc =>
           match exc with
           | IntegrityError _ =>
               mret (Redirect "admin_materials" "error" "Material already exists.")
           | _ => Raise exc
           end);
      mret (inl answer)
  else
    rows ← select (fun s => order_by material_name_le (tbl_materials s));
    mret (inr rows).

(** [list_materials(db)] and [list_jobs(db)]: the rows the entry form offers.
    Of a job the query keeps the id, the code, the name and the customer. *)
Definition list_materials : prog (list material) :=
  select (fun s => order_by material_name_le
                     (List.filter (fun m => ma_active m =? 1) (tbl_materials s))).
Definition list_jobs : prog (list job) :=
  select (fun s => order_by job_code_le
                     (List.filter (fun j => jc_active j =? 1) (tbl_jobs_cache s))).

(** [print_ticket(ticket_id)]: the redirect to the search page with its
    flashed message, and the [ticket_number] argument of the redirect. *)
Definition print_ticket `{Runtime} (id : Z) : prog (response * option string) :=
  row ← select (ticket_by_id id);
  match row with
  | None => mret (Redirect "search_tickets" "error" "Ticket not found.", None)
  | Some t =>
      match print_pdf_file (pdf_path t) with
      | inr _ =>
          mret (Redirect "search_tickets" "success"
                  ("Print sent for " +:+ ticket_number t +:+ "."),
                Some (ticket_number t))
      | inl exc =>
          mret (Redirect "search_tickets" "error" ("Print failed: " +:+ exn_message exc),
                Some (ticket_number t))
      end
  end.

(** The tables after the toggle of a material, and after that of a truck. *)
Definition material_toggled (material_id_ : Z) (s : store) : store :=
  match update_material_active material_id_ s with inr s' => s' | inl _ => s end.
Definition truck_toggled (truck_id_ : Z) (s : store) : store :=
  match update_truck_active truck_id_ s with inr s' => s' | inl _ => s end.

(** A program that sends SELECT statements only. *)
Fixpoint reads_only {A : Type} (p : prog A) : Prop :=
  match p with
  | Ret _ | Raise _ => True
  | Op o k =>
      match o with Select _ => True | _ => False end /\ forall r, reads_only (k r)
  end.

(** The row of a material with another flag. *)
Definition with_active (active : Z) (m : material) : material :=
  {| ma_id := ma_id m; ma_material_name := ma_material_name m; ma_active := active |}.

(** The tickets and the counters of two states of the file are the same. *)
Definition same_tickets (d d' : database) : Prop :=
  tbl_tickets (db_store d') = tbl_tickets (db_store d) /\
  tbl_ticket_sequence (db_store d') = tbl_ticket_sequence (db_store d).

(** ** The search page *)

(** The bytes that continue a character of UTF-8, and those that start a
    character of several bytes. *)
Definition continuation (a : ascii) : bool :=
  Nat.leb 128 (nat_of_ascii a) && Nat.ltb (nat_of_ascii a) 192.
Definition leading (a : ascii) : bool := Nat.leb 192 (nat_of_ascii a).

Definition is_continuation (c : string) : bool :=
  match c with
  | String a EmptyString => continuation a
  | _ => false
  end.

(** The character that starts with the bytes [c], before the characters
    [rest]: it takes the continuation bytes that follow. *)
Fixpoint absorb (c : string) (rest : list string) : list string :=
  match rest with
  | x :: rest' => if is_continuation x then absorb (c +:+ x) rest' else c :: rest
  | [] => [c]
  end.

(** The characters of a text as SQLite reads them, each given by its bytes:
    a byte from 0xC0 on with the continuation bytes after it, or one byte. *)
Fixpoint chars (s : string) : list string :=
  match s with
  | EmptyString => []
  | String a s' =>
      if leading a then absorb (String a EmptyString) (chars s')
      else String a EmptyString :: chars s'
  end.

(** The letters [a] to [z] of ASCII taken as their upper case; any other
    character is itself. *)
Definition fold_case (c : string) : string :=
  match c with
  | String a EmptyString => String (Text.upper_char a) EmptyString
  | _ => c
  end.

(** SQLite [text LIKE pattern], without ESCAPE: [%] stands for any run of
    characters, [_] for any one character, and every other character for
    itself, upper and lower case of the ASCII letters taken as the same. *)
Fixpoint like_chars (pattern : list string) : list string -> bool :=
  match pattern with
  | [] => fun text => match text with [] => true | _ :: _ => false end
  | c :: pattern' =>
      if String.eqb c "%" then
        fix any (text : list string) : bool :=
          like_chars pattern' text ||
          match text with [] => false | _ :: text' => any text' end
      else
        fun text =>
          match text with
          | [] => false
          | x :: text' =>
              (String.eqb c "_" || String.eqb (fold_case c) (fold_case x))
              && like_chars pattern' text'
          end
  end.

Definition like (pattern text : string) : bool := like_chars (chars pattern) (chars text).




(** A text of ASCII characters only. *)
Fixpoint ascii_only (s : string) : bool :=
  match s with
  | EmptyString => true
  | String a s' => Nat.ltb (nat_of_ascii a) 128 && ascii_only s'
  end.

(** The query parameters of [search_tickets]. *)
Record search_args : Type := mk_search_args {
  sa_ticket_number : option string;
  sa_truck : option string;
  sa_job : option string;
  sa_date_from : option string;
  sa_date_to : option string
}.

(** The WHERE clause [search_tickets] assembles: a condition per parameter
    that is not blank. *)
Definition search_where `{Runtime} (args : search_args) (t : ticket) : bool :=
  let ticket_number_ := Text.strip (get_or_empty (sa_ticket_number args)) in
  let truck := Text.strip (get_or_empty (sa_truck args)) in
  let job := Text.strip (get_or_empty (sa_job args)) in
  let date_from := Text.strip (get_or_empty (sa_date_from args)) in
  let date_to := Text.strip (get_or_empty (sa_date_to args)) in
  (if truthy ticket_number_
   then like ("%" +:+ ticket_number_ +:+ "%") (ticket_number t) else true) &&
  (if truthy truck
   then like ("%" +:+ truck +:+ "%") (truck_number_snapshot t) else true) &&
  (if truthy job then like ("%" +:+ job +:+ "%") (job_code_snapshot t) else true) &&
  (if truthy date_from
   then both Z.geb (sql_date (created_at t)) (sql_date date_from) else true) &&
  (if truthy date_to
   then both Z.leb (sql_date (created_at t)) (sql_date date_to) else true).


(** [search_tickets()]: the rows handed to the template,
    [ORDER BY id DESC LIMIT 200]. *)
Definition search_tickets `{Runtime} (args : search_args) : prog (list ticket) :=
  select (fun s => take 200 (order_by id_desc_le (List.filter (search_where args)
                                                     (tbl_tickets s)))).

(** ** What every stored ticket satisfies *)

(** [keeps I p]: every statement of [p] that writes turns tables that satisfy
    [I] into tables that satisfy [I], whatever was answered to the statements
    before it. *)
Fixpoint keeps {A : Type} (I : store -> Prop) (p : prog A) : Prop :=
  match p with
  | Ret _ | Raise _ => True
  | Op o k =>
      match o with
      | Execute w => forall s s', I s -> w s = inr s' -> I s'
      | _ => True
      end /\ forall r, keeps I (k r)
  end.

(** The committed tables satisfy [I], and so do the working copy and the
    remaining statements of every connection. *)
Definition system_keeps (I : store -> Prop) (s : system) : Prop :=
  I (db_store (sys_db s)) /\
  forall i txn p, sys_threads s !! i = Some (Running txn p) ->
                  keeps I p /\ forall working, txn = Some working -> I working.

(** A ticket as [new_ticket] stores it: the direction is IN or OUT, the number
    is the rendering of the year and the sequence value of the row, the unit
    is not blank, and the quantity is a number and no NaN. *)
Definition well_formed (t : ticket) : Prop :=
  direction_ok (direction t) = true /\
  ticket_number t = format_ticket_number (ticket_year t) (ticket_sequence t) /\
  truthy (unit_ t) = true /\
  0 < ticket_id t /\
  Float.is_nan (quantity t) = false.

Definition tickets_well_formed (s : store) : Prop :=
  Forall well_formed (tbl_tickets s) /\
  List.NoDup (map ticket_id (tbl_tickets s)) /\
  List.NoDup (map ticket_number (tbl_tickets s)).

(** [returns Q p]: every value [p] may return satisfies [Q], whatever was
    answered to its statements. *)
Fixpoint returns {A : Type} (Q : A -> Prop) (p : prog A) : Prop :=
  match p with
  | Ret a => Q a
  | Raise _ => True
  | Op _ k => forall r, returns Q (k r)
  end.

(** ** Statements that cannot fail on a uniqueness constraint *)

(** What the committed tables of every state of the system satisfy. *)
Definition committed_ok (s : store) : Prop :=
  sequence_consistent s /\ tickets_well_formed s.

(** [w] applied to [s] raises no [IntegrityError] but that of a quantity
    which is no number: it does not fail on a UNIQUE constraint. *)
Definition no_conflict (w : store -> result store) (s : store) : Prop :=
  forall m, w s = inl (IntegrityError m) ->
            m = "NOT NULL constraint failed: tickets.quantity".

(** [unfailing p txn Q]: on a connection whose working copy is [txn], no
    statement of [p] is answered by an [IntegrityError] other than that of a
    quantity which is no number, and [p] returns with a
    value and a working copy that satisfy [Q]. Inside a transaction the
    statements read and write the working copy; a transaction starts from
    committed tables, of which [committed_ok] is all that is known. *)
Fixpoint unfailing {A : Type} (p : prog A) (txn : option store)
    (Q : A -> option store -> Prop) : Prop :=
  match p with
  | Ret a => Q a txn
  | Raise _ => True
  | Op o k =>
      match o in op B return (result B -> prog A) -> Prop with
      | BeginImmediate => fun k =>
          (forall e, unfailing (k (inl e)) txn Q) /\
          (txn = None -> forall s0, committed_ok s0 -> unfailing (k (inr tt)) (Some s0) Q)
      | Select q => fun k =>
          match txn with
          | Some s => unfailing (k (inr (q s))) txn Q
          | None => forall s0, committed_ok s0 -> unfailing (k (inr (q s0))) None Q
          end
      | Execute w => fun k =>
          match txn with
          | Some s =>
              no_conflict w s /\
              (forall e, w s = inl e -> unfailing (k (inl e)) (Some s) Q) /\
              (forall s', w s = inr s' -> unfailing (k (inr tt)) (Some s') Q)
          | None =>
              (forall e, unfailing (k (inl e)) None Q) /\
              forall s0, committed_ok s0 ->
                no_conflict w s0 /\
                (forall e, w s0 = inl e -> unfailing (k (inl e)) (Some s0) Q) /\
                (forall s', w s0 = inr s' -> unfailing (k (inr tt)) (Some s') Q)
          end
      | CommitOp => fun k => unfailing (k (inr tt)) None Q
      | RollbackOp => fun k => unfailing (k (inr tt)) None Q
      end k
  end.

(** ** The refresh at startup *)

(** [refresh_jobs_on_startup()]. [auto_refresh] is the value of the
    environment variable [AUTO_REFRESH_JOBS_ON_STARTUP], [None] when it is not
    set; the result is the line written to the log. *)
Definition refresh_jobs_on_startup `{Runtime} (auto_refresh : option string) (now : string)
    (source : jobs_source) : prog string :=
  let flag := str_lower (Text.strip (default "1" auto_refresh)) in
  if negb (existsb (String.eqb flag) ["1"; "true"; "yes"; "on"]) then
    mret "Startup jobs refresh disabled by AUTO_REFRESH_JOBS_ON_STARTUP."
  else
    try_except
      (count ← refresh_jobs_cache now source;
       _ ← perform CommitOp;
       mret ("Startup jobs refresh complete. " +:+ Text.fmt_d count +:+ " rows synced."))
      (fun exc =>
         _ ← perform RollbackOp;
         mret ("Startup jobs refresh skipped/failed: " +:+ exn_message exc)).

(* ================================================================== *)
(** * Properties *)

(** ** Running programs: equations *)

Lemma run_bind {A B : Type} (me : nat) (p : prog A) (f : A -> prog B) txn d :
  run me (p ≫= f) txn d =
  let '(r, txn', d') := run me p txn d in
  match r with
  | inl e => (inl e, txn', d')
  | inr a => run me (f a) txn' d'
  end.
Proof.
  change (p ≫= f) with (bind p f).
  revert txn d. induction p as [a | e | T o k IH]; intros txn d; simpl; try reflexivity.
  destruct (do_op me o txn d) as [[r txn'] d']. apply IH.
Qed.

Lemma run_try_except {A : Type} (me : nat) (p : prog A) (h : exn -> prog A) txn d :
  run me (try_except p h) txn d =
  let '(r, txn', d') := run me p txn d in
  match r with
  | inl e => run me (h e) txn' d'
  | inr a => (inr a, txn', d')
  end.
Proof.
  revert txn d. induction p as [a | e | T o k IH]; intros txn d; simpl; try reflexivity.
  destruct (do_op me o txn d) as [[r txn'] d']. apply IH.
Qed.

Lemma run_call {A : Type} (me : nat) (r : result A) txn d :
  run me (call r) txn d = (r, txn, d).
Proof. destruct r; reflexivity. Qed.

Lemma run_next_ticket_number me year s d :
  run me (next_ticket_number year) (Some s) d =
  (inr (format_ticket_number year (last_value year s + 1), year, last_value year s + 1),
   Some (allocated year s), d).
Proof.
  unfold next_ticket_number, allocated, last_value, insert_or_ignore_sequence, update_sequence.
  destruct (tbl_ticket_sequence s !! year) as [v|] eqn:E; cbn.
  - rewrite !E. cbn. rewrite !E. reflexivity.
  - rewrite !E. cbn. rewrite !lookup_insert_eq. cbn. rewrite !lookup_insert_eq.
    rewrite insert_insert_eq. reflexivity.
Qed.

(** ** The transaction of a ticket creation *)

Section Transaction.
Context `{Runtime}.
Variables (me : nat) (clk : clock) (use_now : bool) (custom_datetime : option string)
          (direction_ : string) (sn : snapshot) (quantity_num : double)
          (unit_text notes_text : string).

Let body : prog (response + string * string) :=
  create_ticket clk use_now custom_datetime direction_ sn quantity_num unit_text notes_text.

(** Another connection holds the write lock: the creation fails at its
    first statement and leaves everything as it was. *)
Lemma run_transaction_busy d :
  locked_by_other me d = true ->
  run me body None d = (inl busy, None, d).
Proof.
  intros L. unfold body, create_ticket, create_in_transaction, rollback_and_raise.
  cbn. rewrite L. cbn. unfold release.
  unfold locked_by_other in L.
  destruct (db_writer d) as [w|]; [|discriminate].
  destruct (Nat.eqb w me); [discriminate | reflexivity].
Qed.

(** With the lock available, the body runs as follows. *)
Lemma run_transaction_free d :
  locked_by_other me d = false ->
  let s0 := db_store d in
  let year := now_year clk in
  let seq := last_value year s0 + 1 in
  let number := format_ticket_number year seq in
  let unlocked := {| db_store := s0; db_writer := None |} in
  run me body None d =
  match choose_created_at clk use_now custom_datetime with
  | inl early =>
      (inr (inl early), Some (allocated year s0), {| db_store := s0; db_writer := Some me |})
  | inr created =>
      match to_pdf_bytes (pdf_row_of number created direction_ sn
                            quantity_num unit_text notes_text) with
      | inl e => (inl e, None, unlocked)
      | inr pdf_bytes =>
          match save_pdf number pdf_bytes with
          | inl e => (inl e, None, unlocked)
          | inr path =>
              match insert_ticket (ticket_of number year seq created direction_ sn
                                     quantity_num unit_text notes_text path pdf_bytes)
                                  (allocated year s0) with
              | inl e => (inl e, None, unlocked)
              | inr s2 => (inr (inr (number, path)), None, {| db_store := s2; db_writer := None |})
              end
          end
      end
  end.
Proof.
  intros L. cbv zeta. unfold body, create_ticket. rewrite run_try_except.
  unfold create_in_transaction.
  rewrite run_bind. cbn [run perform do_op]. rewrite L. cbn [run].
  rewrite run_bind, run_next_ticket_number.
  destruct (choose_created_at clk use_now custom_datetime) as [early|created]; [reflexivity|].
  rewrite run_bind, run_call.
  destruct (to_pdf_bytes _) as [e|pdf_bytes].
  { cbn. unfold release. cbn. rewrite Nat.eqb_refl. reflexivity. }
  rewrite run_bind, run_call.
  destruct (save_pdf _ _) as [e|path].
  { cbn. unfold release. cbn. rewrite Nat.eqb_refl. reflexivity. }
  rewrite run_bind. cbn [run execute perform do_op].
  destruct (insert_ticket _ _) as [e|s2]; cbn [run].
  { cbn. unfold release. cbn. rewrite Nat.eqb_refl. reflexivity. }
  reflexivity.
Qed.

End Transaction.

(** ** Every run of [new_ticket] ends in one of the four outcomes *)

Lemma job_snapshot_pure (job_row : option job) (job_entry customer : string) :
  (exists a, job_snapshot job_row job_entry customer = Ret a) \/
  (exists e, job_snapshot job_row job_entry customer = Raise e).
Proof.
  unfold job_snapshot. destruct job_row as [j|]; [left; eexists; reflexivity|].
  destruct (Text.contains " - " job_entry); [|left; eexists; reflexivity].
  destruct (map Text.strip (Text.split1 " - " job_entry)) as [|a [|b [|c l]]];
    try (right; eexists; reflexivity).
  left; eexists; reflexivity.
Qed.

Lemma run_lookup {A : Type} (me : nat) (cond : bool) (q : store -> option A) (d : database) :
  run me (if cond then select q else mret None) None d =
  (inr (if cond then q (db_store d) else None), None, d).
Proof. destruct cond; reflexivity. Qed.

Lemma unlocked_eq (d : database) :
  db_writer d = None -> {| db_store := db_store d; db_writer := None |} = d.
Proof. destruct d as [s w]; simpl; intros ->; reflexivity. Qed.

Lemma locked_by_other_cases (me : nat) (d : database) :
  db_writer d <> Some me ->
  (locked_by_other me d = true) \/ (locked_by_other me d = false /\ db_writer d = None).
Proof.
  unfold locked_by_other. destruct (db_writer d) as [w|]; [|auto].
  intros N. destruct (Nat.eqb_spec w me) as [->|]; [congruence | auto].
Qed.

Lemma new_ticket_outcomes `{Runtime} (me : nat) (clk : clock) (f : form) (d : database) :
  db_writer d <> Some me ->
  let '(r, txn', d') := run me (new_ticket clk f) None d in
  new_ticket_outcome me clk f d r txn' d'.
Proof.
  intros W. unfold new_ticket. cbv zeta.
  destruct (direction_ok (fd_direction (read_form f))) eqn:Edir; cbn [negb];
    [|apply nt_rejected].
  destruct (required_present (read_form f)) eqn:Ereq; cbn [negb];
    [|apply nt_rejected].
  rewrite run_bind, run_lookup.
  rewrite run_bind, run_lookup.
  rewrite run_bind, run_lookup.
  rewrite run_bind.
  fold (job_row_of f d) (truck_row_of f d) (material_row_of f d).
  destruct (job_snapshot_pure (job_row_of f d) (fd_job_entry (read_form f))
              (fd_customer (read_form f))) as [[job_part Ejob]|[e Ejob]];
    rewrite Ejob; cbn [run]; [|apply nt_raised].
  destruct (py_float (fd_quantity (read_form f))) as [q|] eqn:Eq; [|apply nt_rejected].
  rewrite run_bind.
  destruct (locked_by_other_cases me d W) as [L|[L Wn]].
  { rewrite run_transaction_busy by exact L. apply nt_raised. }
  rewrite run_transaction_free by exact L.
  destruct (choose_created_at _ _ _) as [early|created] eqn:Ecreated.
  { cbn [run]. apply nt_left_open; assumption. }
  destruct (to_pdf_bytes _) as [e|pdf_bytes] eqn:Epdf.
  { rewrite unlocked_eq by exact Wn. apply nt_raised. }
  destruct (save_pdf _ _) as [e|path] eqn:Esave.
  { rewrite unlocked_eq by exact Wn. apply nt_raised. }
  destruct (insert_ticket _ _) as [e|s2] eqn:Eins.
  { rewrite unlocked_eq by exact Wn. apply nt_raised. }
  cbn [run]. eapply nt_created; eassumption.
Qed.

(** ** Facts about the text helpers *)

Lemma append_nil (q : string) : EmptyString +:+ q = q.
Proof. reflexivity. Qed.

Lemma append_cons (c : ascii) (a q : string) : String c a +:+ q = String c (a +:+ q).
Proof. reflexivity. Qed.

Lemma prefix_spec (a s : string) :
  String.prefix a s = true <-> exists q, s = a +:+ q.
Proof.
  revert s. induction a as [|c a IH]; intros s.
  - destruct s; split; simpl; eauto.
  - destruct s as [|c' s]; simpl.
    + split; [discriminate | intros [q Hq]; rewrite append_cons in Hq; discriminate].
    + destruct (ascii_dec c c') as [->|N].
      * rewrite IH. split; intros [q Hq]; exists q; rewrite append_cons in *; congruence.
      * split; [discriminate | intros [q Hq]; rewrite append_cons in Hq; congruence].
Qed.

Lemma prefix_drop (a s : string) :
  String.prefix a s = true -> s = a +:+ Text.drop_chars (String.length a) s.
Proof.
  revert s. induction a as [|c a IH]; intros s.
  - destruct s; reflexivity.
  - destruct s as [|c' s]; simpl; [discriminate|].
    destruct (ascii_dec c c') as [->|N]; [|discriminate].
    intros P. rewrite append_cons. f_equal. apply IH, P.
Qed.

Lemma contains_spec (sep s : string) :
  Text.contains sep s = true <-> exists p q, s = p +:+ sep +:+ q.
Proof.
  induction s as [|c s IH]; cbn [Text.contains].
  - rewrite orb_false_r, prefix_spec. split.
    + intros [q Hq]. exists EmptyString, q. exact Hq.
    + intros [p [q Hq]]. destruct p; [exists q; exact Hq | rewrite append_cons in Hq; discriminate].
  - rewrite orb_true_iff, prefix_spec, IH. split.
    + intros [[q Hq]|[p [q Hq]]].
      * exists EmptyString, q. exact Hq.
      * exists (String c p), q. rewrite append_cons. congruence.
    + intros [p [q Hq]]. destruct p as [|c' p].
      * left. exists q. exact Hq.
      * right. exists p, q. rewrite append_cons in Hq. congruence.
Qed.

Lemma split1_absent (sep s : string) :
  Text.contains sep s = false -> Text.split1 sep s = [s].
Proof.
  induction s as [|c s IH]; cbn [Text.contains Text.split1]; intros C;
    apply orb_false_iff in C as [P C]; rewrite P.
  - reflexivity.
  - rewrite (IH C). reflexivity.
Qed.

Lemma split1_present (sep s : string) :
  Text.contains sep s = true ->
  exists before after, Text.split1 sep s = [before; after] /\ first_cut sep s before after.
Proof.
  induction s as [|c s IH]; cbn [Text.contains Text.split1]; intros C.
  - rewrite orb_false_r in C. rewrite C.
    exists EmptyString, (Text.drop_chars (String.length sep) EmptyString).
    split; [reflexivity|]. split; [apply (prefix_drop _ _ C) | intros; simpl; lia].
  - destruct (String.prefix sep (String c s)) eqn:P.
    + exists EmptyString, (Text.drop_chars (String.length sep) (String c s)).
      split; [reflexivity|]. split; [apply (prefix_drop _ _ P) | intros; simpl; lia].
    + simpl in C. destruct (IH C) as [a [b [E [Hs Hmin]]]]. rewrite E.
      exists (String c a), b. split; [reflexivity|]. split.
      * rewrite append_cons. congruence.
      * intros p q Hq. destruct p as [|c' p].
        -- assert (String.prefix sep (String c s) = true) by (apply prefix_spec; eauto).
           congruence.
        -- rewrite append_cons in Hq. injection Hq as -> Hq. simpl.
           apply le_n_S, (Hmin p q Hq).
Qed.

(** ** Trimming *)

Lemma string_app_assoc (a b c : string) : (a +:+ b) +:+ c = a +:+ (b +:+ c).
Proof. induction a as [|x a IH]; [reflexivity|]. rewrite !append_cons, IH. reflexivity. Qed.

Lemma string_app_nil_r (a : string) : a +:+ "" = a.
Proof. induction a as [|x a IH]; [reflexivity|]. rewrite append_cons, IH. reflexivity. Qed.

Lemma list_ascii_of_string_app (a b : string) :
  list_ascii_of_string (a +:+ b) = list_ascii_of_string a ++ list_ascii_of_string b.
Proof. induction a as [|x a IH]; [reflexivity|]. rewrite append_cons. cbn. rewrite IH. reflexivity. Qed.

Lemma string_of_list_ascii_app (a b : list ascii) :
  string_of_list_ascii (a ++ b) = string_of_list_ascii a +:+ string_of_list_ascii b.
Proof. induction a as [|x a IH]; [reflexivity|]. cbn. rewrite IH. reflexivity. Qed.

Lemma reverse_app (a b : string) : Text.reverse (a +:+ b) = Text.reverse b +:+ Text.reverse a.
Proof.
  unfold Text.reverse. rewrite list_ascii_of_string_app, rev_app_distr.
  apply string_of_list_ascii_app.
Qed.

Lemma reverse_involutive (a : string) : Text.reverse (Text.reverse a) = a.
Proof.
  unfold Text.reverse. rewrite list_ascii_of_string_of_list_ascii, rev_involutive.
  apply string_of_list_ascii_of_string.
Qed.

Lemma blank_app (a b : string) : Text.blank a -> Text.blank b -> Text.blank (a +:+ b).
Proof.
  intros Ha Hb. induction Ha as [|c s Hc Hs IH]; [exact Hb|].
  rewrite string_app_assoc. apply Text.blank_cons; assumption.
Qed.

Lemma blank_one (c : string) : Text.is_space c = true -> Text.blank c.
Proof.
  intros Hc. rewrite <- (string_app_nil_r c). apply Text.blank_cons; [exact Hc | constructor].
Qed.

Section DropSpaces.
Variables (two : ascii -> ascii -> bool) (three : ascii -> ascii -> ascii -> bool).

Lemma drop_spaces_split_upto (n : nat) (s : string) :
  (String.length s <= n)%nat ->
  exists head, Text.blank_read two three head /\ s = head +:+ Text.drop_spaces two three s.
Proof.
  revert s. induction n as [|n IH]; intros s Hn.
  - destruct s; [|cbn in Hn; lia]. exists "". split; [constructor | reflexivity].
  - destruct s as [|a s1]; [exists ""; split; [constructor | reflexivity]|].
    cbn in Hn. cbn [Text.drop_spaces].
    destruct (Text.space1 a) eqn:E1.
    { destruct (IH s1 ltac:(lia)) as (h & Hb & Hs).
      exists (String a "" +:+ h). split; [apply Text.blank_read_cons; [exact E1 | exact Hb]|].
      rewrite !append_cons, append_nil. f_equal. exact Hs. }
    destruct s1 as [|b s2]; [exists ""; split; [constructor | reflexivity]|].
    cbn in Hn.
    destruct (two a b) eqn:E2.
    { destruct (IH s2 ltac:(lia)) as (h & Hb & Hs).
      exists (String a (String b "") +:+ h).
      split; [apply Text.blank_read_cons; [exact E2 | exact Hb]|].
      rewrite !append_cons, append_nil. do 2 f_equal. exact Hs. }
    destruct s2 as [|c s3]; [exists ""; split; [constructor | reflexivity]|].
    cbn in Hn.
    destruct (three a b c) eqn:E3.
    { destruct (IH s3 ltac:(lia)) as (h & Hb & Hs).
      exists (String a (String b (String c "")) +:+ h).
      split; [apply Text.blank_read_cons; [exact E3 | exact Hb]|].
      rewrite !append_cons, append_nil. do 3 f_equal. exact Hs. }
    exists "". split; [constructor | reflexivity].
Qed.

Lemma drop_spaces_split (s : string) :
  exists head, Text.blank_read two three head /\ s = head +:+ Text.drop_spaces two three s.
Proof. exact (drop_spaces_split_upto (String.length s) s (le_n _)). Qed.

Lemma drop_spaces_head_upto (n : nat) (s c rest : string) :
  (String.length s <= n)%nat ->
  Text.space_read two three c = true -> Text.drop_spaces two three s <> c +:+ rest.
Proof.
  revert s. induction n as [|n IH]; intros s Hn Hc.
  - destruct s; [|cbn in Hn; lia]. cbn. destruct c; [discriminate Hc | discriminate].
  - destruct s as [|a s1]; [cbn; destruct c; [discriminate Hc | discriminate]|].
    cbn in Hn. cbn [Text.drop_spaces].
    destruct (Text.space1 a) eqn:E1; [apply IH; [lia | exact Hc]|].
    destruct s1 as [|b s2].
    { destruct c as [|x [|y [|z [|w c]]]]; cbn in Hc; try discriminate Hc;
        rewrite ?append_cons, ?append_nil; intros E; injection E; intros; subst; congruence. }
    cbn in Hn.
    destruct (two a b) eqn:E2; [apply IH; [lia | exact Hc]|].
    destruct s2 as [|c3 s3].
    { destruct c as [|x [|y [|z [|w c]]]]; cbn in Hc; try discriminate Hc;
        rewrite ?append_cons, ?append_nil; intros E; injection E; intros; subst; congruence. }
    cbn in Hn.
    destruct (three a b c3) eqn:E3; [apply IH; [lia | exact Hc]|].
    destruct c as [|x [|y [|z [|w c]]]]; cbn in Hc; try discriminate Hc;
      rewrite ?append_cons, ?append_nil; intros E; injection E; intros; subst; congruence.
Qed.

Lemma drop_spaces_head (s c rest : string) :
  Text.space_read two three c = true -> Text.drop_spaces two three s <> c +:+ rest.
Proof. exact (drop_spaces_head_upto (String.length s) s c rest (le_n _)). Qed.

End DropSpaces.

Lemma space2_first (a b : ascii) : Text.space2 a b = true -> nat_of_ascii a = 194%nat.
Proof. unfold Text.space2. intros H. apply andb_prop in H as [H _]. apply Nat.eqb_eq, H. Qed.

Lemma space3_first (a b c : ascii) :
  Text.space3 a b c = true ->
  nat_of_ascii a = 225%nat \/ nat_of_ascii a = 226%nat \/ nat_of_ascii a = 227%nat.
Proof.
  unfold Text.space3. cbv zeta. intros H.
  repeat (apply orb_prop in H as [H|H]);
    apply andb_prop in H as [H _]; apply andb_prop in H as [H _]; apply Nat.eqb_eq in H; auto.
Qed.

Lemma lstrip_blank (s : string) : Text.blank s -> Text.lstrip s = "".
Proof.
  unfold Text.lstrip. induction 1 as [|c s Hc Hs IH]; [reflexivity|].
  destruct c as [|x [|y [|z [|w c]]]]; cbn in Hc; try discriminate Hc;
    rewrite ?append_cons, ?append_nil; cbn [Text.drop_spaces].
  - rewrite Hc. exact IH.
  - assert (Text.space1 x = false) as ->
      by (unfold Text.space1; rewrite (space2_first x y Hc); reflexivity).
    rewrite Hc. exact IH.
  - assert (Text.space1 x = false) as ->
      by (unfold Text.space1; destruct (space3_first x y z Hc) as [E|[E|E]]; rewrite E;
          reflexivity).
    assert (Text.space2 x y = false) as ->
      by (unfold Text.space2; destruct (space3_first x y z Hc) as [E|[E|E]]; rewrite E;
          reflexivity).
    rewrite Hc. exact IH.
Qed.

(** [s.strip()] is [s] trimmed. *)
Lemma strip_trimmed (s : string) : Text.trimmed s (Text.strip s).
Proof.
  unfold Text.strip, Text.rstrip.
  destruct (drop_spaces_split Text.space2 Text.space3 s) as (h1 & B1 & E1).
  fold (Text.lstrip s) in E1 |- *.
  set (two := fun b a => Text.space2 a b). set (three := fun c b a => Text.space3 a b c).
  destruct (drop_spaces_split two three (Text.reverse (Text.lstrip s))) as (h2 & B2 & E2).
  set (D := Text.drop_spaces two three (Text.reverse (Text.lstrip s))) in *.
  assert (Text.lstrip s = Text.reverse D +:+ Text.reverse h2) as E3.
  { rewrite <- reverse_app, <- E2, reverse_involutive. reflexivity. }
  assert (forall c, Text.space_read two three c = true -> Text.is_space (Text.reverse c) = true)
    as Hrev.
  { intros c Hc. destruct c as [|x [|y [|z [|w c]]]]; cbn in Hc; try discriminate Hc;
      exact Hc. }
  assert (forall c, Text.is_space c = true -> Text.space_read two three (Text.reverse c) = true)
    as Hrev'.
  { intros c Hc. destruct c as [|x [|y [|z [|w c]]]]; cbn in Hc; try discriminate Hc;
      exact Hc. }
  assert (forall h, Text.blank_read two three h -> Text.blank (Text.reverse h)) as Hblank.
  { induction 1 as [|c r Hc Hr IH]; [constructor|].
    rewrite reverse_app. apply blank_app; [exact IH | apply blank_one, Hrev, Hc]. }
  assert (forall h, Text.blank_read Text.space2 Text.space3 h -> Text.blank h) as Hblank1.
  { induction 1 as [|c r Hc Hr IH]; [constructor|].
    apply Text.blank_cons; [|exact IH].
    destruct c as [|x [|y [|z [|w c]]]]; cbn in Hc; try discriminate Hc; exact Hc. }
  split; [|split].
  - exists h1, (Text.reverse h2).
    split; [apply Hblank1, B1|]. split; [apply Hblank, B2|].
    rewrite <- E3. exact E1.
  - intros c rest Hc E.
    apply (drop_spaces_head Text.space2 Text.space3 s c (rest +:+ Text.reverse h2)).
    + destruct c as [|x [|y [|z [|w c]]]]; cbn in Hc; try discriminate Hc; exact Hc.
    + fold (Text.lstrip s). rewrite E3, E. apply string_app_assoc.
  - intros c rest Hc E.
    apply (drop_spaces_head two three (Text.reverse (Text.lstrip s)) (Text.reverse c)
             (Text.reverse rest)); [apply Hrev', Hc|].
    fold D. rewrite <- reverse_app, <- E. symmetry. apply reverse_involutive.
Qed.

Lemma strip_blank (s : string) : Text.blank s -> Text.strip s = "".
Proof. intros Hs. unfold Text.strip. rewrite (lstrip_blank s Hs). reflexivity. Qed.

Lemma strip_empty_blank (s : string) : Text.strip s = "" -> Text.blank s.
Proof.
  intros E. destruct (strip_trimmed s) as ((h & t & Hh & Ht & Es) & _).
  rewrite E in Es. rewrite Es. apply blank_app; assumption.
Qed.

(** ** Facts about the INSERT *)

Lemma insert_ticket_inr (t : ticket) (s s2 : store) :
  insert_ticket t s = inr s2 ->
  tbl_tickets s2 = tbl_tickets s ++ [with_id (next_rowid (map ticket_id (tbl_tickets s))) t]
  /\ tbl_ticket_sequence s2 = tbl_ticket_sequence s
  /\ tbl_jobs_cache s2 = tbl_jobs_cache s
  /\ tbl_trucks s2 = tbl_trucks s
  /\ tbl_materials s2 = tbl_materials s.
Proof.
  unfold insert_ticket. destruct (Float.is_nan _); [discriminate|].
  destruct (existsb _ _); [discriminate|].
  intros [= <-]. simpl. auto.
Qed.

Lemma insert_ticket_is_number (t : ticket) (s s2 : store) :
  insert_ticket t s = inr s2 -> Float.is_nan (quantity t) = false.
Proof. unfold insert_ticket. destruct (Float.is_nan _); [discriminate | reflexivity]. Qed.

Lemma app_singleton_neq {A : Type} (l : list A) (x : A) : l ++ [x] <> l.
Proof.
  intros E. apply (f_equal (@length A)) in E. rewrite length_app in E. simpl in E. lia.
Qed.

Lemma last_value_allocated (year y : Z) (s : store) :
  last_value y (allocated year s)
  = if decide (year = y) then last_value year s + 1 else last_value y s.
Proof.
  unfold last_value, allocated. simpl. rewrite lookup_insert.
  destruct (decide (year = y)); reflexivity.
Qed.

(** A run that changes the [tickets] table is a run that committed one
    creation; everything about the new row is then known. *)
Lemma new_ticket_committed `{Runtime} (me : nat) (clk : clock) (f : form) (d : database)
    (r : result response) (txn' : option store) (d' : database) :
  db_writer d <> Some me ->
  run me (new_ticket clk f) None d = (r, txn', d') ->
  tbl_tickets (db_store d') <> tbl_tickets (db_store d) ->
  exists job_part q created pdf_bytes path,
    let v := read_form f in
    let sn := snapshot_of v job_part (truck_row_of f d) (material_row_of f d) in
    let year := now_year clk in
    let seq := last_value year (db_store d) + 1 in
    let number := format_ticket_number year seq in
    let t := with_id (next_rowid (map ticket_id (tbl_tickets (db_store d))))
               (ticket_of number year seq created (fd_direction v) sn q
                  (fd_unit v) (fd_notes v) path pdf_bytes) in
    direction_ok (fd_direction v) = true /\
    required_present v = true /\
    job_snapshot (job_row_of f d) (fd_job_entry v) (fd_customer v) = Ret job_part /\
    py_float (fd_quantity v) = Some q /\
    choose_created_at clk (fd_use_now v) (fd_custom_datetime v) = inr created /\
    to_pdf_bytes (pdf_row_of number created (fd_direction v) sn q (fd_unit v) (fd_notes v))
      = inr pdf_bytes /\
    save_pdf number pdf_bytes = inr path /\
    r = inr (after_commit (fd_auto_print v) number path) /\
    txn' = None /\ db_writer d' = None /\
    tbl_tickets (db_store d') = tbl_tickets (db_store d) ++ [t] /\
    tbl_ticket_sequence (db_store d')
      = <[year := seq]> (tbl_ticket_sequence (db_store d)) /\
    Float.is_nan q = false.
Proof.
  intros W R Hne. pose proof (new_ticket_outcomes me clk f d W) as O.
  rewrite R in O. inversion O as [m | e | early | job_part q created pdf_bytes path s2
    v sn year seq number Hd Hr Hj Hq Hc Hp Hs Hi]; subst; try (exfalso; apply Hne; reflexivity).
  pose proof (insert_ticket_is_number _ _ _ Hi) as Hnan.
  apply insert_ticket_inr in Hi as (Ht & Hseq & _).
  exists job_part, q, created, pdf_bytes, path. cbv zeta. simpl.
  repeat split; try assumption.
Qed.

(** A request that passes the checks made before the transaction runs the
    [try] statement and answers from its result. *)
Lemma run_new_ticket_valid `{Runtime} (me : nat) (clk : clock) (f : form) (d : database)
    (job_part : option Z * string * string * string) (q : double) :
  direction_ok (fd_direction (read_form f)) = true ->
  required_present (read_form f) = true ->
  job_snapshot (job_row_of f d) (fd_job_entry (read_form f)) (fd_customer (read_form f))
    = Ret job_part ->
  py_float (fd_quantity (read_form f)) = Some q ->
  run me (new_ticket clk f) None d =
  let '(o, txn', d') :=
    run me (create_ticket clk (fd_use_now (read_form f)) (fd_custom_datetime (read_form f))
              (fd_direction (read_form f))
              (snapshot_of (read_form f) job_part (truck_row_of f d) (material_row_of f d))
              q (fd_unit (read_form f)) (fd_notes (read_form f))) None d in
  match o with
  | inl e => (inl e, txn', d')
  | inr (inl early) => (inr early, txn', d')
  | inr (inr (number, path)) =>
      (inr (after_commit (fd_auto_print (read_form f)) number path), txn', d')
  end.
Proof.
  intros Hd Hr Hj Hq. unfold new_ticket. cbv zeta. rewrite Hd, Hr. cbn [negb].
  rewrite run_bind, run_lookup.
  rewrite run_bind, run_lookup.
  rewrite run_bind, run_lookup.
  rewrite run_bind.
  fold (job_row_of f d) (truck_row_of f d) (material_row_of f d).
  rewrite Hj. cbn [run]. rewrite Hq. rewrite run_bind.
  destruct (run me (create_ticket _ _ _ _ _ _ _ _) None d) as [[o txn'] d'].
  destruct o as [e|[early|[number path]]]; reflexivity.
Qed.

(** ** Required fields (C6) *)

(** C6, as amended. A request whose job text, truck text or material text
    is absent or made of white space only, or whose quantity or unit is made
    of white space only once its default is applied (an absent or empty
    quantity reads "1", an absent or empty unit "Load"), is answered by a
    validation error: the handler returns it before any statement on the
    tables, on every connection and whatever the state of the file; it
    performs no database mutation and no ticket is created. *)
Theorem blank_required_field_is_rejected `{Runtime} (clk : clock) (f : form) :
  Text.blank (get_or_empty (fm_job_entry f)) \/
  Text.blank (get_or_empty (fm_truck_entry f)) \/
  Text.blank (get_or_empty (fm_material_entry f)) \/
  Text.blank (get_or (fm_quantity f) "1") \/
  Text.blank (get_or (fm_unit f) "Load") ->
  exists m,
    new_ticket clk f = Ret (Redirect "new_ticket" "error" m) /\
    forall me d, run me (new_ticket clk f) None d = (inr (Redirect "new_ticket" "error" m), None, d).
Proof.
  intros Hblank.
  assert (fd_job_entry (read_form f) = "" \/ fd_truck_entry (read_form f) = "" \/
          fd_material_entry (read_form f) = "" \/ fd_quantity (read_form f) = "" \/
          fd_unit (read_form f) = "") as Hempty.
  { cbn [read_form fd_job_entry fd_truck_entry fd_material_entry fd_quantity fd_unit].
    destruct Hblank as [B|[B|[B|[B|B]]]]; apply strip_blank in B; auto. }
  clear Hblank. unfold new_ticket. cbv zeta.
  destruct (direction_ok (fd_direction (read_form f))); cbn [negb].
  - assert (required_present (read_form f) = false) as ->.
    { unfold required_present. cbn [forallb].
      destruct Hempty as [E|[E|[E|[E|E]]]]; rewrite E; cbn;
        rewrite ?andb_false_r; reflexivity. }
    cbn [negb]. eexists. split; [reflexivity | intros; reflexivity].
  - eexists. split; [reflexivity | intros; reflexivity].
Qed.

Lemma blank_required_field_is_rejected_witness :
  (Text.blank (get_or_empty (fm_job_entry Scenario.form_with_blank_job)) \/
   Text.blank (get_or_empty (fm_truck_entry Scenario.form_with_blank_job)) \/
   Text.blank (get_or_empty (fm_material_entry Scenario.form_with_blank_job)) \/
   Text.blank (get_or (fm_quantity Scenario.form_with_blank_job) "1") \/
   Text.blank (get_or (fm_unit Scenario.form_with_blank_job) "Load")) /\
  exists m,
    @new_ticket Reference.runtime Scenario.clock_2025 Scenario.form_with_blank_job
      = Ret (Redirect "new_ticket" "error" m) /\
    forall me d,
      run me (@new_ticket Reference.runtime Scenario.clock_2025 Scenario.form_with_blank_job) None d
      = (inr (Redirect "new_ticket" "error" m), None, d).
Proof.
  assert (Text.blank (get_or_empty (fm_job_entry Scenario.form_with_blank_job))) as B.
  { apply strip_empty_blank. reflexivity. }
  split.
  - left. exact B.
  - apply (@blank_required_field_is_rejected Reference.runtime). left. exact B.
Defined.

(** The claim as the specification words it fails: a request that carries
    neither a quantity nor a unit is not rejected; a ticket is stored with
    quantity 1 and unit "Load". *)
Lemma absent_quantity_and_unit_are_defaulted :
  fm_quantity Scenario.form_without_quantity_and_unit = None /\
  fm_unit Scenario.form_without_quantity_and_unit = None /\
  fst (serve 0 (@new_ticket Reference.runtime Scenario.clock_2025
                  Scenario.form_without_quantity_and_unit) Scenario.fresh_database)
    = inr (Redirect "new_ticket" "success" "Ticket DT-2025-000001 created.") /\
  map (fun t => (ticket_number t, quantity t, unit_ t))
      (tbl_tickets (db_store (snd (serve 0 (@new_ticket Reference.runtime Scenario.clock_2025
                  Scenario.form_without_quantity_and_unit) Scenario.fresh_database))))
    = [("DT-2025-000001", Float.of_Z 1, "Load")].
Proof. repeat split; vm_compute; reflexivity. Qed.

(** ** The timestamp check (C7) *)

(** C7. With the use-now box unchecked and a timestamp that is missing or
    does not parse, a request that passed the earlier checks is answered by a
    validation error only after [BEGIN IMMEDIATE] and the allocation ran: when
    the handler returns, its connection is inside a transaction whose working
    copy has the year's counter one higher, and the file's write lock is still
    held. Nothing was committed, and closing the connection drops the
    increment. *)
Theorem timestamp_check_follows_allocation `{Runtime} (me : nat) (clk : clock) (f : form)
    (d : database) (job_part : option Z * string * string * string) (q : double) :
  db_writer d = None ->
  direction_ok (fd_direction (read_form f)) = true ->
  required_present (read_form f) = true ->
  job_snapshot (job_row_of f d) (fd_job_entry (read_form f)) (fd_customer (read_form f))
    = Ret job_part ->
  py_float (fd_quantity (read_form f)) = Some q ->
  fd_use_now (read_form f) = false ->
  get_or_empty (fm_custom_datetime f) = "" \/
  fromisoformat_seconds (get_or_empty (fm_custom_datetime f)) = None ->
  exists m,
    run me (new_ticket clk f) None d =
      (inr (Redirect "new_ticket" "error" m),
       Some (allocated (now_year clk) (db_store d)),
       {| db_store := db_store d; db_writer := Some me |}) /\
    last_value (now_year clk) (allocated (now_year clk) (db_store d))
      = last_value (now_year clk) (db_store d) + 1 /\
    serve me (new_ticket clk f) d = (inr (Redirect "new_ticket" "error" m), d).
Proof.
  intros W Hd Hr Hj Hq Hnow Hbad.
  assert (exists m, choose_created_at clk (fd_use_now (read_form f))
                      (fd_custom_datetime (read_form f))
                    = inl (Redirect "new_ticket" "error" m)) as [m Hm].
  { unfold choose_created_at. rewrite Hnow. cbn [read_form fd_custom_datetime].
    destruct (truthy (get_or_empty (fm_custom_datetime f))) eqn:T; cbn [negb];
      [|eexists; reflexivity].
    destruct Hbad as [E|E].
    - rewrite E in T. discriminate.
    - rewrite E. eexists; reflexivity. }
  assert (locked_by_other me d = false) as L by (unfold locked_by_other; rewrite W; reflexivity).
  assert (run me (new_ticket clk f) None d =
          (inr (Redirect "new_ticket" "error" m),
           Some (allocated (now_year clk) (db_store d)),
           {| db_store := db_store d; db_writer := Some me |})) as R.
  { rewrite (run_new_ticket_valid me clk f d job_part q Hd Hr Hj Hq).
    rewrite run_transaction_free by exact L. rewrite Hm. reflexivity. }
  exists m. split; [exact R|]. split.
  - rewrite last_value_allocated. rewrite decide_True by reflexivity. reflexivity.
  - unfold serve. rewrite R. unfold close_db, release. cbn. rewrite Nat.eqb_refl.
    f_equal. apply unlocked_eq, W.
Qed.

Lemma timestamp_check_follows_allocation_witness :
  exists m,
    run 0 (@new_ticket Reference.runtime Scenario.clock_2025 Scenario.form_without_timestamp)
        None Scenario.fresh_database =
      (inr (Redirect "new_ticket" "error" m),
       Some (allocated 2025 empty_store),
       {| db_store := empty_store; db_writer := Some 0%nat |}) /\
    last_value 2025 (allocated 2025 empty_store) = last_value 2025 empty_store + 1 /\
    serve 0 (@new_ticket Reference.runtime Scenario.clock_2025 Scenario.form_without_timestamp)
          Scenario.fresh_database
      = (inr (Redirect "new_ticket" "error" m), Scenario.fresh_database).
Proof.
  apply (@timestamp_check_follows_allocation Reference.runtime 0%nat Scenario.clock_2025
           Scenario.form_without_timestamp Scenario.fresh_database
           (None, "J100", "Main St", "") (Reference.decimal 125 1));
    try reflexivity.
  left. reflexivity.
Defined.
(** ** Failures inside the transaction (C2) *)

(** C2. The [try] statement of [new_ticket], run on a database whose write
    lock is free. (1) When it raises, nothing is pending on the connection and
    the file is as before: the counter has its value from before the
    allocation, no row was added, the lock is released. (2) It raises whenever
    the rendering, the saving of the file or the INSERT raises. (3) When it
    reports a committed ticket, exactly one row was added, and that row holds
    the bytes the renderer produced for it. (4) The table of tickets changes
    in no other case. *)
Theorem failed_creation_is_rolled_back `{Runtime} (me : nat) (clk : clock)
    (use_now : bool) (custom_datetime : option string) (direction_ : string)
    (sn : snapshot) (quantity_num : double) (unit_text notes_text : string)
    (d : database) (r : result (response + string * string))
    (txn' : option store) (d' : database) :
  db_writer d = None ->
  run me (create_ticket clk use_now custom_datetime direction_ sn
            quantity_num unit_text notes_text) None d = (r, txn', d') ->
  let year := now_year clk in
  let seq := last_value year (db_store d) + 1 in
  let number := format_ticket_number year seq in
  let row created :=
    pdf_row_of number created direction_ sn quantity_num unit_text notes_text in
  let values created path pdf_bytes :=
    ticket_of number year seq created direction_ sn quantity_num unit_text notes_text
      path pdf_bytes in
  (forall e, r = inl e -> txn' = None /\ d' = d) /\
  (forall created e,
      choose_created_at clk use_now custom_datetime = inr created ->
      to_pdf_bytes (row created) = inl e \/
      (exists pdf_bytes,
          to_pdf_bytes (row created) = inr pdf_bytes /\
          (save_pdf number pdf_bytes = inl e \/
           exists path,
             save_pdf number pdf_bytes = inr path /\
             insert_ticket (values created path pdf_bytes) (allocated year (db_store d))
               = inl e)) ->
      r = inl e) /\
  (forall number' path,
      r = inr (inr (number', path)) ->
      exists created pdf_bytes t,
        to_pdf_bytes (row created) = inr pdf_bytes /\
        tbl_tickets (db_store d') = tbl_tickets (db_store d) ++ [t] /\
        pdf_blob t = pdf_bytes /\ ticket_number t = number /\ number' = number /\
        ticket_sequence t = seq /\ last_value year (db_store d') = seq) /\
  (tbl_tickets (db_store d') <> tbl_tickets (db_store d) ->
   exists number' path, r = inr (inr (number', path))).
Proof.
  intros W R. cbv zeta.
  assert (locked_by_other me d = false) as L by (unfold locked_by_other; rewrite W; reflexivity).
  rewrite run_transaction_free in R by exact L.
  destruct (choose_created_at clk use_now custom_datetime) as [early|created] eqn:Ec.
  { injection R as <- <- <-.
    split; [intros e [=]|]. split; [intros c e [=]|].
    split; [intros n p [=]|]. intros N; exfalso; apply N; reflexivity. }
  assert (forall (X Y : Type) (a : X) (b : Y), @inl X Y a <> inr b) as NE by discriminate.
  destruct (to_pdf_bytes _) as [e0|pdf_bytes] eqn:Ep.
  { injection R as <- <- <-. rewrite (unlocked_eq d W).
    split; [intros e _; auto|]. split.
    { intros c e [= <-] [E|[pb [E _]]]; congruence. }
    split; [intros n p [=]|]. intros N; exfalso; apply N; reflexivity. }
  destruct (save_pdf _ _) as [e0|path] eqn:Es.
  { injection R as <- <- <-. rewrite (unlocked_eq d W).
    split; [intros e _; auto|]. split.
    { intros c e [= <-] [E|[pb [E [E'|[p [E' _]]]]]]; congruence. }
    split; [intros n p [=]|]. intros N; exfalso; apply N; reflexivity. }
  destruct (insert_ticket _ _) as [e0|s2] eqn:Ei.
  { injection R as <- <- <-. rewrite (unlocked_eq d W).
    split; [intros e _; auto|]. split.
    { intros c e [= <-] [E|[pb [E [E'|[p [E' E'']]]]]]; congruence. }
    split; [intros n p [=]|]. intros N; exfalso; apply N; reflexivity. }
  injection R as <- <- <-. pose proof (insert_ticket_inr _ _ _ Ei) as (Ht & Hseq & _).
  split; [intros e [=]|]. split.
  { intros c e [= <-] [E|[pb [E [E'|[p [E' E'']]]]]]; congruence. }
  split.
  - intros number' path' [= <- <-]. exists created, pdf_bytes. eexists.
    split; [exact Ep|]. split; [exact Ht|]. cbn.
    repeat split. unfold last_value. cbn. rewrite Hseq. cbn. rewrite lookup_insert_eq.
    reflexivity.
  - intros _. eauto.
Qed.

Lemma failed_creation_is_rolled_back_witness :
  db_writer Scenario.fresh_database = None /\
  run 0 (@create_ticket Broken.runtime Scenario.clock_2025 true None "IN"
           gravel_snapshot (Reference.decimal 125 1) "Ton" "") None Scenario.fresh_database
    = (inl (RenderFailure "cannot draw the ticket"), None, Scenario.fresh_database) /\
  (forall e, @inl exn (response + string * string) (RenderFailure "cannot draw the ticket")
             = inl e ->
             @None store = None /\ Scenario.fresh_database = Scenario.fresh_database).
Proof.
  split; [reflexivity|]. split; [reflexivity|].
  exact (proj1 (@failed_creation_is_rolled_back Broken.runtime 0%nat Scenario.clock_2025
                  true None "IN" gravel_snapshot (Reference.decimal 125 1) "Ton" ""
                  Scenario.fresh_database _ _ _ eq_refl eq_refl)).
Defined.

(** ** The snapshot of a free-text request (C5) *)

(** C5. A request that stores a ticket and whose job identifier resolves to
    no row of [jobs_cache]: the job text is the text of the form trimmed of
    its white space; when it contains " - ", the stored job code is the text
    before its first occurrence and the stored job name the text after it,
    both trimmed; otherwise both are the whole job text. Likewise the truck
    and material texts are stored trimmed when their identifiers do not
    resolve, the quantity is the number the trimmed quantity text denotes
    (a zero stored without its sign), and the ticket number is built from
    the current year and the next value of its counter: [DT-<year>-000001]
    for the first ticket of a year. *)
Theorem free_text_job_snapshot `{Runtime} (me : nat) (clk : clock) (f : form)
    (d : database) (r : result response) (txn' : option store) (d' : database) :
  db_writer d <> Some me ->
  run me (new_ticket clk f) None d = (r, txn', d') ->
  tbl_tickets (db_store d') <> tbl_tickets (db_store d) ->
  job_row_of f d = None ->
  exists t,
    tbl_tickets (db_store d') = tbl_tickets (db_store d) ++ [t] /\
    Text.trimmed (get_or_empty (fm_job_entry f)) (fd_job_entry (read_form f)) /\
    ((exists p q, fd_job_entry (read_form f) = p +:+ " - " +:+ q) ->
     exists before after,
       first_cut " - " (fd_job_entry (read_form f)) before after /\
       job_code_snapshot t = Text.strip before /\
       job_name_snapshot t = Text.strip after /\
       Text.trimmed before (job_code_snapshot t) /\
       Text.trimmed after (job_name_snapshot t)) /\
    ((forall p q, fd_job_entry (read_form f) <> p +:+ " - " +:+ q) ->
     job_code_snapshot t = fd_job_entry (read_form f) /\
     job_name_snapshot t = fd_job_entry (read_form f)) /\
    (truck_row_of f d = None ->
     truck_number_snapshot t = fd_truck_entry (read_form f) /\
     Text.trimmed (get_or_empty (fm_truck_entry f)) (truck_number_snapshot t)) /\
    (material_row_of f d = None ->
     material_name_snapshot t = fd_material_entry (read_form f) /\
     Text.trimmed (get_or_empty (fm_material_entry f)) (material_name_snapshot t)) /\
    (exists q,
       Text.trimmed (get_or (fm_quantity f) "1") (fd_quantity (read_form f)) /\
       py_float (fd_quantity (read_form f)) = Some q /\
       Float.is_nan q = false /\
       quantity t = Float.kept q) /\
    ticket_number t
      = format_ticket_number (now_year clk) (last_value (now_year clk) (db_store d) + 1) /\
    (last_value (now_year clk) (db_store d) = 0 ->
     ticket_number t = "DT-" +:+ Text.fmt_d (now_year clk) +:+ "-000001").
Proof.
  intros W R Hne Hjob.
  destruct (new_ticket_committed me clk f d r txn' d' W R Hne)
    as (job_part & q & created & pdf_bytes & path & H0).
  cbv zeta in H0.
  destruct H0 as (_ & _ & Hj & Hq & _ & _ & _ & _ & _ & _ & Ht & _ & Hnan).
  eexists. split; [exact Ht|]. rewrite Hjob in Hj. unfold job_snapshot in Hj.
  destruct job_part as [[[jid code] name] cust].
  cbn [job_code_snapshot job_name_snapshot truck_number_snapshot material_name_snapshot
       quantity ticket_number with_id ticket_of snapshot_of
       sn_job_code sn_job_name sn_truck_number sn_material_name].
  split; [apply strip_trimmed|].
  split; [|split; [|split; [|split; [|split; [|split]]]]].
  - intros Hocc. apply contains_spec in Hocc.
    rewrite Hocc in Hj.
    destruct (split1_present _ _ Hocc) as (before & after & Es & Hcut).
    rewrite Es in Hj. cbn in Hj. injection Hj as _ <- <- _.
    exists before, after. repeat split; try apply strip_trimmed; apply Hcut.
  - intros Hnone.
    assert (Text.contains " - " (fd_job_entry (read_form f)) = false) as C.
    { destruct (Text.contains " - " (fd_job_entry (read_form f))) eqn:C; [|reflexivity].
      apply contains_spec in C as (p & q0 & E). destruct (Hnone p q0 E). }
    rewrite C in Hj. injection Hj as _ <- <- _. auto.
  - intros ->. split; [reflexivity | apply strip_trimmed].
  - intros ->. split; [reflexivity | apply strip_trimmed].
  - exists q. split; [apply strip_trimmed|]. split; [exact Hq|]. split; [exact Hnan | reflexivity].
  - reflexivity.
  - intros ->. reflexivity.
Qed.

Lemma free_text_job_snapshot_witness :
  let run_result :=
    run 0 (@new_ticket Reference.runtime Scenario.clock_2025 Scenario.gravel_form)
        None Scenario.fresh_database in
  db_writer Scenario.fresh_database <> Some 0%nat /\
  tbl_tickets (db_store (snd run_result)) <> tbl_tickets (db_store Scenario.fresh_database) /\
  @job_row_of Reference.runtime Scenario.gravel_form Scenario.fresh_database = None /\
  exists t,
    tbl_tickets (db_store (snd run_result)) = [t] /\
    job_code_snapshot t = "J100" /\ job_name_snapshot t = "Main St" /\
    truck_number_snapshot t = "T12" /\ material_name_snapshot t = "Gravel" /\
    quantity t = S754_finite false 7036874417766400 (-49) /\
    ticket_number t = "DT-2025-000001".
Proof.
  cbv zeta.
  assert (db_writer Scenario.fresh_database <> Some 0%nat) as W by discriminate.
  assert (tbl_tickets (db_store (snd (run 0 (@new_ticket Reference.runtime Scenario.clock_2025
            Scenario.gravel_form) None Scenario.fresh_database)))
          <> tbl_tickets (db_store Scenario.fresh_database)) as N
    by (vm_compute; discriminate).
  split; [exact W|]. split; [exact N|]. split; [reflexivity|].
  destruct (@free_text_job_snapshot Reference.runtime 0%nat Scenario.clock_2025
              Scenario.gravel_form Scenario.fresh_database _ _ _ W eq_refl N eq_refl)
    as (t & Ht & _ & Hsplit & _ & Htruck & Hmaterial & Hq & Hnumber & _).
  exists t. split; [exact Ht|].
  vm_compute in Ht. injection Ht as <-.
  repeat split; reflexivity.
Defined.

(** The scenario of the specification: the first ticket of the year. *)
Example gravel_ticket_is_stored :
  serve 0 (@new_ticket Reference.runtime Scenario.clock_2025 Scenario.gravel_form)
        Scenario.fresh_database
  = (inr (Redirect "new_ticket" "success" "Ticket DT-2025-000001 created."),
     {| db_store :=
          {| tbl_ticket_sequence := {[ 2025 := 1 ]};
             tbl_tickets :=
               [ {| ticket_id := 1; ticket_number := "DT-2025-000001";
                    ticket_year := 2025; ticket_sequence := 1;
                    direction := "IN"; created_at := "2025-03-01T10:00:00";
                    job_id := None; job_code_snapshot := "J100";
                    job_name_snapshot := "Main St"; customer_snapshot := "";
                    truck_id := None; truck_number_snapshot := "T12";
                    material_id := None; material_name_snapshot := "Gravel";
                    quantity := (Reference.decimal 125 1); unit_ := "Ton"; notes := "";
                    pdf_path := "tickets_pdf/DT-2025-000001.pdf";
                    pdf_blob := "%PDF-1.4 DT-2025-000001" |} ];
             tbl_jobs_cache := []; tbl_trucks := []; tbl_materials := [] |};
        db_writer := None |}).
Proof. vm_compute. reflexivity. Qed.

(** ** The year of a ticket (C10) *)

(** C10. Whatever creation time a stored ticket carries, its [ticket_year]
    is the year the wall clock showed at the allocation, its number is built
    from that year, and its sequence value is drawn from that year's counter,
    which alone moves; with the use-now box unchecked the creation time is the
    custom timestamp. *)
Theorem ticket_year_is_the_wall_clock_year `{Runtime} (me : nat) (clk : clock) (f : form)
    (d : database) (r : result response) (txn' : option store) (d' : database) :
  db_writer d <> Some me ->
  run me (new_ticket clk f) None d = (r, txn', d') ->
  tbl_tickets (db_store d') <> tbl_tickets (db_store d) ->
  exists t,
    tbl_tickets (db_store d') = tbl_tickets (db_store d) ++ [t] /\
    ticket_year t = now_year clk /\
    ticket_sequence t = last_value (now_year clk) (db_store d) + 1 /\
    ticket_number t
      = "DT-" +:+ Text.fmt_d (now_year clk) +:+ "-" +:+ Text.fmt_06d (ticket_sequence t) /\
    last_value (now_year clk) (db_store d') = ticket_sequence t /\
    (forall y, y <> now_year clk ->
               tbl_ticket_sequence (db_store d') !! y = tbl_ticket_sequence (db_store d) !! y) /\
    (fd_use_now (read_form f) = false ->
     fromisoformat_seconds (get_or_empty (fm_custom_datetime f)) = Some (created_at t)).
Proof.
  intros W R Hne.
  destruct (new_ticket_committed me clk f d r txn' d' W R Hne)
    as (job_part & q & created & pdf_bytes & path & H0).
  cbv zeta in H0.
  destruct H0 as (_ & _ & _ & _ & Hc & _ & _ & _ & _ & _ & Ht & Hseq & _).
  eexists. split; [exact Ht|].
  cbn [ticket_year ticket_sequence ticket_number created_at with_id ticket_of].
  split; [reflexivity|]. split; [reflexivity|]. split; [reflexivity|].
  split; [|split].
  - unfold last_value at 1. rewrite Hseq, lookup_insert_eq. reflexivity.
  - intros y Hy. rewrite Hseq. apply lookup_insert_ne. congruence.
  - intros Hnow. unfold choose_created_at in Hc. rewrite Hnow in Hc.
    cbn [read_form fd_custom_datetime] in Hc.
    destruct (negb (truthy (get_or_empty (fm_custom_datetime f)))); [discriminate|].
    destruct (fromisoformat_seconds (get_or_empty (fm_custom_datetime f)));
      [injection Hc as ->; reflexivity | discriminate].
Qed.

Lemma ticket_year_is_the_wall_clock_year_witness :
  let run_result :=
    run 0 (@new_ticket Reference.runtime Scenario.clock_2025 Scenario.form_dated_2019)
        None Scenario.fresh_database in
  db_writer Scenario.fresh_database <> Some 0%nat /\
  tbl_tickets (db_store (snd run_result)) <> tbl_tickets (db_store Scenario.fresh_database) /\
  exists t,
    tbl_tickets (db_store (snd run_result)) = [t] /\
    created_at t = "2019-06-30T08:15:00" /\
    ticket_year t = 2025 /\ ticket_sequence t = 1 /\
    ticket_number t = "DT-2025-000001" /\
    last_value 2025 (db_store (snd run_result)) = 1 /\
    last_value 2019 (db_store (snd run_result)) = 0.
Proof.
  cbv zeta.
  assert (db_writer Scenario.fresh_database <> Some 0%nat) as W by discriminate.
  assert (tbl_tickets (db_store (snd (run 0 (@new_ticket Reference.runtime Scenario.clock_2025
            Scenario.form_dated_2019) None Scenario.fresh_database)))
          <> tbl_tickets (db_store Scenario.fresh_database)) as N
    by (vm_compute; discriminate).
  split; [exact W|]. split; [exact N|].
  destruct (@ticket_year_is_the_wall_clock_year Reference.runtime 0%nat Scenario.clock_2025
              Scenario.form_dated_2019 Scenario.fresh_database _ _ _ W eq_refl N)
    as (t & Ht & Hyear & Hseq & Hnumber & Hlast & _ & Hcreated).
  exists t. split; [exact Ht|].
  vm_compute in Ht. injection Ht as <-.
  repeat split; vm_compute; reflexivity.
Defined.

(** ** A program logic for the statements of one connection *)

Lemma wp_mono {A : Type} (me : nat) (p : prog A) (txn : option store)
    (Q Q' : result A -> option store -> Prop) :
  (forall r t, Q r t -> Q' r t) -> wp me p txn Q -> wp me p txn Q'.
Proof.
  intros HQ. revert txn. induction p as [a | e | T o k IH]; intros txn; cbn [wp]; auto.
  intros Hwp d Hd. specialize (Hwp d Hd).
  destruct (do_op me o txn d) as [[r txn'] d']. destruct Hwp as [Hok Hk].
  split; [exact Hok | apply IH, Hk].
Qed.

Lemma wp_bind {A B : Type} (me : nat) (p : prog A) (f : A -> prog B) (txn : option store)
    (Q : result B -> option store -> Prop) :
  wp me p txn (fun r txn' =>
                 match r with
                 | inl e => Q (inl e) txn'
                 | inr a => wp me (f a) txn' Q
                 end) ->
  wp me (p ≫= f) txn Q.
Proof.
  change (p ≫= f) with (bind p f).
  revert txn. induction p as [a | e | T o k IH]; intros txn; cbn [wp bind]; auto.
  intros Hwp d Hd. specialize (Hwp d Hd).
  destruct (do_op me o txn d) as [[r txn'] d']. destruct Hwp as [Hok Hk].
  split; [exact Hok | apply IH, Hk].
Qed.

Lemma wp_try_except {A : Type} (me : nat) (p : prog A) (h : exn -> prog A)
    (txn : option store) (Q : result A -> option store -> Prop) :
  wp me p txn (fun r txn' =>
                 match r with
                 | inl e => wp me (h e) txn' Q
                 | inr a => Q (inr a) txn'
                 end) ->
  wp me (try_except p h) txn Q.
Proof.
  revert txn. induction p as [a | e | T o k IH]; intros txn; cbn [wp try_except]; auto.
  intros Hwp d Hd. specialize (Hwp d Hd).
  destruct (do_op me o txn d) as [[r txn'] d']. destruct Hwp as [Hok Hk].
  split; [exact Hok | apply IH, Hk].
Qed.

Lemma wp_call {A : Type} (me : nat) (r : result A) (txn : option store)
    (Q : result A -> option store -> Prop) :
  Q r txn -> wp me (call r) txn Q.
Proof. destruct r; exact id. Qed.

(** A SELECT in autocommit mode: the file may hold anything consistent. *)
Lemma wp_select_autocommit {B : Type} (me : nat) (q : store -> B)
    (Q : result B -> option store -> Prop) :
  (forall b, Q (inr b) None) -> wp me (select q) None Q.
Proof. intros HQ d Hd. cbn. split; [exact Hd | apply HQ]. Qed.

(** A SELECT inside a transaction reads the working copy. *)
Lemma wp_select_in_transaction {B : Type} (me : nat) (q : store -> B) (s : store)
    (Q : result B -> option store -> Prop) :
  Q (inr (q s)) (Some s) -> wp me (select q) (Some s) Q.
Proof. intros HQ d Hd. cbn. split; [exact Hd | exact HQ]. Qed.

Lemma not_locked_by_other (me : nat) (d : database) :
  db_writer d <> Some me -> locked_by_other me d = false -> db_writer d = None.
Proof.
  unfold locked_by_other. destruct (db_writer d) as [w|]; [|reflexivity].
  intros N. destruct (Nat.eqb_spec w me) as [->|]; [congruence | discriminate].
Qed.

(** [BEGIN IMMEDIATE] in autocommit mode either fails, or starts from
    consistent tables. *)
Lemma wp_begin_immediate (me : nat) (Q : result unit -> option store -> Prop) :
  Q (inl busy) None ->
  (forall s, sequence_consistent s -> Q (inr tt) (Some s)) ->
  wp me (perform BeginImmediate) None Q.
Proof.
  intros Hbusy Hfree d [Hc Hl]. cbn.
  destruct (locked_by_other me d) eqn:L; cbn.
  - split; [split; assumption | exact Hbusy].
  - split; [|apply Hfree, Hc]. split; [exact Hc|]. cbn. split; eauto.
Qed.

(** A write inside a transaction changes the working copy only. *)
Lemma wp_execute_in_transaction (me : nat) (w : store -> result store) (s : store)
    (Q : result unit -> option store -> Prop) :
  match w s with
  | inl e => Q (inl e) (Some s)
  | inr s' => Q (inr tt) (Some s')
  end ->
  wp me (execute w) (Some s) Q.
Proof.
  intros HQ d [Hc Hl]. cbn. destruct (w s) as [e|s']; cbn.
  - split; [split; assumption | exact HQ].
  - split; [|exact HQ]. split; [exact Hc|]. rewrite <- Hl. split; eauto.
Qed.

(** A commit publishes the working copy, which must be consistent. *)
Lemma wp_commit (me : nat) (s : store) (Q : result unit -> option store -> Prop) :
  sequence_consistent s -> Q (inr tt) None ->
  wp me (perform CommitOp) (Some s) Q.
Proof.
  intros Hs HQ d [Hc Hl]. cbn. split; [|exact HQ].
  split; [exact Hs|]. cbn. split; [intros [? [=]] | discriminate].
Qed.

Lemma release_writer (me : nat) (d : database) : db_writer (release me d) <> Some me.
Proof.
  unfold release. destruct (db_writer d) as [w|] eqn:E; [|rewrite E; discriminate].
  destruct (Nat.eqb_spec w me) as [->|N]; cbn; [discriminate | rewrite E; congruence].
Qed.

Lemma release_store (me : nat) (d : database) : db_store (release me d) = db_store d.
Proof.
  unfold release. destruct (db_writer d) as [w|]; [|reflexivity].
  destruct (Nat.eqb w me); reflexivity.
Qed.

Lemma wp_rollback (me : nat) (txn : option store) (Q : result unit -> option store -> Prop) :
  Q (inr tt) None -> wp me (perform RollbackOp) txn Q.
Proof.
  intros HQ d [Hc Hl]. cbn. split; [|exact HQ].
  split; [rewrite release_store; exact Hc|].
  split; [intros [? [=]] | intros E; destruct (release_writer me d E)].
Qed.

Lemma wp_next_ticket_number (me : nat) (year : Z) (s : store)
    (Q : result (string * Z * Z) -> option store -> Prop) :
  Q (inr (format_ticket_number year (last_value year s + 1), year, last_value year s + 1))
    (Some (allocated year s)) ->
  wp me (next_ticket_number year) (Some s) Q.
Proof.
  intros HQ. unfold next_ticket_number.
  apply wp_bind, wp_execute_in_transaction. cbn [insert_or_ignore_sequence].
  apply wp_bind, wp_select_in_transaction.
  unfold allocated, last_value in HQ.
  destruct (tbl_ticket_sequence s !! year) as [v|] eqn:E; cbn [tbl_ticket_sequence].
  - rewrite E. apply wp_bind, wp_execute_in_transaction. cbn [update_sequence].
    rewrite E. exact HQ.
  - rewrite lookup_insert_eq. apply wp_bind, wp_execute_in_transaction.
    cbn [update_sequence tbl_ticket_sequence tbl_tickets tbl_jobs_cache tbl_trucks
         tbl_materials].
    rewrite lookup_insert_eq, insert_insert_eq. exact HQ.
Qed.

(** ** The allocation and the INSERT keep the sequences consistent *)

Lemma one_to_succ (n : Z) :
  0 <= n -> one_to (Z.to_nat (n + 1)) = one_to (Z.to_nat n) ++ [n + 1].
Proof.
  intros Hn. unfold one_to.
  replace (Z.to_nat (n + 1)) with (S (Z.to_nat n)) by lia.
  rewrite seq_S, map_app. cbn [map]. f_equal. f_equal. lia.
Qed.

Lemma sequences_of_year_app (year : Z) (s : store) (l : list ticket) (t : ticket) :
  tbl_tickets s = l ++ [t] ->
  map ticket_sequence (filter (fun t => bool_decide (ticket_year t = year)) (tbl_tickets s))
  = map ticket_sequence (filter (fun t => bool_decide (ticket_year t = year)) l)
    ++ (if bool_decide (ticket_year t = year) then [ticket_sequence t] else []).
Proof.
  intros ->. rewrite filter_app, map_app. f_equal.
  rewrite filter_cons, filter_nil.
  destruct (decide (bool_decide (ticket_year t = year))) as [E|E].
  - apply Is_true_true in E. rewrite E. reflexivity.
  - apply Is_true_false in E. rewrite E. reflexivity.
Qed.

Lemma insert_after_allocation_consistent (s s2 : store) (t : ticket) (year : Z) :
  sequence_consistent s ->
  ticket_year t = year ->
  ticket_sequence t = last_value year s + 1 ->
  insert_ticket t (allocated year s) = inr s2 ->
  sequence_consistent s2.
Proof.
  intros Hs Hy Hq Hi. apply insert_ticket_inr in Hi as (Ht & Hseq & _).
  intros y. destruct (Hs y) as [Hpos Hlist].
  assert (last_value y s2 = last_value y (allocated year s)) as ->
    by (unfold last_value; rewrite Hseq; reflexivity).
  rewrite last_value_allocated.
  unfold sequences_of_year. rewrite (sequences_of_year_app y s2 _ _ Ht).
  cbn [allocated tbl_tickets with_id ticket_year ticket_sequence].
  fold (sequences_of_year y s). rewrite Hlist, Hy, Hq.
  destruct (decide (year = y)) as [->|N].
  - split; [lia|]. rewrite bool_decide_eq_true_2 by reflexivity.
    rewrite one_to_succ by exact Hpos. reflexivity.
  - split; [exact Hpos|]. rewrite bool_decide_eq_false_2 by exact N.
    apply app_nil_r.
Qed.

(** ** [new_ticket] respects the discipline *)

Lemma safe_rollback_and_raise {A : Type} (me : nat) (e : exn) (txn : option store)
    (Q : result A -> option store -> Prop) :
  Q (inl e) None -> wp me (@rollback_and_raise A e) txn Q.
Proof. intros HQ. unfold rollback_and_raise. apply wp_bind, wp_rollback. exact HQ. Qed.

Lemma safe_create_ticket `{Runtime} (me : nat) (clk : clock)
    (use_now : bool) (custom_datetime : option string) (direction_ : string)
    (sn : snapshot) (quantity_num : double) (unit_text notes_text : string)
    (Q : result (response + string * string) -> option store -> Prop) :
  (forall r txn, Q r txn) ->
  wp me (create_ticket clk use_now custom_datetime direction_ sn
           quantity_num unit_text notes_text) None Q.
Proof.
  intros HQ. unfold create_ticket. apply wp_try_except.
  unfold create_in_transaction. apply wp_bind, wp_begin_immediate.
  { apply safe_rollback_and_raise, HQ. }
  intros s Hs. apply wp_bind, wp_next_ticket_number.
  destruct (choose_created_at clk use_now custom_datetime) as [early|created].
  { apply HQ. }
  apply wp_bind, wp_call.
  destruct (to_pdf_bytes _) as [e|pdf_bytes]; [apply safe_rollback_and_raise, HQ|].
  apply wp_bind, wp_call.
  destruct (save_pdf _ _) as [e|path]; [apply safe_rollback_and_raise, HQ|].
  apply wp_bind, wp_execute_in_transaction.
  destruct (insert_ticket _ _) as [e|s2] eqn:Ei; [apply safe_rollback_and_raise, HQ|].
  apply wp_bind, wp_commit; [|apply HQ].
  eapply insert_after_allocation_consistent; [exact Hs | | | exact Ei]; reflexivity.
Qed.

Lemma safe_lookup {A : Type} (me : nat) (cond : bool) (q : store -> option A)
    (Q : result (option A) -> option store -> Prop) :
  (forall b, Q (inr b) None) ->
  wp me (if cond then select q else mret None) None Q.
Proof. intros HQ. destruct cond; [apply wp_select_autocommit, HQ | apply HQ]. Qed.

Lemma safe_new_ticket `{Runtime} (me : nat) (clk : clock) (f : form) :
  safe me (new_ticket clk f) None.
Proof.
  unfold safe, new_ticket. cbv zeta.
  destruct (negb (direction_ok _)); [exact I|].
  destruct (negb (required_present _)); [exact I|].
  apply wp_bind, safe_lookup. intros job_row.
  apply wp_bind, safe_lookup. intros truck_row.
  apply wp_bind, safe_lookup. intros material_row.
  apply wp_bind.
  destruct (job_snapshot_pure job_row (fd_job_entry (read_form f))
              (fd_customer (read_form f))) as [[job_part ->]|[e ->]]; cbn [wp]; [|exact I].
  destruct (py_float _) as [q|]; [|exact I].
  apply wp_bind, safe_create_ticket. intros r txn.
  destruct r as [e|[early|[number path]]]; exact I.
Qed.

(** ** The system keeps its invariant *)

Lemma release_other_writers (i j : nat) (d : database) :
  j <> i -> (db_writer (release i d) = Some j <-> db_writer d = Some j).
Proof.
  intros Hj. unfold release. destruct (db_writer d) as [w|] eqn:E; [|rewrite E; tauto].
  destruct (Nat.eqb_spec w i) as [->|N]; cbn; [|rewrite E; tauto].
  split; [discriminate | congruence].
Qed.

Lemma do_op_other_writers (i : nat) {B : Type} (o : op B) (txn : option store)
    (d : database) (r : result B) (txn' : option store) (d' : database) :
  (is_Some txn <-> db_writer d = Some i) ->
  do_op i o txn d = (r, txn', d') ->
  forall j, j <> i -> (db_writer d' = Some j <-> db_writer d = Some j).
Proof.
  intros Hl Hop j Hj.
  assert (locked_by_other i d = false -> db_writer d <> Some j) as Hfree.
  { unfold locked_by_other. destruct (db_writer d) as [w|]; [|discriminate].
    destruct (Nat.eqb_spec w i) as [->|N]; [congruence | discriminate]. }
  destruct o; cbn in Hop.
  - destruct txn as [s|]; [injection Hop as <- <- <-; tauto|].
    destruct (locked_by_other i d) eqn:L; injection Hop as <- <- <-; [tauto|].
    cbn. split; [congruence | intros E; destruct (Hfree eq_refl E)].
  - injection Hop as <- <- <-. tauto.
  - destruct txn as [s|].
    + destruct (w s); injection Hop as <- <- <-; tauto.
    + destruct (locked_by_other i d) eqn:L; [injection Hop as <- <- <-; tauto|].
      destruct (w (db_store d)); injection Hop as <- <- <-; cbn;
        (split; [congruence | intros E; destruct (Hfree eq_refl E)]).
  - destruct txn as [s|]; injection Hop as <- <- <-; [|tauto].
    cbn. split; [discriminate|]. intros E.
    assert (db_writer d = Some i) by (apply Hl; eauto). congruence.
  - injection Hop as <- <- <-. apply release_other_writers, Hj.
Qed.


Lemma start_ok : system_ok start.
Proof.
  split; [|split; [|split]].
  - intros y. unfold last_value, sequences_of_year. cbn. rewrite lookup_empty. cbn.
    split; [lia | reflexivity].
  - intros i txn p E. cbn in E. rewrite lookup_nil in E. discriminate.
  - intros i r E. cbn in E. rewrite lookup_nil in E. discriminate.
  - intros i E. discriminate.
Qed.

Lemma finish_preserves (d : database) (ts : list thread) (i : nat) (txn : option store)
    (p : prog response) (r : result response) :
  system_ok {| sys_db := d; sys_threads := ts |} ->
  ts !! i = Some (Running txn p) ->
  system_ok {| sys_db := close_db i txn d; sys_threads := <[i := Closed r]> ts |}.
Proof.
  intros (Hc & Hrun & Hclosed & Hbound) Hi. cbn in *.
  assert (i < length ts)%nat as Hlt by (eapply lookup_lt_Some; eassumption).
  unfold close_db. split; [|split; [|split]]; cbn.
  - rewrite release_store. exact Hc.
  - intros j txn_j p_j Hj. destruct (decide (j = i)) as [->|N].
    + rewrite list_lookup_insert_eq in Hj by exact Hlt. discriminate.
    + rewrite list_lookup_insert_ne in Hj by congruence.
      destruct (Hrun j txn_j p_j Hj) as [Hs Hl]. split; [exact Hs|].
      rewrite Hl. symmetry. apply release_other_writers, N.
  - intros j r_j Hj. destruct (decide (j = i)) as [->|N].
    + apply release_writer.
    + rewrite list_lookup_insert_ne in Hj by congruence.
      rewrite release_other_writers by exact N. eapply Hclosed, Hj.
  - intros j Hj. rewrite length_insert. destruct (decide (j = i)) as [->|N]; [exact Hlt|].
    apply Hbound. apply release_other_writers in Hj; assumption.
Qed.

Lemma step_preserves (s s' : system) : system_ok s -> step s s' -> system_ok s'.
Proof.
  intros Hok Hstep.
  destruct Hstep as [d ts rt clk f | d ts i txn B o k r txn' d' Hi Hop
                     | d ts i txn a Hi | d ts i txn e Hi].
  - destruct Hok as (Hc & Hrun & Hclosed & Hbound). cbn in *.
    split; [exact Hc|]. split; [|split]; cbn.
    + intros i txn p Hi. destruct (decide (i < length ts)%nat) as [Hlt|Hge].
      * rewrite lookup_app_l in Hi by exact Hlt. eapply Hrun, Hi.
      * rewrite lookup_app_r in Hi by lia.
        destruct (i - length ts)%nat as [|n] eqn:En; [|destruct n; discriminate].
        injection Hi as <- <-. split; [apply safe_new_ticket|].
        split; [intros [? [=]]|]. intros E. apply Hbound in E. lia.
    + intros i r Hi. destruct (decide (i < length ts)%nat) as [Hlt|Hge].
      * rewrite lookup_app_l in Hi by exact Hlt. eapply Hclosed, Hi.
      * rewrite lookup_app_r in Hi by lia.
        destruct (i - length ts)%nat as [|n]; [discriminate | destruct n; discriminate].
    + intros i E. rewrite length_app. apply Hbound in E. lia.
  - destruct Hok as (Hc & Hrun & Hclosed & Hbound). cbn in *.
    assert (i < length ts)%nat as Hlt by (eapply lookup_lt_Some; eassumption).
    destruct (Hrun i txn _ Hi) as [Hsafe Hl].
    unfold safe in Hsafe. cbn [wp] in Hsafe.
    specialize (Hsafe d (conj Hc Hl)). rewrite Hop in Hsafe.
    destruct Hsafe as [[Hc' Hl'] Hk].
    pose proof (do_op_other_writers i o txn d r txn' d' Hl Hop) as Hother.
    split; [exact Hc'|]. split; [|split]; cbn.
    + intros j txn_j p_j Hj. destruct (decide (j = i)) as [->|N].
      * rewrite list_lookup_insert_eq in Hj by exact Hlt. injection Hj as <- <-.
        split; [exact Hk | exact Hl'].
      * rewrite list_lookup_insert_ne in Hj by congruence.
        destruct (Hrun j txn_j p_j Hj) as [Hs Hlj]. split; [exact Hs|].
        rewrite Hlj. symmetry. apply Hother, N.
    + intros j r_j Hj. destruct (decide (j = i)) as [->|N].
      * rewrite list_lookup_insert_eq in Hj by exact Hlt. discriminate.
      * rewrite list_lookup_insert_ne in Hj by congruence.
        rewrite Hother by exact N. eapply Hclosed, Hj.
    + intros j Hj. rewrite length_insert. destruct (decide (j = i)) as [->|N]; [exact Hlt|].
      apply Hbound. apply Hother in Hj; assumption.
  - eapply finish_preserves; eassumption.
  - eapply finish_preserves; eassumption.
Qed.

Lemma reachable_ok (s : system) : reachable s -> system_ok s.
Proof.
  induction 1 as [|s s' _ IH Hstep]; [exact start_ok | exact (step_preserves s s' IH Hstep)].
Qed.

(** A schedule only takes steps of the system. *)
Lemma perform_action_reachable (a : action) (s : system) :
  reachable s -> reachable (perform_action a s).
Proof.
  intros Hs. destruct s as [d ts]. destruct a as [rt clk f | i]; cbn.
  - eapply reachable_step; [exact Hs | apply step_arrive].
  - destruct (ts !! i) as [[txn [a | e | B o k] | r]|] eqn:Hi; try exact Hs.
    + eapply reachable_step; [exact Hs | eapply step_return, Hi].
    + eapply reachable_step; [exact Hs | eapply step_raise, Hi].
    + destruct (do_op i o txn d) as [[r txn'] d'] eqn:Hop.
      eapply reachable_step; [exact Hs | eapply step_statement; eassumption].
Qed.

Lemma run_schedule_reachable (sched : list action) (s : system) :
  reachable s -> reachable (run_schedule sched s).
Proof.
  revert s. induction sched as [|a sched IH]; intros s Hs; [exact Hs|].
  apply IH, perform_action_reachable, Hs.
Qed.

(** ** Facts about [one_to] *)

Lemma length_one_to (n : nat) : length (one_to n) = n.
Proof. unfold one_to. rewrite length_map, length_seq. reflexivity. Qed.

Lemma elem_of_one_to (n : nat) (k : Z) : k ∈ one_to n <-> 1 <= k <= Z.of_nat n.
Proof.
  unfold one_to. rewrite list_elem_of_fmap. split.
  - intros (i & -> & Hi). apply list_elem_of_In, in_seq in Hi. lia.
  - intros Hk. exists (Z.to_nat k). split; [lia|].
    apply list_elem_of_In, in_seq. lia.
Qed.

Lemma NoDup_one_to (n : nat) : NoDup (one_to n).
Proof.
  unfold one_to. apply NoDup_fmap_2; [intros a b; lia|].
  apply NoDup_ListNoDup, List.seq_NoDup.
Qed.

(** ** The sequence of a year (C1) *)

(** C1. In every state the system reaches from the empty database, whatever
    number of ticket creations are in flight and however their statements
    interleave, the committed tickets of each year carry the sequence values
    1 to N without repetition, N being their number, and the committed counter
    of the year is N: no state of the file shows the increment without its
    ticket or the ticket without its increment. *)
Theorem sequences_are_gapless (s : system) (year : Z) :
  reachable s ->
  NoDup (sequences_of_year year (db_store (sys_db s))) /\
  (forall k, k ∈ sequences_of_year year (db_store (sys_db s)) <->
             1 <= k <= Z.of_nat (length (sequences_of_year year (db_store (sys_db s))))) /\
  last_value year (db_store (sys_db s))
    = Z.of_nat (length (sequences_of_year year (db_store (sys_db s)))).
Proof.
  intros Hs. destruct (reachable_ok s Hs) as (Hc & _).
  destruct (Hc year) as [Hpos ->]. rewrite length_one_to.
  split; [apply NoDup_one_to|]. split; [intros k; apply elem_of_one_to | lia].
Qed.

Lemma sequences_are_gapless_witness :
  reachable (run_schedule contended_schedule start) /\
  NoDup (sequences_of_year 2025 (db_store (sys_db (run_schedule contended_schedule start)))) /\
  (forall k,
      k ∈ sequences_of_year 2025 (db_store (sys_db (run_schedule contended_schedule start))) <->
      1 <= k <= Z.of_nat (length (sequences_of_year 2025
                                    (db_store (sys_db (run_schedule contended_schedule start)))))) /\
  last_value 2025 (db_store (sys_db (run_schedule contended_schedule start)))
    = Z.of_nat (length (sequences_of_year 2025
                          (db_store (sys_db (run_schedule contended_schedule start))))).
Proof.
  split.
  - apply run_schedule_reachable, reachable_start.
  - apply sequences_are_gapless, run_schedule_reachable, reachable_start.
Defined.

(** What the contended schedule leaves: two tickets numbered 1 and 2, and the
    request that was refused the lock failed without a trace. *)
Example contended_schedule_result :
  sequences_of_year 2025 (db_store (sys_db (run_schedule contended_schedule start))) = [1; 2] /\
  last_value 2025 (db_store (sys_db (run_schedule contended_schedule start))) = 2 /\
  map (fun t => match t with Running _ _ => None | Closed r => Some r end)
      (sys_threads (run_schedule contended_schedule start))
  = [ Some (inr (Redirect "new_ticket" "success" "Ticket DT-2025-000001 created."));
      Some (inl (OperationalError "database is locked"));
      Some (inr (Redirect "new_ticket" "success" "Ticket DT-2025-000002 created.")) ].
Proof. repeat split; vm_compute; reflexivity. Qed.

(** ** The jobs synchronisation (C9) *)

Lemma first_present_absent (fieldnames names : list string) :
  (forall a, In a names -> ~ In a fieldnames) ->
  first_present fieldnames names = None.
Proof.
  unfold first_present. induction names as [|n names IH]; intros Hn; [reflexivity|].
  cbn [find].
  assert (existsb (String.eqb n) fieldnames = false) as ->.
  { apply not_true_is_false. intros E. apply existsb_exists in E as (x & Hx & Ex).
    apply String.eqb_eq in Ex. subst x. apply (Hn n); [left; reflexivity | exact Hx]. }
  apply IH. intros a Ha. apply Hn. right. exact Ha.
Qed.

(** C9. A CSV source whose header has none of the job-code columns
    [job_code], [Job #], [Job#], [Job Number], or none of the job-name columns
    [job_name], [Job Name]: [refresh_jobs_cache] is a program that raises
    [RuntimeError] without any statement, so that running it changes neither
    the connection nor the file; the handler [refresh_jobs] then rolls back
    and reports the failure, the jobs cache being what it was. *)
Theorem refresh_fails_without_required_columns `{Runtime} (now : string)
    (fieldnames : list string) (rows : list (list string)) :
  (forall a, In a ["job_code"; "Job #"; "Job#"; "Job Number"] -> ~ In a fieldnames) \/
  (forall a, In a ["job_name"; "Job Name"] -> ~ In a fieldnames) ->
  exists msg,
    refresh_jobs_cache now (CsvFile fieldnames rows) = Raise (RuntimeError msg) /\
    (forall me txn d,
        run me (refresh_jobs_cache now (CsvFile fieldnames rows)) txn d
        = (inl (RuntimeError msg), txn, d)) /\
    (forall me d,
        db_writer d <> Some me ->
        run me (refresh_jobs now (CsvFile fieldnames rows)) None d
        = (inr (Redirect "new_ticket" "error" ("Jobs refresh failed: " +:+ msg)), None, d)).
Proof.
  intros Hmissing.
  assert (exists msg, refresh_jobs_cache now (CsvFile fieldnames rows)
                      = Raise (RuntimeError msg)) as [msg Hmsg].
  { unfold refresh_jobs_cache. destruct (bool_decide (fieldnames = [])); [eauto|].
    cbv zeta. destruct Hmissing as [Hc|Hn].
    - rewrite (first_present_absent _ _ Hc). eauto.
    - rewrite (first_present_absent _ _ Hn).
      destruct (first_present fieldnames _); eauto. }
  exists msg. split; [exact Hmsg|]. split.
  - intros me txn d. rewrite Hmsg. reflexivity.
  - intros me d W. unfold refresh_jobs. rewrite run_try_except, run_bind, Hmsg.
    cbn. f_equal. unfold release. destruct (db_writer d) as [w|] eqn:E; [|reflexivity].
    destruct (Nat.eqb_spec w me) as [->|N]; [congruence | reflexivity].
Qed.

Lemma refresh_fails_without_required_columns_witness :
  ((forall a, In a ["job_code"; "Job #"; "Job#"; "Job Number"] ->
              ~ In a ["Job #"; "Customer Name"]) \/
   (forall a, In a ["job_name"; "Job Name"] -> ~ In a ["Job #"; "Customer Name"])) /\
  exists msg,
    @refresh_jobs_cache Reference.runtime "2025-03-01T10:00:00"
      (CsvFile ["Job #"; "Customer Name"] [["J100"; "Acme"]]) = Raise (RuntimeError msg) /\
    (forall me txn d,
        run me (@refresh_jobs_cache Reference.runtime "2025-03-01T10:00:00"
                  (CsvFile ["Job #"; "Customer Name"] [["J100"; "Acme"]])) txn d
        = (inl (RuntimeError msg), txn, d)) /\
    (forall me d,
        db_writer d <> Some me ->
        run me (@refresh_jobs Reference.runtime "2025-03-01T10:00:00"
                  (CsvFile ["Job #"; "Customer Name"] [["J100"; "Acme"]])) None d
        = (inr (Redirect "new_ticket" "error" ("Jobs refresh failed: " +:+ msg)), None, d)).
Proof.
  assert (forall a, In a ["job_name"; "Job Name"] -> ~ In a ["Job #"; "Customer Name"]) as Hn.
  { intros a [<-|[<-|[]]] [E|[E|[]]]; discriminate. }
  split; [right; exact Hn|].
  apply (@refresh_fails_without_required_columns Reference.runtime). right. exact Hn.
Defined.

(** The same file with a job-name column is merged into the cache. *)
Example refresh_with_required_columns :
  serve 0 (@refresh_jobs Reference.runtime "2025-03-01T10:00:00"
             (CsvFile ["Job #"; "Job Name"; "Job Status"]
                      [["J100"; "Main St"; "A"]; [""; "skipped"; "A"]; ["J200"; "Depot"; "C"]]))
        Scenario.fresh_database
  = (inr (Redirect "new_ticket" "success" "Jobs refresh complete. 2 rows synced."),
     {| db_store :=
          {| tbl_ticket_sequence := ∅; tbl_tickets := [];
             tbl_jobs_cache :=
               [ {| jc_id := 1; jc_job_code := "J100"; jc_job_name := "Main St";
                    jc_customer := ""; jc_active := 1; jc_source_updated_at := None;
                    jc_refreshed_at := "2025-03-01T10:00:00" |};
                 {| jc_id := 2; jc_job_code := "J200"; jc_job_name := "Depot";
                    jc_customer := ""; jc_active := 0; jc_source_updated_at := None;
                    jc_refreshed_at := "2025-03-01T10:00:00" |} ];
             tbl_trucks := []; tbl_materials := [] |};
        db_writer := None |}).
Proof. vm_compute. reflexivity. Qed.

(** ** Facts about ORDER BY *)

Section OrderBy.
Context {A : Type} (le : A -> A -> bool).

Lemma insert_ordered_perm (x : A) (l : list A) :
  Permutation (insert_ordered le x l) (x :: l).
Proof.
  induction l as [|y l IH]; cbn [insert_ordered]; [reflexivity|].
  destruct (le x y); [reflexivity|].
  rewrite IH. apply perm_swap.
Qed.

Lemma order_by_perm (l : list A) : Permutation (order_by le l) l.
Proof.
  induction l as [|x l IH]; [reflexivity|].
  unfold order_by in *. cbn [foldr]. rewrite insert_ordered_perm. apply perm_skip, IH.
Qed.

Hypothesis le_total : forall a b, le a b = false -> le b a = true.
Hypothesis le_trans : forall a b c, le a b = true -> le b c = true -> le a c = true.

Lemma insert_ordered_sorted (x : A) (l : list A) :
  StronglySorted (fun a b => le a b = true) l ->
  StronglySorted (fun a b => le a b = true) (insert_ordered le x l).
Proof.
  induction 1 as [|y l Hs IH Hy]; cbn [insert_ordered].
  - constructor; constructor.
  - destruct (le x y) eqn:E.
    + constructor; [constructor; assumption|].
      constructor; [exact E|].
      eapply Forall_impl; [exact Hy|]. intros z Hz. cbv beta in Hz. eauto.
    + constructor; [exact IH|].
      eapply Permutation_Forall; [symmetry; apply insert_ordered_perm|].
      constructor; [apply le_total, E | exact Hy].
Qed.

Lemma order_by_sorted (l : list A) :
  StronglySorted (fun a b => le a b = true) (order_by le l).
Proof.
  induction l as [|x l IH]; [constructor|].
  unfold order_by in *. cbn [foldr]. apply insert_ordered_sorted, IH.
Qed.

End OrderBy.

Lemma StronglySorted_drop {A : Type} (R : A -> A -> Prop) (n : nat) (l : list A) :
  StronglySorted R l -> StronglySorted R (drop n l).
Proof.
  revert l. induction n as [|n IH]; intros l Hl; [rewrite drop_0; exact Hl|].
  destruct Hl as [|x l Hl _]; [constructor | apply IH, Hl].
Qed.

Lemma StronglySorted_take {A : Type} (R : A -> A -> Prop) (n : nat) (l : list A) :
  StronglySorted R l -> StronglySorted R (take n l).
Proof.
  intros Hl. revert n. induction Hl as [|x l Hl IH Hx]; intros n;
    [rewrite take_nil; constructor|].
  destruct n as [|n]; [constructor|]. cbn [take]. constructor; [apply IH|].
  apply Forall_take, Hx.
Qed.

Lemma StronglySorted_lookup_lt {A : Type} (R : A -> A -> Prop) (l : list A)
    (i j : nat) (a b : A) :
  StronglySorted R l -> (i < j)%nat -> l !! i = Some a -> l !! j = Some b -> R a b.
Proof.
  intros Hl. revert i j a b. induction Hl as [|x l Hl IH Hx]; intros i j a b Hij Hi Hj.
  - rewrite lookup_nil in Hi. discriminate.
  - destruct j as [|j]; [lia|]. cbn in Hj. destruct i as [|i].
    + cbn in Hi. injection Hi as <-. rewrite Forall_forall in Hx. apply Hx.
      eapply list_elem_of_lookup_2, Hj.
    + cbn in Hi. apply (IH i j); [lia | assumption | assumption].
Qed.

(** ** The order of the report *)

Lemma text_lt_irrefl (a : string) : ~ String_as_OT.lt a a.
Proof. exact (@StrictOrder_Irreflexive _ _ String_as_OT.lt_strorder a). Qed.

Lemma text_lt_trans (a b c : string) :
  String_as_OT.lt a b -> String_as_OT.lt b c -> String_as_OT.lt a c.
Proof. exact (@StrictOrder_Transitive _ _ String_as_OT.lt_strorder a b c). Qed.

Lemma text_compare_eq (a b : string) : text_compare a b = Eq <-> a = b.
Proof.
  unfold text_compare. destruct (String_as_OT.compare_spec a b) as [E|L|L].
  - split; [intros _; exact E | reflexivity].
  - split; [discriminate | intros ->; destruct (text_lt_irrefl _ L)].
  - split; [discriminate | intros ->; destruct (text_lt_irrefl _ L)].
Qed.

Lemma text_compare_antisym (a b : string) : text_compare b a = CompOpp (text_compare a b).
Proof.
  unfold text_compare.
  destruct (String_as_OT.compare_spec a b) as [E|L|L],
           (String_as_OT.compare_spec b a) as [E'|L'|L']; cbn [CompOpp];
    try reflexivity; exfalso; unfold String_as_OT.eq in *.
  - subst. exact (text_lt_irrefl _ L').
  - subst. exact (text_lt_irrefl _ L').
  - subst. exact (text_lt_irrefl _ L).
  - exact (text_lt_irrefl _ (text_lt_trans _ _ _ L L')).
  - subst. exact (text_lt_irrefl _ L).
  - exact (text_lt_irrefl _ (text_lt_trans _ _ _ L L')).
Qed.

Lemma text_compare_lt_trans (a b c : string) :
  text_compare a b = Lt -> text_compare b c = Lt -> text_compare a c = Lt.
Proof. apply text_lt_trans. Qed.

(** What [report_le a b] says, key by key. *)
Lemma report_le_spec (a b : ticket) :
  report_le a b = true <->
  text_compare (customer_snapshot a) (customer_snapshot b) = Lt \/
  (customer_snapshot a = customer_snapshot b /\
   (direction_rank (direction a) < direction_rank (direction b) \/
    (direction_rank (direction a) = direction_rank (direction b) /\
     ticket_id b <= ticket_id a))).
Proof.
  unfold report_le, report_compare, then_by, not_after.
  destruct (text_compare (customer_snapshot a) (customer_snapshot b)) eqn:C.
  - apply text_compare_eq in C.
    destruct (Z.compare_spec (direction_rank (direction a)) (direction_rank (direction b)));
      destruct (Z.compare_spec (ticket_id b) (ticket_id a)); split;
      try (intros _; right; split; [exact C|]; lia); try discriminate;
      try reflexivity; intros [[=]|[_ HH]]; lia.
  - split; [intros _; left; reflexivity | reflexivity].
  - split; [discriminate|]. intros [[=]|[E _]].
    apply text_compare_eq in E. congruence.
Qed.

Lemma report_le_total (a b : ticket) : report_le a b = false -> report_le b a = true.
Proof.
  intros H. apply report_le_spec.
  destruct (text_compare (customer_snapshot b) (customer_snapshot a)) eqn:C.
  - right. apply text_compare_eq in C. split; [exact C|].
    destruct (Z_lt_le_dec (direction_rank (direction b)) (direction_rank (direction a)))
      as [L|G]; [left; exact L|].
    destruct (Z.eq_dec (direction_rank (direction b)) (direction_rank (direction a)))
      as [E|N].
    + destruct (Z_le_gt_dec (ticket_id a) (ticket_id b)) as [L|G']; [right; auto|].
      exfalso. assert (report_le a b = true); [|congruence].
      apply report_le_spec. right. split; [congruence|]. right. split; [congruence | lia].
    + exfalso. assert (report_le a b = true); [|congruence].
      apply report_le_spec. right. split; [congruence|]. left. lia.
  - left. reflexivity.
  - exfalso. assert (report_le a b = true); [|congruence].
    apply report_le_spec. left. rewrite text_compare_antisym, C. reflexivity.
Qed.

Lemma report_le_trans (a b c : ticket) :
  report_le a b = true -> report_le b c = true -> report_le a c = true.
Proof.
  rewrite !report_le_spec.
  intros [L1|[E1 H1]] [L2|[E2 H2]].
  - left. eapply text_compare_lt_trans; eassumption.
  - left. rewrite <- E2. exact L1.
  - left. rewrite E1. exact L2.
  - right. split; [congruence|]. lia.
Qed.

(** ** Running the report handlers *)

Lemma run_reports `{Runtime} (me : nat) (today_first today_second : Z) (args : report_args)
    (d : database) :
  run me (reports today_first today_second args) None d =
  match request_offset args with
  | None => (inl (ValueError "invalid literal for int() with base 10"), None, d)
  | Some offset =>
      let fl := with_default_window today_first today_second (request_filters args) in
      (inr {| rv_tickets := report_page fl offset (db_store d);
              rv_offset := offset;
              rv_totals_by_unit := totals_by_unit fl (db_store d);
              rv_totals_by_material := totals_by_material fl (db_store d);
              rv_filters := fl |}, None, d)
  end.
Proof. unfold reports. destruct (request_offset args); reflexivity. Qed.

Lemma run_export_reports_csv `{Runtime} (me : nat) (args : report_args) (d : database) :
  run me (export_reports_csv args) None d =
  (inr {| ev_tickets := export_tickets (request_filters args) (db_store d);
          ev_totals_by_unit := totals_by_unit (request_filters args) (db_store d);
          ev_totals_by_material := totals_by_material (request_filters args) (db_store d) |},
   None, d).
Proof. reflexivity. Qed.

Lemma reports_view `{Runtime} (me : nat) (today_first today_second : Z) (args : report_args)
    (d : database) (view : report_view) (txn' : option store) (d' : database) :
  run me (reports today_first today_second args) None d = (inr view, txn', d') ->
  request_offset args = Some (rv_offset view) /\
  rv_filters view = with_default_window today_first today_second (request_filters args) /\
  rv_tickets view = report_page (rv_filters view) (rv_offset view) (db_store d) /\
  rv_totals_by_unit view = totals_by_unit (rv_filters view) (db_store d) /\
  rv_totals_by_material view = totals_by_material (rv_filters view) (db_store d) /\
  txn' = None /\ d' = d.
Proof.
  rewrite run_reports. destruct (request_offset args) as [offset|]; [|discriminate].
  cbv zeta. intros [= <- <- <-]. cbn. repeat split; reflexivity.
Qed.

(** ** The order of the report page (C8) *)

Lemma direction_rank_cases (d : string) :
  (d = "IN" /\ direction_rank d = 1) \/
  (d = "OUT" /\ direction_rank d = 2) \/
  (d <> "IN" /\ d <> "OUT" /\ direction_rank d = 3).
Proof.
  unfold direction_rank.
  destruct (String.eqb_spec d "IN") as [->|N1]; [left; auto|].
  destruct (String.eqb_spec d "OUT") as [->|N2]; [right; left; auto|].
  right; right; auto.
Qed.

(** C8. The page of the interactive report is the slice of at most 20 rows,
    starting at the offset, of the selected tickets put in order. The offset
    is the integer the [offset] parameter of the request denotes, zero
    without that parameter, and the selection is that of the filters of the
    request. Any two rows of the page, [a] before [b], satisfy: the customer of [a] is not after the
    customer of [b]; under the same customer, [b] is IN only if [a] is IN,
    and [b] is IN or OUT only if [a] is, so that IN comes before OUT and
    every other direction comes last; under the same customer and direction
    the id of [a] is not below the id of [b]. *)
Theorem report_page_is_ordered `{Runtime} (me : nat) (today_first today_second : Z)
    (args : report_args) (d : database) (view : report_view)
    (txn' : option store) (d' : database) :
  run me (reports today_first today_second args) None d = (inr view, txn', d') ->
  match ra_offset args with
  | Some text => py_int text = Some (rv_offset view)
  | None => rv_offset view = 0
  end /\
  rv_filters view = with_default_window today_first today_second (request_filters args) /\
  (length (rv_tickets view) <= 20)%nat /\
  (exists ordered,
      Permutation ordered (filtered (rv_filters view) (db_store d)) /\
      StronglySorted (fun a b => report_le a b = true) ordered /\
      rv_tickets view = take 20 (drop (Z.to_nat (rv_offset view)) ordered)) /\
  (forall i j a b,
      (i < j)%nat -> rv_tickets view !! i = Some a -> rv_tickets view !! j = Some b ->
      text_compare (customer_snapshot a) (customer_snapshot b) <> Gt /\
      (customer_snapshot a = customer_snapshot b ->
       (direction b = "IN" -> direction a = "IN") /\
       (direction b = "OUT" -> direction a = "IN" \/ direction a = "OUT") /\
       (direction a = direction b -> ticket_id b <= ticket_id a))).
Proof.
  intros R. apply reports_view in R as (Hoffset & Hfilters & Hpage & _).
  assert (StronglySorted (fun a b => report_le a b = true)
            (order_by report_le (filtered (rv_filters view) (db_store d)))) as Hsorted
    by (apply order_by_sorted; [apply report_le_total | apply report_le_trans]).
  split; [|split; [exact Hfilters|split; [|split]]].
  - unfold request_offset in Hoffset. destruct (ra_offset args); [exact Hoffset|].
    injection Hoffset as <-. reflexivity.
  - rewrite Hpage. unfold report_page, page_of. rewrite length_take. lia.
  - exists (order_by report_le (filtered (rv_filters view) (db_store d))).
    split; [apply order_by_perm|]. split; [exact Hsorted | exact Hpage].
  - intros i j a b Hij Hi Hj.
    assert (report_le a b = true) as Hle.
    { rewrite Hpage in Hi, Hj. unfold report_page, page_of in Hi, Hj.
      apply (StronglySorted_lookup_lt (fun a b => report_le a b = true) _ i j a b
               (StronglySorted_take _ _ _ (StronglySorted_drop _ _ _ Hsorted)) Hij Hi Hj). }
    apply report_le_spec in Hle. split.
    + destruct Hle as [L|[E _]]; [rewrite L; discriminate|].
      apply text_compare_eq in E. rewrite E. discriminate.
    + intros Ec. destruct Hle as [L|[_ Hrank]].
      { apply text_compare_eq in Ec. congruence. }
      destruct (direction_rank_cases (direction a)) as [[Ea Ra]|[[Ea Ra]|(Na1 & Na2 & Ra)]],
               (direction_rank_cases (direction b)) as [[Eb Rb]|[[Eb Rb]|(Nb1 & Nb2 & Rb)]];
        repeat split; try intros; try congruence; try lia; auto.
Qed.

Lemma report_page_is_ordered_witness :
  exists view,
    run 0 (@reports Reference.runtime Yard.today Yard.today Yard.no_filter) None Yard.yard
      = (inr view, None, Yard.yard) /\
    map ticket_id (rv_tickets view) = [3; 2; 4] /\
    rv_offset view = 0 /\
    (length (rv_tickets view) <= 20)%nat /\
    (forall i j a b,
        (i < j)%nat -> rv_tickets view !! i = Some a -> rv_tickets view !! j = Some b ->
        text_compare (customer_snapshot a) (customer_snapshot b) <> Gt /\
        (customer_snapshot a = customer_snapshot b ->
         (direction b = "IN" -> direction a = "IN") /\
         (direction b = "OUT" -> direction a = "IN" \/ direction a = "OUT") /\
         (direction a = direction b -> ticket_id b <= ticket_id a))).
Proof.
  eexists. split; [vm_compute; reflexivity|]. split; [vm_compute; reflexivity|].
  pose proof (@report_page_is_ordered Reference.runtime 0%nat Yard.today Yard.today
                Yard.no_filter Yard.yard _ None Yard.yard eq_refl)
    as (Hoffset & _ & Hlen & _ & Hord).
  split; [exact Hoffset|]. split; [exact Hlen | exact Hord].
Defined.

(** ** Facts about GROUP BY and SUM *)

Lemma exact_sum_app (l1 l2 : list Q) :
  (exact_sum (l1 ++ l2) == exact_sum l1 + exact_sum l2)%Q.
Proof.
  induction l1 as [|x l1 IH]; cbn [exact_sum app].
  - ring.
  - rewrite IH. ring.
Qed.

Lemma exact_sum_perm (l1 l2 : list Q) :
  Permutation l1 l2 -> (exact_sum l1 == exact_sum l2)%Q.
Proof.
  induction 1 as [|x l1 l2 _ IH|x y l|l1 l2 l3 _ IH1 _ IH2]; cbn [exact_sum].
  - reflexivity.
  - rewrite IH. reflexivity.
  - ring.
  - rewrite IH1. exact IH2.
Qed.

Lemma exact_sum_concat (ls : list (list Q)) :
  (exact_sum (concat ls) == exact_sum (map exact_sum ls))%Q.
Proof.
  induction ls as [|l ls IH]; cbn [concat map exact_sum]; [reflexivity|].
  rewrite exact_sum_app, IH. reflexivity.
Qed.

Section GroupBy.
Context `{Runtime} {K : Type} (eqb : K -> K -> bool).
Hypothesis eqb_spec : forall a b, eqb a b = true <-> a = b.
Variable key : ticket -> K.

Lemma eqb_refl (k : K) : eqb k k = true.
Proof. apply eqb_spec. reflexivity. Qed.

Lemma existsb_eqb_In (k : K) (l : list K) : existsb (eqb k) l = true <-> In k l.
Proof.
  rewrite existsb_exists. split.
  - intros (x & Hx & E). apply eqb_spec in E. subst. exact Hx.
  - intros Hk. exists k. split; [exact Hk | apply eqb_refl].
Qed.

Lemma distinct_In (k : K) (keys : list K) : In k (distinct eqb keys) <-> In k keys.
Proof.
  induction keys as [|k' keys IH]; cbn [distinct]; [reflexivity|].
  cbn [In]. rewrite filter_In, IH. split.
  - intros [E|[Hk _]]; auto.
  - intros [E|Hk]; [left; exact E|].
    destruct (eqb k k') eqn:E; [left; symmetry; apply eqb_spec, E|].
    right. split; [exact Hk | reflexivity].
Qed.

Lemma distinct_NoDup (keys : list K) : List.NoDup (distinct eqb keys).
Proof.
  induction keys as [|k keys IH]; cbn [distinct]; constructor.
  - rewrite filter_In. intros [_ E]. rewrite eqb_refl in E. discriminate.
  - apply List.NoDup_filter, IH.
Qed.

(** One more row goes to the group of its key, and to no other. *)
Lemma groups_cons (t : ticket) (rows : list ticket) (keys : list K) :
  List.NoDup keys ->
  Permutation (concat (map (fun k => group_of eqb key k (t :: rows)) keys))
              ((if existsb (eqb (key t)) keys then [t] else [])
               ++ concat (map (fun k => group_of eqb key k rows) keys)).
Proof.
  induction keys as [|k keys IH]; intros Hn; [reflexivity|].
  apply List.NoDup_cons_iff in Hn as [Hk Hn]. specialize (IH Hn).
  cbn [map concat existsb]. unfold group_of at 1. cbn [List.filter].
  fold (group_of eqb key k rows).
  destruct (eqb (key t) k) eqn:E; cbn [orb].
  - apply eqb_spec in E. subst k.
    assert (existsb (eqb (key t)) keys = false) as Ex.
    { destruct (existsb (eqb (key t)) keys) eqn:Ex; [|reflexivity].
      apply existsb_eqb_In in Ex. contradiction. }
    rewrite Ex in IH. cbn [app] in IH |- *. apply perm_skip, Permutation_app_head, IH.
  - rewrite IH. destruct (existsb (eqb (key t)) keys); cbn [app]; [|reflexivity].
    symmetry. apply Permutation_middle.
Qed.

(** GROUP BY puts every row in the group of one key. *)
Lemma groups_partition (rows : list ticket) (keys : list K) :
  List.NoDup keys -> (forall t, In t rows -> In (key t) keys) ->
  Permutation (concat (map (fun k => group_of eqb key k rows) keys)) rows.
Proof.
  intros Hn. induction rows as [|t rows IH]; intros Hall.
  - assert (concat (map (fun k => group_of eqb key k []) keys) = []) as ->; [|reflexivity].
    clear. induction keys as [|k keys IH]; [reflexivity | exact IH].
  - rewrite (groups_cons t rows keys Hn).
    assert (existsb (eqb (key t)) keys = true) as ->
      by (apply existsb_eqb_In, Hall; left; reflexivity).
    cbn [app]. apply perm_skip, IH. intros x Hx. apply Hall. right. exact Hx.
Qed.

Lemma group_sum_keys (rows : list ticket) :
  map fst (group_sum eqb key rows) = distinct eqb (map key rows).
Proof.
  unfold group_sum. rewrite map_map. cbn [fst]. apply map_id.
Qed.

Lemma group_sum_entry (rows : list ticket) (k : K) (total : option double) :
  In (k, total) (group_sum eqb key rows) ->
  In k (map key rows) /\ total = sql_sum (map quantity (group_of eqb key k rows)).
Proof.
  unfold group_sum. rewrite in_map_iff. intros (k' & [= -> <-] & Hk).
  split; [apply distinct_In, Hk | reflexivity].
Qed.

(** The rows of a grouped and ordered query, whatever is made of each SUM. *)
Lemma grouped_totals {A : Type} (made : option double -> A)
    (le : K * A -> K * A -> bool) (rows : list ticket) :
  let table :=
    order_by le (map (fun row => (fst row, made (snd row))) (group_sum eqb key rows)) in
  List.NoDup (map fst table) /\
  (forall k total,
      In (k, total) table ->
      In k (map key rows) /\
      total = made (sql_sum (map quantity (group_of eqb key k rows)))) /\
  (forall t, In t rows -> exists total, In (key t, total) table) /\
  Permutation (concat (map (fun row => group_of eqb key (fst row) rows) table)) rows.
Proof.
  cbv zeta.
  set (made_rows := map (fun row => (fst row, made (snd row))) (group_sum eqb key rows)).
  pose proof (order_by_perm le made_rows) as Hp.
  assert (map fst made_rows = distinct eqb (map key rows)) as Hkeys.
  { unfold made_rows. rewrite map_map. cbn [fst]. apply group_sum_keys. }
  assert (Permutation (map fst (order_by le made_rows)) (distinct eqb (map key rows))) as Hpk.
  { rewrite <- Hkeys. apply Permutation_map, Hp. }
  split; [|split; [|split]].
  - eapply Permutation_NoDup; [symmetry; exact Hpk | apply distinct_NoDup].
  - intros k total Hin. eapply Permutation_in in Hin; [|exact Hp].
    unfold made_rows in Hin. apply in_map_iff in Hin as ([k' total'] & [= -> <-] & Hin).
    apply group_sum_entry in Hin as [Hk ->]. split; [exact Hk | reflexivity].
  - intros t Ht.
    assert (In (key t) (map fst (order_by le made_rows))) as Hk.
    { eapply Permutation_in; [symmetry; exact Hpk|]. apply distinct_In, in_map, Ht. }
    apply in_map_iff in Hk as ([k total] & Ek & Hin). cbn in Ek. subst k.
    exists total. exact Hin.
  - rewrite <- (map_map fst (fun k => group_of eqb key k rows)).
    apply groups_partition.
    + eapply Permutation_NoDup; [symmetry; exact Hpk | apply distinct_NoDup].
    + intros t Ht. eapply Permutation_in; [symmetry; exact Hpk|].
      apply distinct_In, in_map, Ht.
Qed.

(** With exact additions, the sums over the groups add up to the sum over
    all the rows. *)
Lemma grouped_exact_sums {A : Type} (exact : double -> Q) (table : list (K * A))
    (rows : list ticket) :
  Permutation (concat (map (fun row => group_of eqb key (fst row) rows) table)) rows ->
  (exact_sum
     (map (fun row => exact_sum
                        (map (fun t => exact (quantity t)) (group_of eqb key (fst row) rows)))
          table)
   == exact_sum (map (fun t => exact (quantity t)) rows))%Q.
Proof.
  intros Hp.
  rewrite <- (exact_sum_perm _ _ (Permutation_map (fun t => exact (quantity t)) Hp)).
  rewrite concat_map, exact_sum_concat, !map_map. reflexivity.
Qed.

End GroupBy.

(** ** The totals of the report (C4) *)

Lemma pair_eqb_spec (a b : string * string) : pair_eqb a b = true <-> a = b.
Proof.
  destruct a as [a1 a2], b as [b1 b2]. unfold pair_eqb. cbn [fst snd].
  rewrite andb_true_iff, !String.eqb_eq. split; [intros [-> ->]; reflexivity|].
  intros [= -> ->]. auto.
Qed.

(** C4, as amended. Whatever the offset, the two tables of totals of the
    interactive report are computed from all the selected tickets: every
    selected ticket is counted in the row of its unit, and in the row of its
    material and unit; no key has two rows and every row has a ticket; the
    total of a row is what SQLite's SUM makes of the quantities of the
    selected tickets of its key, taken in the order of the table, and zero
    when that SUM is NULL. The rows of a table thus share out the selected
    tickets, so that with exact additions their sums add up to the sum of
    the quantities of the selection; and the same query with another offset
    gives the same two tables. *)
Theorem report_totals_cover_the_selection `{Runtime} (me : nat)
    (today_first today_second : Z) (args : report_args) (d : database)
    (view : report_view) (txn' : option store) (d' : database) :
  run me (reports today_first today_second args) None d = (inr view, txn', d') ->
  let rows := filtered (rv_filters view) (db_store d) in
  let of_unit := fun u => List.filter (fun t => String.eqb (unit_ t) u) rows in
  let of_material_unit := fun m u =>
    List.filter (fun t => String.eqb (material_name_snapshot t) m
                          && String.eqb (unit_ t) u) rows in
  (forall u total,
      In (u, total) (rv_totals_by_unit view) ->
      of_unit u <> [] /\
      total = default (Float.of_Z 0) (sql_sum (map quantity (of_unit u)))) /\
  (forall m u total,
      In (m, u, total) (rv_totals_by_material view) ->
      of_material_unit m u <> [] /\
      total = default (Float.of_Z 0) (sql_sum (map quantity (of_material_unit m u)))) /\
  (forall t, In t rows ->
             (exists total, In (unit_ t, total) (rv_totals_by_unit view)) /\
             (exists total,
                 In (material_name_snapshot t, unit_ t, total) (rv_totals_by_material view))) /\
  List.NoDup (map fst (rv_totals_by_unit view)) /\
  List.NoDup (map fst (rv_totals_by_material view)) /\
  Permutation (concat (map (fun row => of_unit (fst row)) (rv_totals_by_unit view))) rows /\
  Permutation (concat (map (fun row => of_material_unit (fst (fst row)) (snd (fst row)))
                           (rv_totals_by_material view))) rows /\
  (forall exact : double -> Q,
      (exact_sum
         (map (fun row => exact_sum (map (fun t => exact (quantity t)) (of_unit (fst row))))
              (rv_totals_by_unit view))
       == exact_sum (map (fun t => exact (quantity t)) rows))%Q /\
      (exact_sum
         (map (fun row => exact_sum
                            (map (fun t => exact (quantity t))
                                 (of_material_unit (fst (fst row)) (snd (fst row)))))
              (rv_totals_by_material view))
       == exact_sum (map (fun t => exact (quantity t)) rows))%Q) /\
  (forall offset view2 txn2 d2,
      run me (reports today_first today_second (with_offset args offset)) None d
        = (inr view2, txn2, d2) ->
      rv_totals_by_unit view2 = rv_totals_by_unit view /\
      rv_totals_by_material view2 = rv_totals_by_material view).
Proof.
  intros R. cbv zeta.
  pose proof (reports_view _ _ _ _ _ _ _ _ R) as (_ & Hfl & _ & Hu & Hm & _).
  rewrite Hu, Hm. unfold totals_by_unit, totals_by_material.
  set (rows := filtered (rv_filters view) (db_store d)).
  destruct (grouped_totals String.eqb String.eqb_eq unit_ (default (Float.of_Z 0)) unit_le rows)
    as (Un & Ue & Uc & Up).
  destruct (grouped_totals pair_eqb pair_eqb_spec
              (fun t => (material_name_snapshot t, unit_ t)) (default (Float.of_Z 0))
              material_unit_le rows) as (Mn & Me & Mc & Mp).
  split; [|split; [|split; [|split; [|split; [|split; [|split; [|split]]]]]]].
  - intros u total Hin. destruct (Ue u total Hin) as [Hk Ht]. split; [|exact Ht].
    apply in_map_iff in Hk as (t & Et & Ht'). intros E.
    assert (In t (List.filter (fun t => String.eqb (unit_ t) u) rows)) as Hf
      by (apply filter_In; split; [exact Ht' | apply String.eqb_eq, Et]).
    rewrite E in Hf. destruct Hf.
  - intros m u total Hin. destruct (Me (m, u) total Hin) as [Hk Ht]. split; [|exact Ht].
    apply in_map_iff in Hk as (t & Et & Ht'). intros E.
    assert (In t (List.filter (fun t => String.eqb (material_name_snapshot t) m
                                         && String.eqb (unit_ t) u) rows)) as Hf.
    { apply filter_In. split; [exact Ht'|]. injection Et as <- <-.
      rewrite !String.eqb_refl. reflexivity. }
    rewrite E in Hf. destruct Hf.
  - intros t Ht. split; [exact (Uc t Ht) | exact (Mc t Ht)].
  - exact Un.
  - exact Mn.
  - exact Up.
  - exact Mp.
  - intros exact. split.
    + exact (grouped_exact_sums String.eqb unit_ exact _ rows Up).
    + exact (grouped_exact_sums pair_eqb (fun t => (material_name_snapshot t, unit_ t))
               exact _ rows Mp).
  - intros offset view2 txn2 d2 R2.
    apply reports_view in R2 as (_ & Hfl2 & _ & Hu2 & Hm2 & _).
    change (request_filters (with_offset args offset)) with (request_filters args) in Hfl2.
    rewrite Hu2, Hm2, Hfl2, <- Hfl. split; reflexivity.
Qed.

Lemma report_totals_cover_the_selection_witness :
  exists view,
    run 0 (@reports Reference.runtime Yard.today Yard.today Yard.no_filter) None Yard.yard
      = (inr view, None, Yard.yard) /\
    rv_totals_by_unit view = [("Load", Float.of_Z 1); ("Ton", Reference.decimal 65 1)] /\
    List.NoDup (map fst (rv_totals_by_unit view)) /\
    (forall offset view2 txn2 d2,
        run 0 (@reports Reference.runtime Yard.today Yard.today
                 (with_offset Yard.no_filter offset)) None Yard.yard
          = (inr view2, txn2, d2) ->
        rv_totals_by_unit view2 = rv_totals_by_unit view /\
        rv_totals_by_material view2 = rv_totals_by_material view).
Proof.
  eexists. split; [vm_compute; reflexivity|]. split; [vm_compute; reflexivity|].
  pose proof (@report_totals_cover_the_selection Reference.runtime 0%nat Yard.today
                Yard.today Yard.no_filter Yard.yard _ None Yard.yard eq_refl)
    as (_ & _ & _ & Hn & _ & _ & _ & _ & Hoffset).
  split; [exact Hn | exact Hoffset].
Defined.

(** The claim as the specification words it fails: the additions are those
    of IEEE doubles, each rounded. Of three selected tickets of 0.1 Load,
    0.2 Ton and 0.3 Ton the totals by unit are 0.1 and 0.5 and add up to
    0.6, while the quantities of the selection add up to
    0.6000000000000001. *)
Lemma grouped_sums_are_rounded :
  exists view,
    run 0 (@reports Reference.runtime Yard.today Yard.today Yard.no_filter) None Yard.tenths
      = (inr view, None, Yard.tenths) /\
    map quantity (@filtered Reference.runtime (rv_filters view) (db_store Yard.tenths))
      = [Reference.decimal 1 1; Reference.decimal 2 1; Reference.decimal 3 1] /\
    rv_totals_by_unit view = [("Load", Reference.decimal 1 1); ("Ton", Reference.decimal 5 1)] /\
    Float.sum (map snd (rv_totals_by_unit view))
      = S754_finite false 5404319552844595 (-53) /\
    Float.sum (map snd (rv_totals_by_material view))
      = S754_finite false 5404319552844595 (-53) /\
    Float.sum (map quantity (@filtered Reference.runtime (rv_filters view)
                               (db_store Yard.tenths)))
      = S754_finite false 5404319552844596 (-53) /\
    Float.sum (map snd (rv_totals_by_unit view))
      <> Float.sum (map quantity (@filtered Reference.runtime (rv_filters view)
                                    (db_store Yard.tenths))) /\
    Float.sum (map snd (rv_totals_by_material view))
      <> Float.sum (map quantity (@filtered Reference.runtime (rv_filters view)
                                    (db_store Yard.tenths))).
Proof.
  eexists. split; [vm_compute; reflexivity|].
  repeat split; try (vm_compute; reflexivity); vm_compute; discriminate.
Qed.

(** The totals of the second page are those of the first. *)
Example totals_do_not_follow_the_page :
  match run 0 (@reports Reference.runtime Yard.today Yard.today
                 (with_offset Yard.no_filter (Some "2"))) None Yard.yard with
  | (inr view, _, _) =>
      (map ticket_id (rv_tickets view), rv_totals_by_unit view, rv_totals_by_material view)
      = ([4], [("Load", Float.of_Z 1); ("Ton", Reference.decimal 65 1)],
         [("Gravel", "Load", Float.of_Z 1); ("Gravel", "Ton", Float.of_Z 4);
          ("Sand", "Ton", Reference.decimal 25 1)])
  | _ => False
  end.
Proof. vm_compute. reflexivity. Qed.

(** ** The report and its export (C3) *)

Lemma truthy_false (s : string) : truthy s = false <-> s = "".
Proof. unfold truthy. rewrite negb_false_iff. apply String.eqb_eq. Qed.

Lemma truthy_true (s : string) : truthy s = true <-> s <> "".
Proof. unfold truthy. rewrite negb_true_iff. apply String.eqb_neq. Qed.

(** With a date-from or a date-to, the interactive report and the CSV export
    of the same query select on the same filters, those requested, and
    return identical totals by unit and by material; the report lists the
    page of at most 20 of the selected tickets at its offset, the export the
    first 1000 of them by descending id. *)
Lemma dated_report_and_export_agree `{Runtime} (me : nat)
    (today_first today_second : Z) (args : report_args) (d : database)
    (view : report_view) (export : export_view)
    (txn1 txn2 : option store) (d1 d2 : database) :
  run me (reports today_first today_second args) None d = (inr view, txn1, d1) ->
  run me (export_reports_csv args) None d = (inr export, txn2, d2) ->
  fl_date_from (request_filters args) <> "" \/ fl_date_to (request_filters args) <> "" ->
  let rows := filtered (request_filters args) (db_store d) in
  rv_filters view = request_filters args /\
  ev_totals_by_unit export = rv_totals_by_unit view /\
  ev_totals_by_material export = rv_totals_by_material view /\
  rv_tickets view = take 20 (drop (Z.to_nat (rv_offset view)) (order_by report_le rows)) /\
  ev_tickets export = take 1000 (order_by id_desc_le rows).
Proof.
  intros R1 R2 Hdated.
  apply reports_view in R1 as (_ & Hfl & Hpage & Hu & Hm & _).
  rewrite run_export_reports_csv in R2. injection R2 as <- _ _.
  cbn [ev_tickets ev_totals_by_unit ev_totals_by_material]. cbv zeta.
  assert (rv_filters view = request_filters args) as Hsame.
  { rewrite Hfl. unfold with_default_window.
    destruct Hdated as [N|N]; apply truthy_true in N; rewrite N; cbn;
      rewrite ?andb_false_r; reflexivity. }
  rewrite Hu, Hm, Hpage, Hsame. repeat split; reflexivity.
Qed.

Lemma where_clause_undated `{Runtime} (fl : filters) (t : ticket) :
  fl_date_from fl = "" -> fl_date_to fl = "" -> where_clause fl t = where_undated fl t.
Proof. intros Ef Et. unfold where_clause, where_undated. rewrite Ef, Et. reflexivity. Qed.

Lemma run_print_reports `{Runtime} (me : nat) (args : report_args) (d : database) :
  run me (print_reports args) None d =
  (inr {| pv_tickets := order_by print_le (filtered (raw_filters args) (db_store d));
          pv_totals_by_unit :=
            order_by unit_le (group_sum String.eqb unit_ (filtered (raw_filters args)
                                                            (db_store d)));
          pv_totals_by_material :=
            order_by material_unit_le
              (group_sum pair_eqb (fun t => (material_name_snapshot t, unit_ t))
                 (filtered (raw_filters args) (db_store d))) |},
   None, d).
Proof. reflexivity. Qed.

(** C3. The same query without a date-from and a date-to, sent to the three
    views. The interactive report selects on the window from 14 days before
    today through today: its filters are the requested ones with those two
    dates, and, the two dates being read back by SQLite as the days they
    denote, every selected ticket was created on a day of that window. The
    CSV export and the print variant apply no window: they select every
    stored ticket that meets the conditions on direction, job and material,
    whatever its date, the export listing the first 1000 of them by
    descending id and the print variant all of them; their totals are those
    of that selection. *)
Theorem default_window_is_applied_by_the_report_only `{Runtime} (me : nat)
    (today_first today_second : Z) (args : report_args) (d : database)
    (view : report_view) (export : export_view) (printed : print_view)
    (txn1 txn2 txn3 : option store) (d1 d2 d3 : database) :
  run me (reports today_first today_second args) None d = (inr view, txn1, d1) ->
  run me (export_reports_csv args) None d = (inr export, txn2, d2) ->
  run me (print_reports args) None d = (inr printed, txn3, d3) ->
  get_or_empty (ra_date_from args) = "" ->
  get_or_empty (ra_date_to args) = "" ->
  let undated := fun fl => List.filter (where_undated fl) (tbl_tickets (db_store d)) in
  rv_filters view =
    {| fl_date_from := date_isoformat (today_second - 14);
       fl_date_to := date_isoformat today_first;
       fl_direction := fl_direction (request_filters args);
       fl_job_id := fl_job_id (request_filters args);
       fl_material_id := fl_material_id (request_filters args) |} /\
  rv_tickets view
    = take 20 (drop (Z.to_nat (rv_offset view))
                 (order_by report_le (filtered (rv_filters view) (db_store d)))) /\
  rv_totals_by_unit view = totals_by_unit (rv_filters view) (db_store d) /\
  rv_totals_by_material view = totals_by_material (rv_filters view) (db_store d) /\
  (date_isoformat (today_second - 14) <> "" -> date_isoformat today_first <> "" ->
   sql_date (date_isoformat (today_second - 14)) = Some (today_second - 14) ->
   sql_date (date_isoformat today_first) = Some today_first ->
   forall t, In t (filtered (rv_filters view) (db_store d)) <->
             In t (undated (request_filters args)) /\
             exists day, sql_date (created_at t) = Some day /\
                         today_second - 14 <= day <= today_first) /\
  ev_tickets export = take 1000 (order_by id_desc_le (undated (request_filters args))) /\
  ev_totals_by_unit export
    = order_by unit_le (map coalesce_zero
                          (group_sum String.eqb unit_ (undated (request_filters args)))) /\
  ev_totals_by_material export
    = order_by material_unit_le
        (map coalesce_zero
           (group_sum pair_eqb (fun t => (material_name_snapshot t, unit_ t))
              (undated (request_filters args)))) /\
  pv_tickets printed = order_by print_le (undated (raw_filters args)) /\
  pv_totals_by_unit printed
    = order_by unit_le (group_sum String.eqb unit_ (undated (raw_filters args))) /\
  pv_totals_by_material printed
    = order_by material_unit_le
        (group_sum pair_eqb (fun t => (material_name_snapshot t, unit_ t))
           (undated (raw_filters args))).
Proof.
  intros R1 R2 R3 Ef Et. cbv zeta.
  apply reports_view in R1 as (_ & Hfl & Hpage & Hu & Hm & _).
  rewrite run_export_reports_csv in R2. injection R2 as <- _ _.
  rewrite run_print_reports in R3. injection R3 as <- _ _.
  cbn [ev_tickets ev_totals_by_unit ev_totals_by_material
       pv_tickets pv_totals_by_unit pv_totals_by_material].
  assert (fl_date_from (request_filters args) = "") as Ef'
    by (cbn [request_filters fl_date_from]; rewrite Ef; reflexivity).
  assert (fl_date_to (request_filters args) = "") as Et'
    by (cbn [request_filters fl_date_to]; rewrite Et; reflexivity).
  assert (rv_filters view =
          {| fl_date_from := date_isoformat (today_second - 14);
             fl_date_to := date_isoformat today_first;
             fl_direction := fl_direction (request_filters args);
             fl_job_id := fl_job_id (request_filters args);
             fl_material_id := fl_material_id (request_filters args) |}) as Hwin.
  { rewrite Hfl. unfold with_default_window. rewrite Ef', Et'. reflexivity. }
  assert (filtered (request_filters args) (db_store d)
          = List.filter (where_undated (request_filters args)) (tbl_tickets (db_store d)))
    as Hexport.
  { unfold filtered. apply filter_ext. intros t.
    apply where_clause_undated; assumption. }
  assert (filtered (raw_filters args) (db_store d)
          = List.filter (where_undated (raw_filters args)) (tbl_tickets (db_store d)))
    as Hprint.
  { unfold filtered. apply filter_ext. intros t.
    apply where_clause_undated; assumption. }
  split; [exact Hwin|]. split; [exact Hpage|]. split; [exact Hu|]. split; [exact Hm|].
  split.
  - intros Nf Nt Sf St t. unfold filtered. rewrite !filter_In.
    rewrite Hwin. unfold where_clause, where_undated.
    cbn [fl_date_from fl_date_to fl_direction fl_job_id fl_material_id].
    apply truthy_true in Nf, Nt. rewrite Nf, Nt, Sf, St.
    rewrite !andb_true_iff. split.
    + intros (Hin & (((Hfrom & Hto) & Hd) & Hj) & Hmat).
      split; [split; [exact Hin | auto]|].
      destruct (sql_date (created_at t)) as [day|]; [|discriminate].
      exists day. split; [reflexivity|]. cbn [both] in Hfrom, Hto. lia.
    + intros ((Hin & (Hd & Hj) & Hmat) & day & Eday & Hday).
      split; [exact Hin|]. rewrite Eday. cbn [both].
      repeat split; try assumption; lia.
  - unfold totals_by_unit, totals_by_material, export_tickets.
    rewrite Hexport, Hprint. repeat split; reflexivity.
Qed.

Lemma default_window_is_applied_by_the_report_only_witness :
  exists view export printed,
    run 0 (@reports Reference.runtime Yard.today Yard.today Yard.no_filter) None Yard.yard
      = (inr view, None, Yard.yard) /\
    run 0 (@export_reports_csv Reference.runtime Yard.no_filter) None Yard.yard
      = (inr export, None, Yard.yard) /\
    run 0 (@print_reports Reference.runtime Yard.no_filter) None Yard.yard
      = (inr printed, None, Yard.yard) /\
    get_or_empty (ra_date_from Yard.no_filter) = "" /\
    get_or_empty (ra_date_to Yard.no_filter) = "" /\
    rv_filters view =
      {| fl_date_from := "2025-02-15"; fl_date_to := "2025-03-01";
         fl_direction := ""; fl_job_id := ""; fl_material_id := "" |} /\
    ev_tickets export
      = take 1000 (order_by id_desc_le
                     (List.filter (@where_undated Reference.runtime
                                     (@request_filters Reference.runtime Yard.no_filter))
                        (tbl_tickets (db_store Yard.yard)))) /\
    map ticket_id (rv_tickets view) = [3; 2; 4] /\
    map ticket_id (ev_tickets export) = [4; 3; 2; 1] /\
    map ticket_id (pv_tickets printed) = [3; 1; 2; 4] /\
    map created_at (List.filter (fun t => ticket_id t =? 1) (ev_tickets export))
      = ["2025-01-05T09:00:00"] /\
    rv_totals_by_unit view = [("Load", Float.of_Z 1); ("Ton", Reference.decimal 65 1)] /\
    ev_totals_by_unit export = [("Load", Float.of_Z 1); ("Ton", Reference.decimal 165 1)] /\
    rv_totals_by_unit view <> ev_totals_by_unit export.
Proof.
  eexists. eexists. eexists.
  split; [vm_compute; reflexivity|]. split; [vm_compute; reflexivity|].
  split; [vm_compute; reflexivity|]. split; [reflexivity|]. split; [reflexivity|].
  destruct (@default_window_is_applied_by_the_report_only Reference.runtime 0%nat
              Yard.today Yard.today Yard.no_filter Yard.yard _ _ _ None None None
              Yard.yard Yard.yard Yard.yard eq_refl eq_refl eq_refl eq_refl eq_refl)
    as (Hwin & _ & _ & _ & _ & Hexport & _).
  split; [etransitivity; [exact Hwin | vm_compute; reflexivity]|].
  split; [exact Hexport|].
  repeat split; try (vm_compute; reflexivity).
  vm_compute. discriminate.
Defined.

(** * Further properties of the handlers *)

(** ** Ticket creation: the checks before the transaction *)

(** The job part of the snapshot is always computed: the split at " - " gives
    two parts whenever the separator occurs. *)
Lemma job_snapshot_returns (job_row : option job) (job_entry customer : string) :
  exists job_part, job_snapshot job_row job_entry customer = Ret job_part.
Proof.
  unfold job_snapshot. destruct job_row as [j|]; [eexists; reflexivity|].
  destruct (Text.contains " - " job_entry) eqn:C; [|eexists; reflexivity].
  destruct (split1_present _ _ C) as (before & after & -> & _).
  eexists; reflexivity.
Qed.

(** X5. A request whose quantity text is not a number is answered by a
    validation error (that one, or the one of an earlier check), whatever the
    state of the file and of its lock; the run opens no transaction and
    changes nothing. *)
Theorem non_numeric_quantity_is_rejected `{Runtime} (me : nat) (clk : clock) (f : form)
    (d : database) :
  py_float (fd_quantity (read_form f)) = None ->
  exists m,
    run me (new_ticket clk f) None d = (inr (Redirect "new_ticket" "error" m), None, d).
Proof.
  intros Hq. unfold new_ticket. cbv zeta.
  destruct (direction_ok (fd_direction (read_form f))); cbn [negb];
    [|eexists; reflexivity].
  destruct (required_present (read_form f)); cbn [negb]; [|eexists; reflexivity].
  rewrite run_bind, run_lookup.
  rewrite run_bind, run_lookup.
  rewrite run_bind, run_lookup.
  rewrite run_bind.
  destruct (job_snapshot_returns
              (if truthy (fd_job_id (read_form f))
               then find_job (fd_job_id (read_form f)) (db_store d) else None)
              (fd_job_entry (read_form f)) (fd_customer (read_form f))) as [job_part ->].
  cbn [run]. rewrite Hq. eexists; reflexivity.
Qed.

Lemma non_numeric_quantity_is_rejected_witness :
  Reference.parse_decimal (fd_quantity (@read_form Reference.runtime Depot.form_with_bad_quantity)) = None /\
  exists m,
    run 3 (@new_ticket Reference.runtime Scenario.clock_2025 Depot.form_with_bad_quantity)
        None Depot.locked_depot
    = (inr (Redirect "new_ticket" "error" m), None, Depot.locked_depot).
Proof.
  split; [reflexivity|].
  apply (@non_numeric_quantity_is_rejected Reference.runtime). reflexivity.
Defined.

(** ** Ticket creation: what a stored ticket holds *)

(** X1. A request that stores a ticket and whose identifiers resolve: the
    ticket keeps the id, code and name of the job row, the id and number of
    the truck row, the id and name of the material row, whatever texts were
    typed and whether or not the rows are active; its customer is the one
    typed, trimmed of its white space, or the customer of the job row,
    trimmed as well, when none was typed. An identifier that does not resolve
    leaves the reference empty. *)
Theorem cache_rows_fill_the_snapshot `{Runtime} (me : nat) (clk : clock) (f : form)
    (d : database) (r : result response) (txn' : option store) (d' : database) :
  db_writer d <> Some me ->
  run me (new_ticket clk f) None d = (r, txn', d') ->
  tbl_tickets (db_store d') <> tbl_tickets (db_store d) ->
  exists t,
    tbl_tickets (db_store d') = tbl_tickets (db_store d) ++ [t] /\
    (forall j, job_row_of f d = Some j ->
               job_id t = Some (jc_id j) /\
               job_code_snapshot t = jc_job_code j /\
               job_name_snapshot t = jc_job_name j /\
               customer_snapshot t =
                 (if truthy (fd_customer (read_form f)) then fd_customer (read_form f)
                  else Text.strip (jc_customer j)) /\
               Text.trimmed (get_or_empty (fm_customer f)) (fd_customer (read_form f)) /\
               (fd_customer (read_form f) = "" ->
                Text.trimmed (jc_customer j) (customer_snapshot t))) /\
    (job_row_of f d = None ->
     job_id t = None /\ customer_snapshot t = fd_customer (read_form f)) /\
    (forall k, truck_row_of f d = Some k ->
               truck_id t = Some (tr_id k) /\ truck_number_snapshot t = tr_truck_number k) /\
    (truck_row_of f d = None -> truck_id t = None) /\
    (forall m, material_row_of f d = Some m ->
               material_id t = Some (ma_id m) /\
               material_name_snapshot t = ma_material_name m) /\
    (material_row_of f d = None -> material_id t = None).
Proof.
  intros W R Hne.
  destruct (new_ticket_committed me clk f d r txn' d' W R Hne)
    as (job_part & q & created & pdf_bytes & path & H0).
  cbv zeta in H0.
  destruct H0 as (_ & _ & Hj & _ & _ & _ & _ & _ & _ & _ & Ht & _).
  eexists. split; [exact Ht|].
  destruct job_part as [[[jid code] name] cust].
  cbn [job_id job_code_snapshot job_name_snapshot customer_snapshot truck_id
       truck_number_snapshot material_id material_name_snapshot with_id ticket_of
       snapshot_of sn_job_id_value sn_job_code sn_job_name sn_customer
       sn_truck_id_value sn_truck_number sn_material_id_value sn_material_name].
  split; [|split; [|split; [|split; [|split]]]].
  - intros j Ej. rewrite Ej in Hj. cbn [job_snapshot] in Hj.
    injection Hj as <- <- <- <-.
    split; [reflexivity|]. split; [reflexivity|]. split; [reflexivity|].
    split; [reflexivity|]. split; [apply strip_trimmed|].
    intros E. cbn [read_form fd_customer] in E |- *. rewrite E. apply strip_trimmed.
  - intros Ej. rewrite Ej in Hj. unfold job_snapshot in Hj.
    destruct (Text.contains " - " (fd_job_entry (read_form f))).
    + destruct (map Text.strip _) as [|a [|b [|c l]]]; try discriminate.
      injection Hj as <- _ _ <-. auto.
    + injection Hj as <- _ _ <-. auto.
  - intros k ->. auto.
  - intros ->. reflexivity.
  - intros m ->. auto.
  - intros ->. reflexivity.
Qed.

Lemma cache_rows_fill_the_snapshot_witness :
  let run_result :=
    run 0 (@new_ticket Reference.runtime Scenario.clock_2025 Depot.selected_form)
        None Depot.depot in
  db_writer Depot.depot <> Some 0%nat /\
  tbl_tickets (db_store (snd run_result)) <> tbl_tickets (db_store Depot.depot) /\
  exists t,
    tbl_tickets (db_store (snd run_result)) = [t] /\
    job_id t = Some 1 /\ job_code_snapshot t = "J100" /\ job_name_snapshot t = "Main St" /\
    customer_snapshot t = "Acme Paving" /\
    truck_id t = Some 1 /\ truck_number_snapshot t = "T12" /\
    material_id t = Some 2 /\ material_name_snapshot t = "Sand".
Proof.
  cbv zeta.
  assert (db_writer Depot.depot <> Some 0%nat) as W by discriminate.
  assert (tbl_tickets (db_store (snd (run 0 (@new_ticket Reference.runtime Scenario.clock_2025
            Depot.selected_form) None Depot.depot)))
          <> tbl_tickets (db_store Depot.depot)) as N
    by (vm_compute; discriminate).
  split; [exact W|]. split; [exact N|].
  destruct (@cache_rows_fill_the_snapshot Reference.runtime 0%nat Scenario.clock_2025
              Depot.selected_form Depot.depot _ _ _ W eq_refl N)
    as (t & Ht & _).
  exists t. split; [exact Ht|].
  vm_compute in Ht. injection Ht as <-.
  repeat split; reflexivity.
Defined.

(** X2. Printing comes after the commit: when a ticket was stored for a
    request with the print box checked and the printer fails, the answer
    reports the failure, and yet the ticket is in the table, nothing is
    pending and the write lock is free. *)
Theorem print_failure_keeps_the_ticket `{Runtime} (me : nat) (clk : clock) (f : form)
    (d : database) (r : result response) (txn' : option store) (d' : database) (e : exn) :
  db_writer d <> Some me ->
  run me (new_ticket clk f) None d = (r, txn', d') ->
  tbl_tickets (db_store d') <> tbl_tickets (db_store d) ->
  fd_auto_print (read_form f) = true ->
  (forall path, print_pdf_file path = inl e) ->
  r = inr (Redirect "new_ticket" "error"
             ("Ticket saved, but print failed: " +:+ exn_message e)) /\
  txn' = None /\ db_writer d' = None /\
  exists t, tbl_tickets (db_store d') = tbl_tickets (db_store d) ++ [t] /\
            serve me (new_ticket clk f) d = (r, d').
Proof.
  intros W R Hne Hauto Hprint.
  destruct (new_ticket_committed me clk f d r txn' d' W R Hne)
    as (job_part & q & created & pdf_bytes & path & H0).
  cbv zeta in H0.
  destruct H0 as (_ & _ & _ & _ & _ & _ & _ & Hr & Htxn & Hw & Ht & _).
  split.
  - rewrite Hr. unfold after_commit. rewrite Hauto, Hprint. reflexivity.
  - split; [exact Htxn|]. split; [exact Hw|]. eexists. split; [exact Ht|].
    unfold serve. rewrite R. f_equal. unfold close_db, release. rewrite Hw. reflexivity.
Qed.

Lemma print_failure_keeps_the_ticket_witness :
  let run_result :=
    run 0 (@new_ticket Reference.runtime Scenario.clock_2025 Depot.selected_form)
        None Depot.depot in
  fst (fst run_result)
    = inr (Redirect "new_ticket" "error"
             ("Ticket saved, but print failed: "
              +:+ "Automatic printing is currently implemented for Windows only.")) /\
  map ticket_number (tbl_tickets (db_store (snd run_result))) = ["DT-2025-000001"].
Proof.
  cbv zeta.
  assert (db_writer Depot.depot <> Some 0%nat) as W by discriminate.
  assert (tbl_tickets (db_store (snd (run 0 (@new_ticket Reference.runtime Scenario.clock_2025
            Depot.selected_form) None Depot.depot)))
          <> tbl_tickets (db_store Depot.depot)) as N
    by (vm_compute; discriminate).
  split.
  - exact (proj1 (@print_failure_keeps_the_ticket Reference.runtime 0%nat
                    Scenario.clock_2025 Depot.selected_form Depot.depot _ _ _
                    (RuntimeError "Automatic printing is currently implemented for Windows only.")
                    W eq_refl N eq_refl (fun _ => eq_refl))).
  - vm_compute. reflexivity.
Defined.

(** X3. While another connection holds the write lock, a ticket creation
    changes nothing and opens no transaction; a request that passes the
    checks made before the transaction fails with "database is locked". *)
Theorem busy_database_is_left_alone `{Runtime} (me : nat) (clk : clock) (f : form)
    (d : database) (r : result response) (txn' : option store) (d' : database) :
  locked_by_other me d = true ->
  run me (new_ticket clk f) None d = (r, txn', d') ->
  txn' = None /\ d' = d /\
  (direction_ok (fd_direction (read_form f)) = true ->
   required_present (read_form f) = true ->
   is_Some (py_float (fd_quantity (read_form f))) ->
   r = inl busy).
Proof.
  intros L. unfold new_ticket. cbv zeta.
  destruct (direction_ok (fd_direction (read_form f))); cbn [negb];
    [|intros [= _ <- <-]; repeat split; discriminate].
  destruct (required_present (read_form f)); cbn [negb];
    [|intros [= _ <- <-]; repeat split; discriminate].
  rewrite run_bind, run_lookup. rewrite run_bind, run_lookup.
  rewrite run_bind, run_lookup. rewrite run_bind.
  destruct (job_snapshot_returns
              (if truthy (fd_job_id (read_form f))
               then find_job (fd_job_id (read_form f)) (db_store d) else None)
              (fd_job_entry (read_form f)) (fd_customer (read_form f))) as [job_part ->].
  cbn [run].
  destruct (py_float (fd_quantity (read_form f))).
  - rewrite run_bind, run_transaction_busy by exact L. intros [= <- <- <-].
    repeat split; reflexivity.
  - intros [= _ <- <-]. repeat split; try reflexivity.
    intros _ _ [q [=]].
Qed.

Lemma busy_database_is_left_alone_witness :
  locked_by_other 0 Depot.locked_depot = true /\
  run 0 (@new_ticket Reference.runtime Scenario.clock_2025 Depot.selected_form)
      None Depot.locked_depot
    = (inl busy, None, Depot.locked_depot).
Proof.
  split; [reflexivity|].
  destruct (@busy_database_is_left_alone Reference.runtime 0%nat Scenario.clock_2025
              Depot.selected_form Depot.locked_depot _ _ _ eq_refl eq_refl)
    as (_ & _ & Hbusy).
  reflexivity.
Defined.

(** ** Ticket creation: what it leaves alone *)

Lemma next_rowid_fresh (ids : list Z) (x : Z) : In x ids -> x < next_rowid ids.
Proof.
  unfold next_rowid. induction ids as [|y ids IH]; intros Hin; [destruct Hin|].
  cbn [foldr]. destruct Hin as [->|Hin]; [lia|]. specialize (IH Hin). lia.
Qed.

Lemma next_rowid_positive (ids : list Z) : 0 < next_rowid ids.
Proof.
  unfold next_rowid. assert (0 <= foldr Z.max 0 ids); [|lia].
  induction ids as [|y ids IH]; cbn [foldr]; lia.
Qed.

(** X4. A ticket creation writes to the tickets and to the counter of the
    current year, nowhere else: the jobs cache, the trucks and the materials
    are as before; the rows of the tickets table are kept as they are, with
    at most one row added after them, under an id above all the others; the
    counter of the current year goes up by one exactly when a row is added,
    and the counters of the other years keep their rows. *)
Theorem new_ticket_writes_only_tickets `{Runtime} (me : nat) (clk : clock) (f : form)
    (d : database) (r : result response) (txn' : option store) (d' : database) :
  db_writer d <> Some me ->
  run me (new_ticket clk f) None d = (r, txn', d') ->
  tbl_jobs_cache (db_store d') = tbl_jobs_cache (db_store d) /\
  tbl_trucks (db_store d') = tbl_trucks (db_store d) /\
  tbl_materials (db_store d') = tbl_materials (db_store d) /\
  (forall y, y <> now_year clk ->
             tbl_ticket_sequence (db_store d') !! y = tbl_ticket_sequence (db_store d) !! y) /\
  ((tbl_tickets (db_store d') = tbl_tickets (db_store d) /\
    tbl_ticket_sequence (db_store d') = tbl_ticket_sequence (db_store d)) \/
   (exists t,
       tbl_tickets (db_store d') = tbl_tickets (db_store d) ++ [t] /\
       (forall x, In x (tbl_tickets (db_store d)) -> ticket_id x < ticket_id t) /\
       last_value (now_year clk) (db_store d')
         = last_value (now_year clk) (db_store d) + 1)).
Proof.
  intros W R. pose proof (new_ticket_outcomes me clk f d W) as O. rewrite R in O.
  inversion O as [m | e | early | job_part q created pdf_bytes path s2
    v sn year seq number Hd Hr Hj Hq Hc Hp Hs Hi]; subst;
    try (repeat split; auto; fail).
  apply insert_ticket_inr in Hi as (Ht & Hseq & Hjobs & Htrucks & Hmat).
  cbn [db_store]. rewrite Hjobs, Htrucks, Hmat, Hseq.
  split; [reflexivity|]. split; [reflexivity|]. split; [reflexivity|]. split.
  - intros y Hy. cbn [allocated tbl_ticket_sequence]. rewrite lookup_insert_ne; [reflexivity|].
    intros E. apply Hy. symmetry. exact E.
  - right. eexists. split; [exact Ht|]. split.
    + intros x Hx. cbn [with_id ticket_id allocated tbl_tickets].
      apply next_rowid_fresh, in_map, Hx.
    + unfold last_value at 1. rewrite Hseq. cbn. rewrite lookup_insert_eq. reflexivity.
Qed.

Lemma new_ticket_writes_only_tickets_witness :
  let run_result :=
    run 0 (@new_ticket Reference.runtime Scenario.clock_2025 Depot.selected_form)
        None Depot.depot in
  db_writer Depot.depot <> Some 0%nat /\
  tbl_jobs_cache (db_store (snd run_result)) = tbl_jobs_cache (db_store Depot.depot) /\
  tbl_trucks (db_store (snd run_result)) = tbl_trucks (db_store Depot.depot) /\
  tbl_materials (db_store (snd run_result)) = tbl_materials (db_store Depot.depot).
Proof.
  cbv zeta.
  assert (db_writer Depot.depot <> Some 0%nat) as W by discriminate.
  split; [exact W|].
  destruct (@new_ticket_writes_only_tickets Reference.runtime 0%nat Scenario.clock_2025
              Depot.selected_form Depot.depot _ _ _ W eq_refl) as (Hj & Ht & Hm & _).
  split; [exact Hj|]. split; [exact Ht | exact Hm].
Defined.

(** ** The stored document can be fetched *)

Lemma find_app_fresh {A : Type} (p : A -> bool) (l : list A) (x : A) :
  (forall y, In y l -> p y = false) -> p x = true -> find p (l ++ [x]) = Some x.
Proof.
  intros Hl Hx. induction l as [|y l IH]; cbn [app find].
  - rewrite Hx. reflexivity.
  - rewrite (Hl y (or_introl eq_refl)). apply IH. intros z Hz. apply Hl. right. exact Hz.
Qed.



(** ** Running a synchronisation *)

Lemma upsert_job_cache_row_values (now : string) (v : job_values) (s : store) :
  upsert_job_cache_row (jv_job_code v) (jv_job_name v) (jv_customer v) (jv_active v)
    (jv_source_updated_at v) now s = inr (upsert_values now s v).
Proof. reflexivity. Qed.

(** ** The cells of a CSV row *)

Lemma zipped_get_none (fieldnames values : list string) (col : string) :
  (forall j, (j < length values)%nat -> fieldnames !! j <> Some col) ->
  zipped_get fieldnames values col = None.
Proof.
  revert values. induction fieldnames as [|name fieldnames IH]; intros values Hno;
    [destruct values; reflexivity|].
  destruct values as [|value values]; [reflexivity|]. cbn [zipped_get].
  rewrite IH.
  - destruct (String.eqb_spec name col) as [->|N]; [|reflexivity].
    exfalso. apply (Hno 0%nat); [cbn; lia | reflexivity].
  - intros j Hj. apply (Hno (S j)). cbn. lia.
Qed.



Lemma row_get_absent (fieldnames values : list string) (col : string) :
  ~ In col fieldnames -> row_get fieldnames values col = None.
Proof.
  intros Hno. unfold row_get. destruct (existsb _ _); [reflexivity|].
  apply zipped_get_none. intros j _ Hj. apply Hno.
  apply list_elem_of_In, list_elem_of_lookup. exists j. exact Hj.
Qed.

(** A data row shorter than the header has no job code when the column of
    the code occurs again beyond its end: the row is skipped. *)
Example short_row_is_skipped :
  @source_values Reference.runtime
    (CsvFile ["Job #"; "Job Name"; "Job #"] [ ["J1"; "first"; "J1b"]; ["J2"; "second"] ])
  = inr [ {| jv_job_code := "J1b"; jv_job_name := "first"; jv_customer := "";
             jv_active := 1; jv_source_updated_at := None |} ].
Proof. vm_compute. reflexivity. Qed.

Section SyncCsv.
Context `{Runtime}.
Variables (me : nat) (fieldnames : list string) (job_code_col job_name_col : string)
          (customer_col active_col source_col : option string) (now : string).

Let values_of (rows : list (list string)) : list job_values :=
  omap (csv_row_values fieldnames job_code_col job_name_col customer_col active_col source_col)
       rows.

Let loop (rows : list (list string)) (synced : Z) : prog Z :=
  sync_csv_rows fieldnames job_code_col job_name_col customer_col active_col source_col
    now rows synced.

Lemma sync_csv_rows_step (values : list string) (rows : list (list string)) (synced : Z) :
  loop (values :: rows) synced =
  match csv_row_values fieldnames job_code_col job_name_col customer_col active_col
          source_col values with
  | None => loop rows synced
  | Some v =>
      execute (upsert_job_cache_row (jv_job_code v) (jv_job_name v) (jv_customer v)
                 (jv_active v) (jv_source_updated_at v) now)
      ≫= fun _ => loop rows (synced + 1)
  end.
Proof.
  unfold loop, csv_row_values. cbn [sync_csv_rows].
  destruct (negb (truthy (cell fieldnames values (Some job_code_col)))); reflexivity.
Qed.

Lemma values_of_cons (values : list string) (rows : list (list string)) :
  values_of (values :: rows) =
  match csv_row_values fieldnames job_code_col job_name_col customer_col active_col
          source_col values with
  | Some v => v :: values_of rows
  | None => values_of rows
  end.
Proof. reflexivity. Qed.

Lemma run_sync_csv_rows_in_transaction (rows : list (list string)) (synced : Z)
    (s : store) (d : database) :
  run me (loop rows synced) (Some s) d =
  (inr (synced + Z.of_nat (length (values_of rows))),
   Some (foldl (upsert_values now) s (values_of rows)), d).
Proof.
  revert synced s. induction rows as [|values rows IH]; intros synced s.
  - cbn. rewrite Z.add_0_r. reflexivity.
  - rewrite sync_csv_rows_step, values_of_cons.
    destruct (csv_row_values _ _ _ _ _ _ values) as [v|].
    + rewrite run_bind. cbn [run execute perform do_op].
      rewrite upsert_job_cache_row_values. cbn [run]. rewrite IH.
      cbn [length foldl].
      replace (synced + Z.of_nat (S (length (values_of rows))))
        with (synced + 1 + Z.of_nat (length (values_of rows))) by lia.
      reflexivity.
    + apply IH.
Qed.

Lemma run_sync_csv_rows_autocommit (rows : list (list string)) (synced : Z) (d : database) :
  run me (loop rows synced) None d =
  match values_of rows with
  | [] => (inr synced, None, d)
  | _ :: _ =>
      if locked_by_other me d then (inl busy, None, d)
      else (inr (synced + Z.of_nat (length (values_of rows))),
            Some (foldl (upsert_values now) (db_store d) (values_of rows)),
            {| db_store := db_store d; db_writer := Some me |})
  end.
Proof.
  revert synced. induction rows as [|values rows IH]; intros synced.
  - reflexivity.
  - rewrite sync_csv_rows_step, values_of_cons.
    destruct (csv_row_values _ _ _ _ _ _ values) as [v|].
    + rewrite run_bind. cbn [run execute perform do_op].
      destruct (locked_by_other me d); [reflexivity|].
      rewrite upsert_job_cache_row_values. cbn [run].
      rewrite run_sync_csv_rows_in_transaction.
      cbn [length foldl].
      replace (synced + Z.of_nat (S (length (values_of rows))))
        with (synced + 1 + Z.of_nat (length (values_of rows))) by lia.
      reflexivity.
    + apply IH.
Qed.

End SyncCsv.

Lemma run_sync_odbc_rows_in_transaction (me : nat) (now : string) (rows : list odbc_row)
    (s : store) (d : database) :
  run me (sync_odbc_rows now rows) (Some s) d =
  (inr tt, Some (foldl (upsert_values now) s (map odbc_row_values rows)), d).
Proof.
  revert s. induction rows as [|row rows IH]; intros s; [reflexivity|].
  cbn [sync_odbc_rows]. rewrite run_bind. cbn [run execute perform do_op].
  change (upsert_job_cache_row _ _ _ _ _ now s)
    with (upsert_job_cache_row (jv_job_code (odbc_row_values row))
            (jv_job_name (odbc_row_values row)) (jv_customer (odbc_row_values row))
            (jv_active (odbc_row_values row)) (jv_source_updated_at (odbc_row_values row))
            now s).
  rewrite upsert_job_cache_row_values. cbn [run]. rewrite IH. reflexivity.
Qed.

Lemma run_sync_odbc_rows_autocommit (me : nat) (now : string) (rows : list odbc_row)
    (d : database) :
  run me (sync_odbc_rows now rows) None d =
  match rows with
  | [] => (inr tt, None, d)
  | _ :: _ =>
      if locked_by_other me d then (inl busy, None, d)
      else (inr tt, Some (foldl (upsert_values now) (db_store d) (map odbc_row_values rows)),
            {| db_store := db_store d; db_writer := Some me |})
  end.
Proof.
  destruct rows as [|row rows]; [reflexivity|].
  cbn [sync_odbc_rows]. rewrite run_bind. cbn [run execute perform do_op].
  destruct (locked_by_other me d); [reflexivity|].
  change (upsert_job_cache_row _ _ _ _ _ now (db_store d))
    with (upsert_job_cache_row (jv_job_code (odbc_row_values row))
            (jv_job_name (odbc_row_values row)) (jv_customer (odbc_row_values row))
            (jv_active (odbc_row_values row)) (jv_source_updated_at (odbc_row_values row))
            now (db_store d)).
  rewrite upsert_job_cache_row_values. cbn [run].
  rewrite run_sync_odbc_rows_in_transaction. reflexivity.
Qed.

(** What [refresh_jobs_cache] does on a connection in autocommit mode. *)
Lemma run_refresh_jobs_cache `{Runtime} (me : nat) (now : string) (source : jobs_source)
    (d : database) :
  run me (refresh_jobs_cache now source) None d =
  match source_values source with
  | inl e => (inl e, None, d)
  | inr [] => (inr 0, None, d)
  | inr (v :: vs) =>
      if locked_by_other me d then (inl busy, None, d)
      else (inr (Z.of_nat (length (v :: vs))),
            Some (foldl (upsert_values now) (db_store d) (v :: vs)),
            {| db_store := db_store d; db_writer := Some me |})
  end.
Proof.
  destruct source as [fieldnames rows | [e|rows] | ]; cbn [refresh_jobs_cache source_values];
    try reflexivity.
  - destruct (bool_decide (fieldnames = [])); [reflexivity|]. cbv zeta.
    destruct (first_present fieldnames ["job_code"; "Job #"; "Job#"; "Job Number"])
      as [code_col|]; [|reflexivity].
    destruct (first_present fieldnames ["job_name"; "Job Name"]) as [name_col|];
      [|reflexivity].
    rewrite run_sync_csv_rows_autocommit.
    destruct (omap _ rows); [reflexivity|].
    destruct (locked_by_other me d); reflexivity.
  - rewrite run_bind, run_sync_odbc_rows_autocommit.
    destruct rows as [|row rows]; [reflexivity|]. cbn [map].
    destruct (locked_by_other me d); [reflexivity|].
    cbn [run mret prog_ret length]. rewrite length_map. reflexivity.
Qed.

(** ** Facts about the upsert *)

Lemma upsert_values_jobs (now : string) (s : store) (v : job_values) :
  tbl_jobs_cache (upsert_values now s v) =
  if existsb (fun j => String.eqb (jc_job_code j) (jv_job_code v)) (tbl_jobs_cache s)
  then map (upsert_step now v) (tbl_jobs_cache s)
  else tbl_jobs_cache s ++
       [updated_by now v
          {| jc_id := next_rowid (map jc_id (tbl_jobs_cache s)); jc_job_code := "";
             jc_job_name := ""; jc_customer := ""; jc_active := 0;
             jc_source_updated_at := None; jc_refreshed_at := "" |}].
Proof.
  unfold upsert_values, upsert_job_cache_row. cbn [tbl_jobs_cache].
  destruct (existsb _ (tbl_jobs_cache s)); reflexivity.
Qed.


Lemma foldl_upsert_frame (now : string) (vs : list job_values) (s : store) :
  tbl_tickets (foldl (upsert_values now) s vs) = tbl_tickets s /\
  tbl_ticket_sequence (foldl (upsert_values now) s vs) = tbl_ticket_sequence s /\
  tbl_trucks (foldl (upsert_values now) s vs) = tbl_trucks s /\
  tbl_materials (foldl (upsert_values now) s vs) = tbl_materials s.
Proof.
  revert s. induction vs as [|v vs IH]; intros s; [repeat split; reflexivity|].
  cbn [foldl]. destruct (IH (upsert_values now s v)) as (-> & -> & -> & ->).
  repeat split; reflexivity.
Qed.

Lemma row_merge_cons (now : string) (v : job_values) (vs : list job_values) (j : job) :
  row_merge now (v :: vs) j = row_merge now vs (upsert_step now v j).
Proof. reflexivity. Qed.

Lemma row_merge_snoc (now : string) (v : job_values) (vs : list job_values) (j : job) :
  row_merge now (vs ++ [v]) j = upsert_step now v (row_merge now vs j).
Proof. unfold row_merge. rewrite foldl_app. reflexivity. Qed.

Lemma row_merge_keeps_key (now : string) (vs : list job_values) (j : job) :
  jc_id (row_merge now vs j) = jc_id j /\ jc_job_code (row_merge now vs j) = jc_job_code j.
Proof.
  revert j. induction vs as [|v vs IH]; intros j; [split; reflexivity|].
  rewrite row_merge_cons. destruct (IH (upsert_step now v j)) as [-> ->].
  unfold upsert_step. destruct (String.eqb_spec (jc_job_code j) (jv_job_code v)) as [E|N];
    [|split; reflexivity].
  cbn. split; [reflexivity | symmetry; exact E].
Qed.

Lemma last_with_code_snoc (code : string) (vs : list job_values) (v : job_values) :
  last_with_code code (vs ++ [v]) =
  if String.eqb (jv_job_code v) code then Some v else last_with_code code vs.
Proof. unfold last_with_code. rewrite rev_app_distr. reflexivity. Qed.

(** A row after a series of upserts: rewritten by the last one of its code. *)
Lemma row_merge_last (now : string) (vs : list job_values) (j : job) :
  row_merge now vs j =
  match last_with_code (jc_job_code j) vs with
  | Some v => updated_by now v j
  | None => j
  end.
Proof.
  induction vs as [|v vs IH] using rev_ind; [reflexivity|].
  rewrite row_merge_snoc, last_with_code_snoc. unfold upsert_step.
  destruct (row_merge_keeps_key now vs j) as [Hid Hcode]. rewrite Hcode.
  rewrite (String.eqb_sym (jv_job_code v)).
  destruct (String.eqb (jc_job_code j) (jv_job_code v)); [|exact IH].
  unfold updated_by. rewrite Hid. reflexivity.
Qed.

Lemma last_with_code_none (code : string) (vs : list job_values) :
  last_with_code code vs = None <->
  existsb (fun v => String.eqb (jv_job_code v) code) vs = false.
Proof.
  unfold last_with_code. split.
  - intros Hn. apply not_true_is_false. intros E.
    apply existsb_exists in E as (v & Hv & Ev).
    apply in_rev in Hv. pose proof (find_none _ _ Hn v Hv) as F. cbv beta in F. congruence.
  - intros Hn. destruct (find _ (rev vs)) as [v|] eqn:E; [|reflexivity].
    apply find_some in E as [Hv Ev]. apply in_rev in Hv.
    assert (existsb (fun v => String.eqb (jv_job_code v) code) vs = true)
      by (apply existsb_exists; eauto).
    congruence.
Qed.

(** The rows of the cache are kept, each rewritten by the upserts of its
    code; new rows come after them. *)
Lemma foldl_upsert_jobs (now : string) (vs : list job_values) (s : store) :
  exists added,
    tbl_jobs_cache (foldl (upsert_values now) s vs)
    = map (row_merge now vs) (tbl_jobs_cache s) ++ added.
Proof.
  revert s. induction vs as [|v vs IH]; intros s.
  - exists []. cbn [foldl]. rewrite app_nil_r. unfold row_merge. cbn [foldl].
    symmetry. apply map_id.
  - cbn [foldl]. destruct (IH (upsert_values now s v)) as [added ->].
    rewrite upsert_values_jobs.
    destruct (existsb _ (tbl_jobs_cache s)) eqn:E.
    + exists added. rewrite map_map. reflexivity.
    + eexists. rewrite map_app, <- app_assoc. f_equal.
      apply map_ext_in. intros j Hj. rewrite row_merge_cons. f_equal.
      unfold upsert_step.
      destruct (String.eqb (jc_job_code j) (jv_job_code v)) eqn:Ej; [|reflexivity].
      assert (existsb (fun j => String.eqb (jc_job_code j) (jv_job_code v))
                (tbl_jobs_cache s) = true) by (apply existsb_exists; eauto).
      congruence.
Qed.

Lemma upsert_values_with_jobs (now : string) (s : store) (v : job_values) :
  upsert_values now s v = with_jobs s (tbl_jobs_cache (upsert_values now s v)).
Proof. reflexivity. Qed.












(** ** The handler of the jobs refresh *)

(** What [refresh_jobs] does on a fresh connection. *)
Lemma run_refresh_jobs `{Runtime} (me : nat) (now : string) (source : jobs_source)
    (d : database) :
  db_writer d <> Some me ->
  run me (refresh_jobs now source) None d =
  match source_values source with
  | inl e =>
      (inr (Redirect "new_ticket" "error" ("Jobs refresh failed: " +:+ exn_message e)),
       None, d)
  | inr vs =>
      if locked_by_other me d && negb (bool_decide (vs = [])) then
        (inr (Redirect "new_ticket" "error" ("Jobs refresh failed: " +:+ exn_message busy)),
         None, d)
      else
        (inr (Redirect "new_ticket" "success"
                ("Jobs refresh complete. " +:+ Text.fmt_d (Z.of_nat (length vs))
                 +:+ " rows synced.")),
         None,
         if bool_decide (vs = []) then d
         else {| db_store := foldl (upsert_values now) (db_store d) vs; db_writer := None |})
  end.
Proof.
  intros W.
  assert (release me d = d) as Hrel.
  { unfold release. destruct (db_writer d) as [w|] eqn:E; [|reflexivity].
    destruct (Nat.eqb_spec w me) as [->|]; [congruence|reflexivity]. }
  unfold refresh_jobs. rewrite run_try_except, run_bind, run_refresh_jobs_cache.
  destruct (source_values source) as [e|[|v vs]].
  - rewrite run_bind. cbn [run perform do_op]. rewrite Hrel. reflexivity.
  - rewrite andb_false_r. reflexivity.
  - rewrite andb_true_r.
    destruct (locked_by_other me d).
    + rewrite run_bind. cbn [run perform do_op]. rewrite Hrel. reflexivity.
    + reflexivity.
Qed.

(** One request to [/jobs/refresh], teardown included. *)
Lemma serve_refresh_jobs `{Runtime} (me : nat) (now : string) (source : jobs_source)
    (d : database) :
  db_writer d <> Some me ->
  serve me (refresh_jobs now source) d =
  match source_values source with
  | inl e =>
      (inr (Redirect "new_ticket" "error" ("Jobs refresh failed: " +:+ exn_message e)), d)
  | inr vs =>
      if locked_by_other me d && negb (bool_decide (vs = [])) then
        (inr (Redirect "new_ticket" "error" ("Jobs refresh failed: " +:+ exn_message busy)), d)
      else
        (inr (Redirect "new_ticket" "success"
                ("Jobs refresh complete. " +:+ Text.fmt_d (Z.of_nat (length vs))
                 +:+ " rows synced.")),
         if bool_decide (vs = []) then d
         else {| db_store := foldl (upsert_values now) (db_store d) vs; db_writer := None |})
  end.
Proof.
  intros W.
  assert (release me d = d) as Hrel.
  { unfold release. destruct (db_writer d) as [w|] eqn:E; [|reflexivity].
    destruct (Nat.eqb_spec w me) as [->|]; [congruence|reflexivity]. }
  unfold serve. rewrite (run_refresh_jobs me now source d W). unfold close_db.
  destruct (source_values source) as [e|vs]; [rewrite Hrel; reflexivity|].
  destruct (locked_by_other me d && negb (bool_decide (vs = [])));
    [rewrite Hrel; reflexivity|].
  destruct (bool_decide (vs = [])); [rewrite Hrel; reflexivity|reflexivity].
Qed.

(** The tables a request to [/jobs/refresh] leaves: those before it, or those
    after all the upserts. *)
Lemma serve_refresh_jobs_store `{Runtime} (me : nat) (now : string) (source : jobs_source)
    (d : database) (r : result response) (d' : database) :
  db_writer d <> Some me ->
  serve me (refresh_jobs now source) d = (r, d') ->
  d' = d \/
  exists vs, source_values source = inr vs /\ locked_by_other me d = false /\
             d' = {| db_store := foldl (upsert_values now) (db_store d) vs;
                     db_writer := None |}.
Proof.
  intros W. rewrite (serve_refresh_jobs me now source d W).
  destruct (source_values source) as [e|vs]; [intros [= _ <-]; left; reflexivity|].
  destruct (locked_by_other me d) eqn:L; cbn [andb].
  - destruct (bool_decide (vs = [])); cbn [negb]; intros [= _ <-]; left; reflexivity.
  - destruct (bool_decide (vs = [])); intros [= _ <-]; [left; reflexivity|].
    right. exists vs. repeat split; reflexivity.
Qed.





Lemma NoDup_snoc {A : Type} (l : list A) (x : A) :
  List.NoDup l -> ~ In x l -> List.NoDup (l ++ [x]).
Proof.
  intros Hl Hx. induction l as [|y l IH]; cbn [app].
  - constructor; [intros []|constructor].
  - inversion Hl as [|? ? Hy Hl']; subst. constructor.
    + rewrite in_app_iff. intros [Hin|[->|[]]]; [exact (Hy Hin)|].
      apply Hx. left. reflexivity.
    + apply IH; [exact Hl'|]. intros Hin. apply Hx. right. exact Hin.
Qed.







(** X8. A request to [/jobs/refresh] deletes nothing and writes to the jobs
    cache only: the tickets, the counters, the trucks and the materials are as
    before, and every row of the cache is still at its place under the same id
    and the same code; a row whose code is in no row of the source is as it
    was. *)
Theorem refresh_jobs_deletes_nothing `{Runtime} (me : nat) (now : string)
    (source : jobs_source) (d : database) (r : result response) (d' : database) :
  db_writer d <> Some me ->
  serve me (refresh_jobs now source) d = (r, d') ->
  tbl_tickets (db_store d') = tbl_tickets (db_store d) /\
  tbl_ticket_sequence (db_store d') = tbl_ticket_sequence (db_store d) /\
  tbl_trucks (db_store d') = tbl_trucks (db_store d) /\
  tbl_materials (db_store d') = tbl_materials (db_store d) /\
  forall (i : nat) (j : job),
    tbl_jobs_cache (db_store d) !! i = Some j ->
    exists j', tbl_jobs_cache (db_store d') !! i = Some j' /\
      jc_id j' = jc_id j /\ jc_job_code j' = jc_job_code j /\
      (forall vs, source_values source = inr vs ->
         existsb (fun v => String.eqb (jv_job_code v) (jc_job_code j)) vs = false ->
         j' = j).
Proof.
  intros W S.
  destruct (serve_refresh_jobs_store me now source d r d' W S)
    as [->|(vs & Hvs & _ & ->)].
  - do 4 (split; [reflexivity|]). intros i j Hj. exists j.
    split; [exact Hj|]. do 2 (split; [reflexivity|]). intros; reflexivity.
  - cbn [db_store].
    destruct (foldl_upsert_frame now vs (db_store d)) as (Ht & Hq & Hk & Hm).
    split; [exact Ht|]. split; [exact Hq|]. split; [exact Hk|]. split; [exact Hm|].
    intros i j Hj. destruct (foldl_upsert_jobs now vs (db_store d)) as [added ->].
    exists (row_merge now vs j). split.
    { apply lookup_app_l_Some. rewrite list_lookup_fmap, Hj. reflexivity. }
    destruct (row_merge_keeps_key now vs j) as [Hid Hcode].
    split; [exact Hid|]. split; [exact Hcode|].
    intros vs' Hvs' Hno. rewrite Hvs in Hvs'. injection Hvs' as <-.
    rewrite row_merge_last. apply last_with_code_none in Hno. rewrite Hno. reflexivity.
Qed.

Lemma refresh_jobs_deletes_nothing_witness :
  let d' := snd (serve 0 (@refresh_jobs Reference.runtime "2025-03-01T10:00:00" jobs_file)
                   Depot.depot) in
  tbl_trucks (db_store d') = tbl_trucks (db_store Depot.depot) /\
  tbl_materials (db_store d') = tbl_materials (db_store Depot.depot) /\
  map jc_id (tbl_jobs_cache (db_store d')) = [1; 2].
Proof.
  cbv zeta.
  assert (db_writer Depot.depot <> Some 0%nat) as W by discriminate.
  destruct (@refresh_jobs_deletes_nothing Reference.runtime 0%nat "2025-03-01T10:00:00"
              jobs_file Depot.depot _ _ W (surjective_pairing _)) as (_ & _ & Hk & Hm & _).
  split; [exact Hk|]. split; [exact Hm|]. vm_compute. reflexivity.
Defined.






(** ** Trucks and materials *)

(** A statement that writes, sent in autocommit mode and followed by the
    commit. *)
Lemma run_execute_commit {A : Type} (me : nat) (w : store -> result store) (a : A)
    (d : database) (s' : store) :
  w (db_store d) = inr s' ->
  run me (_ ← execute w; _ ← perform CommitOp; mret a) None d =
  if locked_by_other me d then (inl busy, None, d)
  else (inr a, None, {| db_store := s'; db_writer := None |}).
Proof.
  intros Hw. rewrite run_bind. cbn [run execute perform do_op].
  destruct (locked_by_other me d); [reflexivity|].
  rewrite Hw. cbn [run]. rewrite run_bind. reflexivity.
Qed.

Lemma release_other (me : nat) (d : database) : db_writer d <> Some me -> release me d = d.
Proof.
  intros W. unfold release. destruct (db_writer d) as [w|] eqn:E; [|reflexivity].
  destruct (Nat.eqb_spec w me) as [->|]; [congruence|reflexivity].
Qed.

Lemma serve_toggle_material (me : nat) (id : Z) (d : database) :
  db_writer d <> Some me ->
  serve me (toggle_material id) d =
  if locked_by_other me d then (inl busy, d)
  else (inr "admin_materials",
        {| db_store := material_toggled id (db_store d); db_writer := None |}).
Proof.
  intros W. unfold serve, toggle_material.
  rewrite (run_execute_commit me _ _ d (material_toggled id (db_store d)) eq_refl).
  destruct (locked_by_other me d); unfold close_db; [rewrite (release_other me d W)|];
    reflexivity.
Qed.

Lemma serve_toggle_truck (me : nat) (id : Z) (d : database) :
  db_writer d <> Some me ->
  serve me (toggle_truck id) d =
  if locked_by_other me d then (inl busy, d)
  else (inr "admin_trucks",
        {| db_store := truck_toggled id (db_store d); db_writer := None |}).
Proof.
  intros W. unfold serve, toggle_truck.
  rewrite (run_execute_commit me _ _ d (truck_toggled id (db_store d)) eq_refl).
  destruct (locked_by_other me d); unfold close_db; [rewrite (release_other me d W)|];
    reflexivity.
Qed.






Lemma text_not_after_total (a b : string) :
  not_after (text_compare a b) = false -> not_after (text_compare b a) = true.
Proof.
  rewrite (text_compare_antisym a b). destruct (text_compare a b); cbn; congruence.
Qed.

Lemma text_not_after_trans (a b c : string) :
  not_after (text_compare a b) = true -> not_after (text_compare b c) = true ->
  not_after (text_compare a c) = true.
Proof.
  destruct (text_compare a b) eqn:E1; [| |discriminate];
    (destruct (text_compare b c) eqn:E2; [| |discriminate]); intros _ _.
  - apply text_compare_eq in E1. apply text_compare_eq in E2. subst.
    assert (text_compare c c = Eq) as -> by (apply text_compare_eq; reflexivity).
    reflexivity.
  - apply text_compare_eq in E1. subst. rewrite E2. reflexivity.
  - apply text_compare_eq in E2. subst. rewrite E1. reflexivity.
  - rewrite (text_compare_lt_trans a b c E1 E2). reflexivity.
Qed.

(** The materials the entry form offers: the active ones, by name. *)
Lemma run_list_materials (me : nat) (txn : option store) (d : database) :
  run me list_materials txn d =
  (inr (order_by material_name_le
          (List.filter (fun m => ma_active m =? 1) (tbl_materials (default (db_store d) txn)))),
   txn, d).
Proof. reflexivity. Qed.

Lemma in_offered (m : material) (ms : list material) :
  In m (order_by material_name_le (List.filter (fun m => ma_active m =? 1) ms)) <->
  In m ms /\ ma_active m = 1.
Proof.
  split.
  - intros Hin. eapply Permutation_in in Hin; [|apply order_by_perm].
    apply filter_In in Hin as [Hin E]. split; [exact Hin | apply Z.eqb_eq, E].
  - intros [Hin E]. eapply Permutation_in; [symmetry; apply order_by_perm|].
    apply filter_In. split; [exact Hin | apply Z.eqb_eq, E].
Qed.

Lemma material_toggled_rows (id : Z) (s : store) :
  tbl_materials (material_toggled id s) =
  map (fun m => if ma_id m =? id then with_active (toggled (ma_active m)) m else m)
      (tbl_materials s).
Proof. reflexivity. Qed.

(** X12. Switching a material changes what the entry form offers, and only
    for that material: the form lists the active materials by name; after the
    switch a material that was listed is no longer listed under that id, one
    that was not active is listed as active, and the materials of every other
    id are listed exactly as before. *)
Theorem toggled_material_leaves_the_form (me : nat) (id : Z) (d d' : database)
    (r : result string) :
  db_writer d = None ->
  List.NoDup (map ma_id (tbl_materials (db_store d))) ->
  serve me (toggle_material id) d = (r, d') ->
  exists before after,
    (forall me', run me' list_materials None d = (inr before, None, d)) /\
    (forall me', run me' list_materials None d' = (inr after, None, d')) /\
    StronglySorted (fun a b => material_name_le a b = true) after /\
    (forall m, ma_id m <> id -> (In m after <-> In m before)) /\
    (forall m, In m before -> ma_id m = id ->
               forall m', In m' after -> ma_id m' <> id) /\
    (forall m, In m (tbl_materials (db_store d)) -> ma_id m = id -> ma_active m <> 1 ->
               In (with_active 1 m) after).
Proof.
  intros Wn Hids S.
  rewrite serve_toggle_material in S by (rewrite Wn; discriminate).
  unfold locked_by_other in S. rewrite Wn in S. injection S as _ <-.
  do 2 eexists. split; [intros me'; apply run_list_materials|].
  split; [intros me'; apply run_list_materials|].
  cbn [default db_store]. rewrite material_toggled_rows.
  set (ms := tbl_materials (db_store d)) in *.
  split.
  { apply order_by_sorted.
    - intros a b. apply text_not_after_total.
    - intros a b c. apply text_not_after_trans. }
  split; [|split].
  - intros m Hm. rewrite !in_offered, in_map_iff. split.
    + intros [(m0 & E & Hm0) Ha]. split; [|exact Ha].
      destruct (Z.eqb_spec (ma_id m0) id) as [E0|N0].
      * subst m. cbn in Hm. contradiction.
      * subst m. exact Hm0.
    + intros [Hin Ha]. split; [|exact Ha]. exists m. split; [|exact Hin].
      destruct (Z.eqb_spec (ma_id m) id); [contradiction|reflexivity].
  - intros m Hm Hid m' Hm' Hid'.
    apply in_offered in Hm as [Hin Ha].
    apply in_offered in Hm' as [Hin' Ha'].
    apply in_map_iff in Hin' as (m0 & E & Hm0).
    destruct (Z.eqb_spec (ma_id m0) id) as [E0|N0].
    + assert (m0 = m) as ->.
      { clear - Hids Hin Hm0 Hid E0. induction ms as [|x l IH]; [destruct Hin|].
        cbn [map] in Hids. inversion Hids as [|? ? Hx Hl]; subst.
        destruct Hin as [->|Hin], Hm0 as [->|Hm0].
        - reflexivity.
        - exfalso. apply Hx. rewrite <- E0. apply in_map. exact Hm0.
        - exfalso. apply Hx. rewrite E0. apply in_map. exact Hin.
        - apply IH; assumption. }
      subst m'. cbn in Ha'. rewrite Ha in Ha'. discriminate.
    + subst m'. contradiction.
  - intros m Hin Hid Ha. apply in_offered. split; [|reflexivity].
    apply in_map_iff. exists m. split; [|exact Hin].
    apply Z.eqb_eq in Hid. rewrite Hid. unfold toggled.
    destruct (Z.eqb_spec (ma_active m) 1); [contradiction|reflexivity].
Qed.

Lemma toggled_material_leaves_the_form_witness :
  exists before after,
    (forall me', run me' list_materials None Depot.depot = (inr before, None, Depot.depot)) /\
    (forall me', run me' list_materials None (snd (serve 0 (toggle_material 1) Depot.depot))
                 = (inr after, None, snd (serve 0 (toggle_material 1) Depot.depot))) /\
    (forall m, In m before -> ma_id m = 1 -> forall m', In m' after -> ma_id m' <> 1).
Proof.
  assert (List.NoDup (map ma_id (tbl_materials (db_store Depot.depot)))) as Hids.
  { cbn. constructor; [intros [E|[]]; discriminate|].
    constructor; [intros []|constructor]. }
  destruct (toggled_material_leaves_the_form 0%nat 1 Depot.depot _ _ eq_refl Hids
              (surjective_pairing _))
    as (before & after & Hb & Ha & _ & _ & Hoff & _).
  exists before, after. split; [exact Hb|]. split; [exact Ha | exact Hoff].
Defined.

(** X13. Adding a material, on a free database. The name is the text of the
    form trimmed of its white space. A name that is blank, that is made of
    white space only, is refused and no INSERT is sent. A new name is stored
    once, active, under a fresh id after the rows already there, and
    committed. A name already in the table is refused and changes nothing;
    the handler then returns with its transaction still open and the write
    lock held, which the teardown of the request releases. *)
Theorem material_is_added_once (me : nat) (field : option string) (d : database)
    (r : result (response + list material)) (txn' : option store) (d' : database) :
  db_writer d = None ->
  run me (admin_materials "POST" field) None d = (r, txn', d') ->
  let name := Text.strip (get_or_empty field) in
  let rows := tbl_materials (db_store d) in
  Text.trimmed (get_or_empty field) name /\
  (truthy name = false <-> Text.blank (get_or_empty field)) /\
  if negb (truthy name) then
    r = inr (inl (Redirect "admin_materials" "error" "Material name is required.")) /\
    txn' = None /\ d' = d /\
    admin_materials "POST" field
      = Ret (inl (Redirect "admin_materials" "error" "Material name is required."))
  else if existsb (fun m => String.eqb (ma_material_name m) name) rows then
    r = inr (inl (Redirect "admin_materials" "error" "Material already exists.")) /\
    txn' = Some (db_store d) /\ db_store d' = db_store d /\ db_writer d' = Some me /\
    close_db me txn' d' = d
  else
    r = inr (inl (Redirect "admin_materials" "success" "Material added.")) /\
    txn' = None /\ db_writer d' = None /\
    tbl_materials (db_store d')
      = rows ++ [ {| ma_id := next_rowid (map ma_id rows); ma_material_name := name;
                     ma_active := 1 |} ] /\
    (forall m, In m rows -> ma_id m < next_rowid (map ma_id rows)) /\
    tbl_tickets (db_store d') = tbl_tickets (db_store d) /\
    tbl_ticket_sequence (db_store d') = tbl_ticket_sequence (db_store d) /\
    tbl_jobs_cache (db_store d') = tbl_jobs_cache (db_store d) /\
    tbl_trucks (db_store d') = tbl_trucks (db_store d).
Proof.
  intros Wn. cbv zeta. intros R.
  split; [apply strip_trimmed|]. split.
  { rewrite truthy_false. split; [apply strip_empty_blank | apply strip_blank]. }
  revert R. unfold admin_materials. cbn [String.eqb Ascii.eqb Bool.eqb].
  cbv zeta.
  destruct (negb (truthy (Text.strip (get_or_empty field)))).
  - intros [= <- <- <-]. repeat split; reflexivity.
  - rewrite run_bind, run_try_except, run_bind. cbn [run execute perform do_op].
    unfold locked_by_other. rewrite Wn. unfold insert_material.
    destruct (existsb _ (tbl_materials (db_store d))).
    + cbn [run mret prog_ret]. intros [= <- <- <-]. cbn [db_store db_writer].
      split; [reflexivity|]. split; [reflexivity|]. split; [reflexivity|].
      split; [reflexivity|].
      unfold close_db, release. cbn [db_writer db_store]. rewrite Nat.eqb_refl.
      destruct d as [s w]. cbn in Wn. subst w. reflexivity.
    + cbn [run]. rewrite run_bind. cbn [run perform do_op mret prog_ret].
      intros [= <- <- <-]. cbn [db_store db_writer tbl_materials tbl_tickets
                                 tbl_ticket_sequence tbl_jobs_cache tbl_trucks].
      split; [reflexivity|]. split; [reflexivity|]. split; [reflexivity|].
      split; [reflexivity|].
      split; [|repeat split; reflexivity].
      intros m Hm. apply next_rowid_fresh, in_map, Hm.
Qed.

Lemma material_is_added_once_witness :
  fst (fst (run 0 (admin_materials "POST" (Some " Gravel ")) None Depot.depot))
    = inr (inl (Redirect "admin_materials" "error" "Material already exists.")) /\
  db_writer (snd (run 0 (admin_materials "POST" (Some " Gravel ")) None Depot.depot))
    = Some 0%nat /\
  map ma_material_name
      (tbl_materials
         (db_store (snd (run 0 (admin_materials "POST" (Some "Topsoil")) None Depot.depot))))
    = ["Gravel"; "Sand"; "Topsoil"].
Proof.
  pose proof (material_is_added_once 0%nat (Some " Gravel ") Depot.depot _ _ _ eq_refl
                (surjective_pairing _ )) as H1.
  pose proof (material_is_added_once 0%nat (Some "Topsoil") Depot.depot _ _ _ eq_refl
                (surjective_pairing _ )) as H2.
  destruct H1 as (_ & _ & H1). destruct H2 as (_ & _ & H2).
  vm_compute in H1. destruct H1 as (Hr & _ & _ & Hw & _).
  vm_compute in H2. destruct H2 as (_ & _ & _ & Hrows & _).
  split; [exact Hr|]. split; [exact Hw|].
  change (map ma_material_name
            (tbl_materials
               (db_store (snd (run 0 (admin_materials "POST" (Some "Topsoil")) None
                                 Depot.depot)))))
    with (map ma_material_name
            [ {| ma_id := 1; ma_material_name := "Gravel"; ma_active := 1 |};
              {| ma_id := 2; ma_material_name := "Sand"; ma_active := 0 |};
              {| ma_id := 3; ma_material_name := "Topsoil"; ma_active := 1 |} ]).
  reflexivity.
Defined.

(** X14. Changes to the trucks and the materials never alter a ticket:
    whatever the state of the lock, after a toggle of a material or of a truck
    and after a request to the materials page, the tickets and the counters
    are as before, so that the stored document of every ticket is fetched as
    before. *)
Theorem reference_changes_keep_the_tickets (me : nat) (d : database) :
  db_writer d <> Some me ->
  (forall id, same_tickets d (snd (serve me (toggle_material id) d))) /\
  (forall id, same_tickets d (snd (serve me (toggle_truck id) d))) /\
  (forall method field, same_tickets d (snd (serve me (admin_materials method field) d))) /\
  (forall d', same_tickets d d' ->
     forall other id, fst (run other (ticket_pdf id) None d')
                      = fst (run other (ticket_pdf id) None d)).
Proof.
  intros W. split; [|split; [|split]].
  - intros id. rewrite (serve_toggle_material me id d W).
    destruct (locked_by_other me d); split; reflexivity.
  - intros id. rewrite (serve_toggle_truck me id d W).
    destruct (locked_by_other me d); split; reflexivity.
  - intros method field. unfold serve, admin_materials.
    destruct (String.eqb method "POST").
    2:{ rewrite run_bind. cbn [run select perform do_op mret prog_ret snd]. unfold close_db.
        rewrite (release_other me d W). split; reflexivity. }
    cbv zeta. destruct (negb (truthy (Text.strip (get_or_empty field)))).
    { cbn [run mret prog_ret snd]. unfold close_db. rewrite (release_other me d W).
      split; reflexivity. }
    rewrite run_bind, run_try_except, run_bind. cbn [run execute perform do_op].
    destruct (locked_by_other me d).
    { unfold busy. cbn [run snd]. unfold close_db. rewrite (release_other me d W).
      split; reflexivity. }
    unfold insert_material. destruct (existsb _ (tbl_materials (db_store d))).
    + cbn [run mret prog_ret snd]. unfold close_db, release. cbn [db_writer db_store].
      destruct (Nat.eqb me me); split; reflexivity.
    + cbn [run]. rewrite run_bind. cbn [run perform do_op mret prog_ret snd].
      unfold close_db, release. cbn [db_writer db_store]. split; reflexivity.
  - intros d' [Ht _] other id. unfold ticket_pdf. rewrite !run_bind.
    cbn [run select perform do_op default]. unfold ticket_by_id. rewrite Ht.
    destruct (find _ (tbl_tickets (db_store d))); reflexivity.
Qed.

Lemma reference_changes_keep_the_tickets_witness :
  same_tickets Yard.yard (snd (serve 0 (toggle_material 1) Yard.yard)) /\
  same_tickets Yard.yard (snd (serve 0 (toggle_truck 1) Yard.yard)) /\
  same_tickets Yard.yard (snd (serve 0 (admin_materials "POST" (Some "Topsoil")) Yard.yard)).
Proof.
  assert (db_writer Yard.yard <> Some 0%nat) as W by discriminate.
  destruct (reference_changes_keep_the_tickets 0%nat Yard.yard W) as (Hm & Ht & Ha & _).
  split; [apply Hm|]. split; [apply Ht | apply Ha].
Defined.

(** ** The search page *)

Lemma like_chars_any (p text : list string) :
  like_chars ("%" :: p) text =
  like_chars p text || match text with [] => false | _ :: t' => like_chars ("%" :: p) t' end.
Proof. destruct text; reflexivity. Qed.

Lemma like_chars_other (c : string) (p : list string) (x : string) (text : list string) :
  String.eqb c "%" = false ->
  like_chars (c :: p) (x :: text) =
  (String.eqb c "_" || String.eqb (fold_case c) (fold_case x)) && like_chars p text.
Proof. intros E. cbn [like_chars]. rewrite E. reflexivity. Qed.

(** The characters of a text match the pattern made of themselves and a
    final [%], whatever follows them. *)
Lemma like_chars_itself (x after : list string) :
  like_chars (x ++ ["%"]) (x ++ after) = true.
Proof.
  induction x as [|c x IH].
  - cbn [app]. induction after as [|a after IH]; [reflexivity|].
    rewrite like_chars_any, IH. apply orb_true_r.
  - cbn [app]. destruct (String.eqb c "%") eqn:E.
    + apply String.eqb_eq in E. subst c.
      rewrite like_chars_any. rewrite (like_chars_any _ (x ++ after)), IH. apply orb_true_r.
    + rewrite (like_chars_other c _ c _ E), String.eqb_refl, orb_true_r, IH. reflexivity.
Qed.

Lemma like_chars_part (x before after : list string) :
  like_chars ("%" :: x ++ ["%"]) (before ++ x ++ after) = true.
Proof.
  induction before as [|c before IH].
  - cbn [app]. rewrite like_chars_any, like_chars_itself. reflexivity.
  - cbn [app]. rewrite like_chars_any, IH. apply orb_true_r.
Qed.

(** A text of ASCII has its bytes for characters. *)
Lemma chars_ascii (s : string) :
  ascii_only s = true -> chars s = map (fun a => String a "") (list_ascii_of_string s).
Proof.
  induction s as [|a s IH]; [reflexivity|].
  cbn [ascii_only list_ascii_of_string map chars]. intros Ha.
  apply andb_prop in Ha as [Ha Hs].
  assert (leading a = false) as ->.
  { unfold leading. apply Nat.leb_gt. apply Nat.ltb_lt in Ha. lia. }
  rewrite (IH Hs). reflexivity.
Qed.

Lemma ascii_only_app (a b : string) :
  ascii_only (a +:+ b) = ascii_only a && ascii_only b.
Proof.
  induction a as [|x a IH]; [reflexivity|].
  rewrite append_cons. cbn [ascii_only]. rewrite IH, andb_assoc. reflexivity.
Qed.

(** [%x%] matches every text of ASCII that contains [x]. *)
Lemma like_part (x before after : string) :
  ascii_only (before +:+ x +:+ after) = true ->
  like ("%" +:+ x +:+ "%") (before +:+ x +:+ after) = true.
Proof.
  intros Ha. rewrite !ascii_only_app in Ha.
  apply andb_prop in Ha as [Hb Ha]. apply andb_prop in Ha as [Hx Ha].
  unfold like. rewrite !chars_ascii.
  - rewrite !list_ascii_of_string_app, !map_app. apply like_chars_part.
  - rewrite !ascii_only_app, Hb, Hx, Ha. reflexivity.
  - rewrite !ascii_only_app, Hx. reflexivity.
Qed.

(** The digits of a number come before what was there. *)
Lemma pretty_N_go_app (x : N) (s : string) : pretty_N_go x s = pretty_N_go x "" +:+ s.
Proof.
  revert s. induction (N.lt_wf_0 x) as [x _ IH]. intros s.
  assert (x = 0 \/ 0 < x)%N as [->|Hx] by lia; [rewrite !pretty_N_go_0; reflexivity|].
  rewrite !(pretty_N_go_step x) by exact Hx.
  assert (x `div` 10 < x)%N as Hlt by (apply N.div_lt; lia).
  rewrite (IH (x `div` 10)%N Hlt (String (pretty_N_char (x `mod` 10)) s)).
  rewrite (IH (x `div` 10)%N Hlt (String (pretty_N_char (x `mod` 10)) "")).
  rewrite string_app_assoc. reflexivity.
Qed.

Lemma pretty_N_go_snoc (x : N) :
  (0 < x)%N ->
  pretty_N_go x "" = pretty_N_go (x `div` 10) "" +:+ String (pretty_N_char (x `mod` 10)) "".
Proof. intros Hx. rewrite pretty_N_go_step by exact Hx. apply pretty_N_go_app. Qed.

Lemma pretty_N_go_ascii (x : N) : ascii_only (pretty_N_go x "") = true.
Proof.
  induction (N.lt_wf_0 x) as [x _ IH].
  assert (x = 0 \/ 0 < x)%N as [->|Hx] by lia; [rewrite pretty_N_go_0; reflexivity|].
  rewrite (pretty_N_go_snoc x Hx), ascii_only_app, IH by (apply N.div_lt; lia).
  assert (x `mod` 10 < 10)%N as Hm by (apply N.mod_lt; lia).
  set (m := (x `mod` 10)%N) in *.
  assert (m = 0 \/ m = 1 \/ m = 2 \/ m = 3 \/ m = 4 \/ m = 5 \/ m = 6 \/ m = 7 \/ m = 8 \/ m = 9)%N
    as Hcases by lia.
  repeat (destruct Hcases as [->|Hcases]; [reflexivity|]). rewrite Hcases. reflexivity.
Qed.

Lemma pretty_Z_ascii (n : Z) : ascii_only (pretty n) = true.
Proof.
  destruct n as [|p|p]; [reflexivity | apply pretty_N_go_ascii|].
  change (pretty (Z.neg p)) with ("-" +:+ pretty_N_go (N.pos p) "").
  rewrite ascii_only_app, pretty_N_go_ascii. reflexivity.
Qed.

Lemma zeros_ascii (k : nat) : ascii_only (Text.zeros k) = true.
Proof. induction k as [|k IH]; [reflexivity | exact IH]. Qed.

(** A ticket number is a text of ASCII. *)
Lemma format_ticket_number_ascii (year next_value : Z) :
  ascii_only (format_ticket_number year next_value) = true.
Proof.
  unfold format_ticket_number, Text.fmt_d, Text.fmt_06d, Text.zfill.
  rewrite !ascii_only_app, pretty_Z_ascii.
  destruct (next_value <? 0);
    rewrite !ascii_only_app, zeros_ascii, pretty_Z_ascii; reflexivity.
Qed.













Lemma id_desc_le_total (a b : ticket) : id_desc_le a b = false -> id_desc_le b a = true.
Proof.
  unfold id_desc_le, not_after.
  destruct (Z.compare_spec (ticket_id b) (ticket_id a)),
           (Z.compare_spec (ticket_id a) (ticket_id b)); try reflexivity; try discriminate; lia.
Qed.

Lemma id_desc_le_spec (a b : ticket) : id_desc_le a b = true <-> ticket_id b <= ticket_id a.
Proof.
  unfold id_desc_le, not_after.
  destruct (Z.compare_spec (ticket_id b) (ticket_id a)); split; try reflexivity;
    try discriminate; lia.
Qed.

Lemma id_desc_le_trans (a b c : ticket) :
  id_desc_le a b = true -> id_desc_le b c = true -> id_desc_le a c = true.
Proof. rewrite !id_desc_le_spec. lia. Qed.

Lemma run_search_tickets `{Runtime} (me : nat) (args : search_args) (d : database) :
  run me (search_tickets args) None d =
  (inr (take 200 (order_by id_desc_le
                    (List.filter (search_where args) (tbl_tickets (db_store d))))),
   None, d).
Proof. reflexivity. Qed.



(** The row of the highest id comes first under [ORDER BY id DESC]. *)
Lemma order_by_id_desc_head (l : list ticket) (t : ticket) :
  (forall x, In x l -> ticket_id x < ticket_id t) ->
  head (order_by id_desc_le (l ++ [t])) = Some t.
Proof.
  intros Hl.
  pose proof (order_by_perm id_desc_le (l ++ [t])) as P.
  pose proof (order_by_sorted id_desc_le id_desc_le_total id_desc_le_trans (l ++ [t])) as Sd.
  destruct (order_by id_desc_le (l ++ [t])) as [|h rest].
  - apply Permutation_nil in P. destruct l; discriminate.
  - cbn [head]. f_equal.
    assert (In h (l ++ [t])) as Hh by (eapply Permutation_in; [exact P | left; reflexivity]).
    assert (In t (h :: rest)) as Ht.
    { eapply Permutation_in; [symmetry; exact P|]. apply in_app_iff. right. left. reflexivity. }
    apply in_app_iff in Hh as [Hh|[Hh|[]]]; [|symmetry; exact Hh].
    exfalso. specialize (Hl h Hh). destruct Ht as [->|Ht]; [lia|].
    inversion Sd as [|? ? _ Hall]; subst.
    rewrite List.Forall_forall in Hall. specialize (Hall t Ht).
    apply id_desc_le_spec in Hall. lia.
Qed.

(** X16. The ticket a request has just stored heads the search for any part
    of its number: with no other criterion, a search term whose stripped text
    is not blank and occurs in the ticket number lists that ticket first, on
    every connection. *)
Theorem new_ticket_heads_its_search `{Runtime} (me : nat) (clk : clock) (f : form)
    (d : database) (r : result response) (txn' : option store) (d' : database)
    (term before after : string) :
  db_writer d <> Some me ->
  run me (new_ticket clk f) None d = (r, txn', d') ->
  tbl_tickets (db_store d') <> tbl_tickets (db_store d) ->
  truthy (Text.strip term) = true ->
  format_ticket_number (now_year clk) (last_value (now_year clk) (db_store d) + 1)
    = before +:+ Text.strip term +:+ after ->
  exists t rows,
    tbl_tickets (db_store d') = tbl_tickets (db_store d) ++ [t] /\
    ticket_number t = before +:+ Text.strip term +:+ after /\
    forall other,
      run other (search_tickets {| sa_ticket_number := Some term; sa_truck := None;
                                   sa_job := None; sa_date_from := None;
                                   sa_date_to := None |}) None d'
      = (inr (t :: rows), None, d').
Proof.
  intros W R Hne Hterm Hnum.
  destruct (new_ticket_committed me clk f d r txn' d' W R Hne)
    as (job_part & q & created & pdf_bytes & path & H0).
  cbv zeta in H0.
  destruct H0 as (_ & _ & _ & _ & _ & _ & _ & _ & _ & _ & Ht & _).
  set (args := {| sa_ticket_number := Some term; sa_truck := None; sa_job := None;
                  sa_date_from := None; sa_date_to := None |}).
  match type of Ht with _ = _ ++ [?x] => set (t := x) in * end.
  assert (ticket_number t = before +:+ Text.strip term +:+ after) as Hn by exact Hnum.
  assert (search_where args t = true) as Hw.
  { unfold search_where. cbv zeta. cbn [args sa_ticket_number sa_truck sa_job sa_date_from
                                         sa_date_to get_or_empty default].
    unfold id. rewrite Hterm, Hn, like_part
      by (rewrite <- Hnum; apply format_ticket_number_ascii).
    assert (Text.strip "" = "") as -> by reflexivity. reflexivity. }
  assert (head (take 200 (order_by id_desc_le
                 (List.filter (search_where args) (tbl_tickets (db_store d'))))) = Some t)
    as Hhead.
  { rewrite Ht, List.filter_app. cbn [List.filter]. rewrite Hw.
    pose proof (order_by_id_desc_head
                  (List.filter (search_where args) (tbl_tickets (db_store d))) t) as Hh.
    destruct (order_by id_desc_le _) as [|h rest] eqn:E.
    - discriminate Hh. intros x Hx. apply filter_In in Hx as [Hx _].
      pose proof (next_rowid_fresh _ _ (in_map ticket_id _ _ Hx)). exact H0.
    - cbn [take head]. apply Hh.
      intros x Hx. apply filter_In in Hx as [Hx _].
      exact (next_rowid_fresh _ _ (in_map ticket_id _ _ Hx)). }
  destruct (take 200 (order_by id_desc_le
              (List.filter (search_where args) (tbl_tickets (db_store d')))))
    as [|h rows] eqn:E; [discriminate|].
  injection Hhead as ->.
  exists t, rows. split; [exact Ht|]. split; [exact Hn|].
  intros other. rewrite run_search_tickets. fold args. rewrite E. reflexivity.
Qed.

Lemma new_ticket_heads_its_search_witness :
  let d' := snd (run 0 (@new_ticket Reference.runtime Scenario.clock_2025
                          Depot.selected_form) None Depot.depot) in
  exists t rows,
    ticket_number t = "DT-2025-000001" /\
    run 3 (@search_tickets Reference.runtime
             {| sa_ticket_number := Some " 2025-0000 "; sa_truck := None; sa_job := None;
                sa_date_from := None; sa_date_to := None |}) None d'
    = (inr (t :: rows), None, d').
Proof.
  cbv zeta.
  assert (db_writer Depot.depot <> Some 0%nat) as W by discriminate.
  assert (tbl_tickets (db_store (snd (run 0 (@new_ticket Reference.runtime Scenario.clock_2025
            Depot.selected_form) None Depot.depot)))
          <> tbl_tickets (db_store Depot.depot)) as N
    by (vm_compute; discriminate).
  destruct (@new_ticket_heads_its_search Reference.runtime 0%nat Scenario.clock_2025
              Depot.selected_form Depot.depot _ _ _ " 2025-0000 " "DT-" "01"
              W (surjective_pairing _) N eq_refl eq_refl)
    as (t & rows & _ & Hn & Hs).
  exists t, rows. split; [exact Hn | apply Hs].
Defined.

(** ** Handlers that only read *)

Lemma run_reads_only {A : Type} (me : nat) (p : prog A) (txn : option store) (d : database) :
  reads_only p -> exists r, run me p txn d = (r, txn, d).
Proof.
  induction p as [a | e | T o k IH]; intros Hp.
  - eexists. reflexivity.
  - eexists. reflexivity.
  - destruct Hp as [Ho Hk]. destruct o; try destruct Ho.
    cbn [run do_op]. apply IH, Hk.
Qed.

Lemma reads_only_bind {A B : Type} (p : prog A) (f : A -> prog B) :
  reads_only p -> (forall a, reads_only (f a)) -> reads_only (p ≫= f).
Proof.
  change (p ≫= f) with (bind p f).
  induction p as [a | e | T o k IH]; intros Hp Hf; cbn [bind].
  - apply Hf.
  - exact I.
  - destruct Hp as [Ho Hk]. split; [exact Ho|]. intros r. apply IH; [apply Hk | exact Hf].
Qed.

Lemma reads_only_select {B : Type} (q : store -> B) : reads_only (select q).
Proof. split; [exact I|]. intros [e|b]; exact I. Qed.

(** X17. The pages that show tickets send SELECT statements only: the
    report, its export and its print variant, the search, the download and
    the reprint of a ticket and the lists of the entry form leave the file and
    the lock as they are and open no transaction, whoever holds the lock. *)
Theorem reading_pages_never_write `{Runtime} (me : nat) (txn : option store) (d : database) :
  (forall today_first today_second args,
      exists r, run me (reports today_first today_second args) txn d = (r, txn, d)) /\
  (forall args, exists r, run me (export_reports_csv args) txn d = (r, txn, d)) /\
  (forall args, exists r, run me (print_reports args) txn d = (r, txn, d)) /\
  (forall args, exists r, run me (search_tickets args) txn d = (r, txn, d)) /\
  (forall id, exists r, run me (ticket_pdf id) txn d = (r, txn, d)) /\
  (forall id, exists r, run me (print_ticket id) txn d = (r, txn, d)) /\
  (exists r, run me list_materials txn d = (r, txn, d)) /\
  (exists r, run me list_jobs txn d = (r, txn, d)).
Proof.
  repeat split; intros; apply run_reads_only.
  - unfold reports. destruct (request_offset args); [|exact I].
    cbv zeta. repeat (apply reads_only_bind; [apply reads_only_select | intros ?]). exact I.
  - unfold export_reports_csv. cbv zeta.
    repeat (apply reads_only_bind; [apply reads_only_select | intros ?]). exact I.
  - unfold print_reports. cbv zeta.
    repeat (apply reads_only_bind; [apply reads_only_select | intros ?]). exact I.
  - apply reads_only_select.
  - unfold ticket_pdf. apply reads_only_bind; [apply reads_only_select|].
    intros [t|]; exact I.
  - unfold print_ticket. apply reads_only_bind; [apply reads_only_select|].
    intros [t|]; [|exact I]. destruct (print_pdf_file (pdf_path t)); exact I.
  - apply reads_only_select.
  - apply reads_only_select.
Qed.

(** ** What every stored ticket satisfies *)

Lemma keeps_bind_returns {A B : Type} (I : store -> Prop) (Q : A -> Prop)
    (p : prog A) (f : A -> prog B) :
  keeps I p -> returns Q p -> (forall a, Q a -> keeps I (f a)) -> keeps I (p ≫= f).
Proof.
  change (p ≫= f) with (bind p f).
  induction p as [a | e | T o k IH]; intros Hp Hq Hf; cbn [bind].
  - apply Hf, Hq.
  - exact Logic.I.
  - destruct Hp as [Ho Hk]. split; [exact Ho|]. intros r.
    apply IH; [apply Hk | apply Hq | exact Hf].
Qed.

Lemma keeps_bind {A B : Type} (I : store -> Prop) (p : prog A) (f : A -> prog B) :
  keeps I p -> (forall a, keeps I (f a)) -> keeps I (p ≫= f).
Proof.
  intros Hp Hf. apply (keeps_bind_returns I (fun _ => True)); [exact Hp | | auto].
  clear. induction p as [a | e | T o k IH]; cbn; auto.
Qed.

Lemma keeps_try_except {A : Type} (I : store -> Prop) (p : prog A) (h : exn -> prog A) :
  keeps I p -> (forall e, keeps I (h e)) -> keeps I (try_except p h).
Proof.
  induction p as [a | e | T o k IH]; intros Hp Hh; cbn [try_except].
  - exact Logic.I.
  - apply Hh.
  - destruct Hp as [Ho Hk]. split; [exact Ho|]. intros r. apply IH; [apply Hk | exact Hh].
Qed.

Lemma keeps_select {B : Type} (I : store -> Prop) (q : store -> B) : keeps I (select q).
Proof. split; [exact Logic.I|]. intros [e|b]; exact Logic.I. Qed.

Lemma keeps_execute (I : store -> Prop) (w : store -> result store) :
  (forall s s', I s -> w s = inr s' -> I s') -> keeps I (execute w).
Proof. intros Hw. split; [exact Hw|]. intros [e|b]; exact Logic.I. Qed.

Lemma keeps_call {A : Type} (I : store -> Prop) (r : result A) : keeps I (call r).
Proof. destruct r; exact Logic.I. Qed.

Lemma db_store_release (me : nat) (d : database) : db_store (release me d) = db_store d.
Proof.
  unfold release. destruct (db_writer d) as [w|]; [|reflexivity].
  destruct (Nat.eqb w me); reflexivity.
Qed.

(** One statement of a connection that keeps [I]. *)
Lemma do_op_keeps (I : store -> Prop) (me : nat) {B : Type} (o : op B)
    (k : result B -> prog response) (txn : option store) (d : database)
    (r : result B) (txn' : option store) (d' : database) :
  keeps I (Op o k) ->
  I (db_store d) -> (forall working, txn = Some working -> I working) ->
  do_op me o txn d = (r, txn', d') ->
  I (db_store d') /\ (forall working, txn' = Some working -> I working) /\ keeps I (k r).
Proof.
  intros [Ho Hk] Hd Ht Hop.
  split; [|split; [|apply Hk]].
  - destruct o; cbn [do_op] in Hop.
    + destruct txn; [injection Hop as _ _ <-; exact Hd|].
      destruct (locked_by_other me d); injection Hop as _ _ <-; exact Hd.
    + injection Hop as _ _ <-. exact Hd.
    + destruct txn as [s|].
      * destruct (w s); injection Hop as _ _ <-; exact Hd.
      * destruct (locked_by_other me d); [injection Hop as _ _ <-; exact Hd|].
        destruct (w (db_store d)); injection Hop as _ _ <-; exact Hd.
    + destruct txn as [s|]; injection Hop as _ _ <-; [apply Ht; reflexivity | exact Hd].
    + injection Hop as _ _ <-. rewrite db_store_release. exact Hd.
  - destruct o; cbn [do_op] in Hop.
    + destruct txn; [injection Hop as _ <- _; exact Ht|].
      destruct (locked_by_other me d); injection Hop as _ <- _; [discriminate|].
      intros working [= <-]. exact Hd.
    + injection Hop as _ <- _. exact Ht.
    + destruct txn as [s|].
      * destruct (w s) as [e|s'] eqn:E; injection Hop as _ <- _; [exact Ht|].
        intros working [= <-]. apply (Ho s s' (Ht s eq_refl) E).
      * destruct (locked_by_other me d); [injection Hop as _ <- _; discriminate|].
        destruct (w (db_store d)) as [e|s'] eqn:E; injection Hop as _ <- _;
          intros working [= <-]; [exact Hd | apply (Ho _ s' Hd E)].
    + destruct txn as [s|]; injection Hop as _ <- _; discriminate.
    + injection Hop as _ <- _. discriminate.
Qed.

(** A property every request keeps holds in every state of the system. *)
Lemma step_keeps (I : store -> Prop) (s s' : system) :
  (forall rt clk f, keeps I (@new_ticket rt clk f)) ->
  system_keeps I s -> step s s' -> system_keeps I s'.
Proof.
  intros Hnew [Hd Hts] Hstep.
  destruct Hstep as [d ts rt clk f | d ts i txn B o k r txn' d' Hi Hop
                     | d ts i txn a Hi | d ts i txn e Hi]; cbn in *.
  - split; [exact Hd|]. cbn. intros i txn p Hi.
    destruct (decide (i < length ts)%nat) as [Hlt|Hge].
    + rewrite lookup_app_l in Hi by exact Hlt. eapply Hts, Hi.
    + rewrite lookup_app_r in Hi by lia.
      destruct (i - length ts)%nat as [|n] eqn:En; [|destruct n; discriminate].
      injection Hi as <- <-. split; [apply Hnew | discriminate].
  - assert (i < length ts)%nat as Hlt by (eapply lookup_lt_Some; eassumption).
    destruct (Hts i txn _ Hi) as [Hk Ht].
    destruct (do_op_keeps I i o k txn d r txn' d' Hk Hd Ht Hop) as (Hd' & Ht' & Hk').
    split; [exact Hd'|]. cbn. intros j txn_j p_j Hj.
    destruct (decide (j = i)) as [->|N].
    + rewrite list_lookup_insert_eq in Hj by exact Hlt. injection Hj as <- <-.
      split; [exact Hk' | exact Ht'].
    + rewrite list_lookup_insert_ne in Hj by congruence. eapply Hts, Hj.
  - assert (i < length ts)%nat as Hlt by (eapply lookup_lt_Some; eassumption).
    unfold close_db. split; [cbn; rewrite db_store_release; exact Hd|].
    cbn. intros j txn_j p_j Hj. destruct (decide (j = i)) as [->|N].
    + rewrite list_lookup_insert_eq in Hj by exact Hlt. discriminate.
    + rewrite list_lookup_insert_ne in Hj by congruence. eapply Hts, Hj.
  - assert (i < length ts)%nat as Hlt by (eapply lookup_lt_Some; eassumption).
    unfold close_db. split; [cbn; rewrite db_store_release; exact Hd|].
    cbn. intros j txn_j p_j Hj. destruct (decide (j = i)) as [->|N].
    + rewrite list_lookup_insert_eq in Hj by exact Hlt. discriminate.
    + rewrite list_lookup_insert_ne in Hj by congruence. eapply Hts, Hj.
Qed.

Lemma reachable_keeps (I : store -> Prop) (s : system) :
  I empty_store ->
  (forall rt clk f, keeps I (@new_ticket rt clk f)) ->
  reachable s -> system_keeps I s.
Proof.
  intros H0 Hnew. induction 1 as [|s s' _ IH Hstep].
  - split; [exact H0|]. intros i txn p Hi. destruct i; discriminate.
  - exact (step_keeps I s s' Hnew IH Hstep).
Qed.

Lemma returns_next_ticket_number (year : Z) :
  returns (fun '(number, y, seq) => number = format_ticket_number y seq)
          (next_ticket_number year).
Proof.
  unfold next_ticket_number, execute, select, perform. cbn.
  intros [e|[]]; cbn; [exact Logic.I|].
  intros [e|[v|]]; cbn; try exact Logic.I.
  intros [e|[]]; cbn; [exact Logic.I | reflexivity].
Qed.

Lemma keeps_next_ticket_number (year : Z) :
  keeps tickets_well_formed (next_ticket_number year).
Proof.
  unfold next_ticket_number.
  apply keeps_bind.
  - apply keeps_execute. intros s s' Hs. unfold insert_or_ignore_sequence.
    intros [= <-]. destruct (tbl_ticket_sequence s !! year); exact Hs.
  - intros _. apply keeps_bind; [apply keeps_select|].
    intros [v|]; [|exact Logic.I]. cbv zeta. apply keeps_bind; [|intros _; exact Logic.I].
    apply keeps_execute. intros s s' Hs. unfold update_sequence.
    intros [= <-]. destruct (tbl_ticket_sequence s !! year); exact Hs.
Qed.

(** The INSERT of a well-formed row keeps the tickets well formed. *)
Lemma insert_ticket_well_formed (t : ticket) (s s' : store) :
  direction_ok (direction t) = true ->
  ticket_number t = format_ticket_number (ticket_year t) (ticket_sequence t) ->
  truthy (unit_ t) = true ->
  tickets_well_formed s -> insert_ticket t s = inr s' -> tickets_well_formed s'.
Proof.
  intros Hdir Hnum Hunit (Hall & Hids & Hnums) Hins.
  unfold insert_ticket in Hins.
  destruct (Float.is_nan (quantity t)) eqn:Enan; [discriminate|].
  destruct (existsb _ (tbl_tickets s)) eqn:E; [discriminate|].
  injection Hins as <-. unfold tickets_well_formed. cbn [tbl_tickets].
  rewrite !map_app. cbn [map with_id ticket_id ticket_number].
  split; [|split].
  - apply Forall_app. split; [exact Hall|]. constructor; [|constructor].
    repeat split; cbn; try assumption; [apply next_rowid_positive|].
    destruct (quantity t); try reflexivity; discriminate.
  - apply NoDup_snoc; [exact Hids|]. intros Hin. apply next_rowid_fresh in Hin. lia.
  - apply NoDup_snoc; [exact Hnums|]. intros Hin. apply in_map_iff in Hin as (x & Ex & Hx).
    assert (existsb (fun t' => String.eqb (ticket_number t') (ticket_number t))
              (tbl_tickets s) = true); [|congruence].
    apply existsb_exists. exists x. split; [exact Hx | apply String.eqb_eq, Ex].
Qed.

Lemma keeps_new_ticket (rt : Runtime) (clk : clock) (f : form) :
  keeps tickets_well_formed (@new_ticket rt clk f).
Proof.
  unfold new_ticket. cbv zeta.
  destruct (direction_ok (fd_direction (read_form f))) eqn:Hdir; [|exact Logic.I].
  destruct (required_present (read_form f)) eqn:Hreq; [|exact Logic.I].
  cbn [negb].
  assert (truthy (fd_unit (read_form f)) = true) as Hunit.
  { unfold required_present in Hreq. cbn [forallb] in Hreq.
    do 4 (apply andb_prop in Hreq as [_ Hreq]).
    apply andb_prop in Hreq as [Hreq _]. exact Hreq. }
  apply keeps_bind;
    [destruct (truthy (fd_job_id (read_form f))); [apply keeps_select | exact Logic.I]|].
  intros job_row.
  apply keeps_bind;
    [destruct (truthy (fd_truck_id (read_form f))); [apply keeps_select | exact Logic.I]|].
  intros truck_row.
  apply keeps_bind;
    [destruct (truthy (fd_material_id (read_form f))); [apply keeps_select | exact Logic.I]|].
  intros material_row.
  apply keeps_bind.
  { unfold job_snapshot. destruct job_row; [exact Logic.I|].
    destruct (Text.contains _ _); [|exact Logic.I].
    destruct (map _ _) as [|? [|? [|? ?]]]; exact Logic.I. }
  intros job_part.
  destruct (py_float (fd_quantity (read_form f))) as [q|]; [|exact Logic.I].
  apply keeps_bind.
  2:{ intros [early|[number path]]; exact Logic.I. }
  unfold create_ticket. apply keeps_try_except.
  2:{ intros e. unfold rollback_and_raise. apply keeps_bind; [|intros _; exact Logic.I].
      split; [exact Logic.I|]. intros [?|?]; exact Logic.I. }
  unfold create_in_transaction.
  apply keeps_bind; [split; [exact Logic.I | intros [?|?]; exact Logic.I]|].
  intros _.
  apply (keeps_bind_returns _ (fun '(number, y, seq) => number = format_ticket_number y seq));
    [apply keeps_next_ticket_number | apply returns_next_ticket_number|].
  intros [[number year] seq] Hnum.
  destruct (choose_created_at clk _ _) as [early|created]; [exact Logic.I|].
  apply keeps_bind; [apply keeps_call|]. intros pdf_bytes.
  apply keeps_bind; [apply keeps_call|]. intros path.
  apply keeps_bind.
  - apply keeps_execute. intros s s' Hs Hins.
    eapply insert_ticket_well_formed; [| | |exact Hs|exact Hins]; assumption.
  - intros _. apply keeps_bind; [split; [exact Logic.I | intros [?|?]; exact Logic.I]|].
    intros _. exact Logic.I.
Qed.

Lemma tickets_well_formed_empty : tickets_well_formed empty_store.
Proof. repeat split; constructor. Qed.

(** X18. Whatever requests arrive and however their statements interleave,
    every ticket in the file has the direction IN or OUT, a unit that is not
    blank, a positive id and the number [DT-<year>-<sequence>] of its own year
    and sequence value, which lies between 1 and the counter of that year, and
    a quantity that is no NaN; no two tickets share an id or a number. *)
Theorem stored_tickets_are_well_formed (s : system) :
  reachable s ->
  let tickets := tbl_tickets (db_store (sys_db s)) in
  (forall t, In t tickets ->
     (direction t = "IN" \/ direction t = "OUT") /\
     ticket_number t = format_ticket_number (ticket_year t) (ticket_sequence t) /\
     unit_ t <> "" /\
     0 < ticket_id t /\
     1 <= ticket_sequence t <= last_value (ticket_year t) (db_store (sys_db s)) /\
     Float.is_nan (quantity t) = false) /\
  List.NoDup (map ticket_id tickets) /\
  List.NoDup (map ticket_number tickets).
Proof.
  intros Hs. cbv zeta.
  destruct (reachable_keeps tickets_well_formed s tickets_well_formed_empty
              keeps_new_ticket Hs) as [(Hall & Hids & Hnums) _].
  destruct (reachable_ok s Hs) as (Hc & _).
  split; [|split; assumption].
  intros t Ht. rewrite List.Forall_forall in Hall.
  destruct (Hall t Ht) as (Hdir & Hnum & Hunit & Hid & Hnan).
  split.
  { unfold direction_ok in Hdir. apply orb_prop in Hdir as [E|E];
      apply String.eqb_eq in E; auto. }
  split; [exact Hnum|]. split.
  { intros E. rewrite E in Hunit. discriminate. }
  split; [exact Hid|]. split; [|exact Hnan].
  destruct (Hc (ticket_year t)) as [Hpos Hseq].
  assert (ticket_sequence t ∈ sequences_of_year (ticket_year t) (db_store (sys_db s))) as Hin.
  { unfold sequences_of_year. apply list_elem_of_In, in_map, list_elem_of_In.
    apply list_elem_of_filter. split; [apply bool_decide_pack; reflexivity|].
    apply list_elem_of_In, Ht. }
  rewrite Hseq in Hin. apply elem_of_one_to in Hin. lia.
Qed.

Lemma stored_tickets_are_well_formed_witness :
  let s := run_schedule contended_schedule start in
  reachable s /\
  map ticket_number (tbl_tickets (db_store (sys_db s))) = ["DT-2025-000001"; "DT-2025-000002"] /\
  List.NoDup (map ticket_number (tbl_tickets (db_store (sys_db s)))).
Proof.
  cbv zeta.
  assert (reachable (run_schedule contended_schedule start)) as Hs
    by apply run_schedule_reachable, reachable_start.
  split; [exact Hs|]. split; [vm_compute; reflexivity|].
  exact (proj2 (proj2 (stored_tickets_are_well_formed _ Hs))).
Defined.

(** ** The text of a ticket number *)

Lemma digit_of_pretty_N_char (x : N) :
  (x < 10)%N -> Reference.digit_of (pretty_N_char x) = Some (Z.of_N x).
Proof.
  intros Hx.
  assert (x = 0 \/ x = 1 \/ x = 2 \/ x = 3 \/ x = 4 \/ x = 5 \/ x = 6 \/ x = 7 \/ x = 8 \/ x = 9)%N
    as Hcases by lia.
  repeat (destruct Hcases as [->|Hcases]; [reflexivity|]). subst. reflexivity.
Qed.

Lemma string_app_length (a b : string) :
  String.length (a +:+ b) = (String.length a + String.length b)%nat.
Proof. induction a as [|x a IH]; [reflexivity|]. rewrite append_cons. cbn. rewrite IH. reflexivity. Qed.

Lemma string_app_inv_head (a b c : string) : a +:+ b = a +:+ c -> b = c.
Proof.
  induction a as [|x a IH]; [auto|]. rewrite !append_cons. intros [= E]. apply IH, E.
Qed.

Lemma digits_value_app (acc : Z) (a b : string) :
  Reference.digits_value acc (a +:+ b) =
  match Reference.digits_value acc a with
  | Some v => Reference.digits_value v b
  | None => None
  end.
Proof.
  revert acc. induction a as [|c a IH]; intros acc; [reflexivity|].
  rewrite append_cons. cbn [Reference.digits_value].
  destruct (Reference.digit_of c); [apply IH | reflexivity].
Qed.

(** The digits of [x], read after [acc], count as [x] after a shift of
    [acc]. *)
Lemma digits_value_pretty_N_go (x : N) :
  exists k : Z, 0 <= k /\
    forall acc, Reference.digits_value acc (pretty_N_go x "") = Some (acc * 10 ^ k + Z.of_N x).
Proof.
  induction (N.lt_wf_0 x) as [x _ IH].
  assert (x = 0 \/ 0 < x)%N as [->|Hx] by lia.
  - exists 0. split; [lia|]. intros acc. rewrite pretty_N_go_0. cbn. f_equal. lia.
  - destruct (IH (x `div` 10)%N) as (k & Hk & Hv); [apply N.div_lt; lia|].
    exists (k + 1). split; [lia|]. intros acc.
    rewrite (pretty_N_go_snoc x Hx), digits_value_app, Hv.
    cbn [Reference.digits_value].
    rewrite digit_of_pretty_N_char by (apply N.mod_lt; lia). f_equal.
    rewrite Z.pow_add_r by lia.
    pose proof (N.div_mod x 10 ltac:(lia)) as Hdm.
    rewrite N2Z.inj_div, N2Z.inj_mod in *.
    assert (Z.of_N x = 10 * (Z.of_N x `div` 10) + Z.of_N x `mod` 10) as E
      by (apply Z.div_mod; lia).
    change (Z.of_N 10) with 10. lia.
Qed.

Lemma pretty_N_go_length_upper (k : nat) (x : N) :
  (x < 10 ^ N.of_nat k)%N -> (String.length (pretty_N_go x "") <= k)%nat.
Proof.
  revert x. induction k as [|k IH]; intros x Hx.
  - change (10 ^ N.of_nat 0)%N with 1%N in Hx.
    assert (x = 0)%N as -> by lia. rewrite pretty_N_go_0. cbn. lia.
  - assert (x = 0 \/ 0 < x)%N as [->|Hpos] by lia; [rewrite pretty_N_go_0; cbn; lia|].
    rewrite (pretty_N_go_snoc x Hpos), string_app_length. cbn [String.length].
    assert (x `div` 10 < 10 ^ N.of_nat k)%N as Hdiv.
    { apply N.Div0.div_lt_upper_bound.
      rewrite Nat2N.inj_succ, N.pow_succ_r' in Hx. exact Hx. }
    specialize (IH _ Hdiv). lia.
Qed.

Lemma pretty_N_go_length_lower (k : nat) (x : N) :
  (10 ^ N.of_nat k <= x)%N -> (k + 1 <= String.length (pretty_N_go x ""))%nat.
Proof.
  revert x. induction k as [|k IH]; intros x Hx.
  - change (10 ^ N.of_nat 0)%N with 1%N in Hx.
    assert (0 < x)%N as Hpos by lia.
    rewrite (pretty_N_go_snoc x Hpos), string_app_length. cbn [String.length]. lia.
  - assert (0 < 10 ^ N.of_nat (S k))%N by (apply N.neq_0_lt_0, N.pow_nonzero; lia).
    assert (0 < x)%N as Hpos by lia.
    rewrite (pretty_N_go_snoc x Hpos), string_app_length. cbn [String.length].
    assert (10 ^ N.of_nat k <= x `div` 10)%N as Hdiv.
    { apply N.div_le_lower_bound; [lia|].
      rewrite Nat2N.inj_succ, N.pow_succ_r' in Hx. exact Hx. }
    specialize (IH _ Hdiv). lia.
Qed.

(** The decimal numeral of a number that is not negative. *)
Lemma pretty_nonneg (n : Z) :
  0 <= n ->
  Reference.digits_value 0 (pretty n) = Some n /\
  (1 <= String.length (pretty n))%nat /\
  (forall k : nat, n < 10 ^ Z.of_nat k -> (0 < k)%nat -> (String.length (pretty n) <= k)%nat) /\
  (forall k : nat, 10 ^ Z.of_nat k <= n -> (k + 1 <= String.length (pretty n))%nat).
Proof.
  intros Hn. destruct n as [|p|p]; [| |lia].
  - split; [reflexivity|]. split; [cbn; lia|]. split; [intros k _ Hk; cbn; lia|].
    intros k Hk. assert (0 < 10 ^ Z.of_nat k) by (apply Z.pow_pos_nonneg; lia). lia.
  - change (pretty (Z.pos p)) with (pretty_N_go (N.pos p) "").
    destruct (digits_value_pretty_N_go (N.pos p)) as (k & _ & Hv).
    split; [rewrite Hv; f_equal; cbn; lia|].
    split; [apply (pretty_N_go_length_lower 0); cbn; lia|]. split.
    + intros j Hj _. apply pretty_N_go_length_upper.
      apply N2Z.inj_lt. rewrite N2Z.inj_pow, nat_N_Z. exact Hj.
    + intros j Hj. apply pretty_N_go_length_lower.
      apply N2Z.inj_le. rewrite N2Z.inj_pow, nat_N_Z. exact Hj.
Qed.

Lemma length_zeros (k : nat) : String.length (Text.zeros k) = k.
Proof. induction k as [|k IH]; [reflexivity|]. cbn. rewrite IH. reflexivity. Qed.

Lemma digits_value_zeros (k : nat) (s : string) :
  Reference.digits_value 0 (Text.zeros k +:+ s) = Reference.digits_value 0 s.
Proof. induction k as [|k IH]; [reflexivity|]. cbn [Text.zeros]. rewrite append_cons. exact IH. Qed.

(** The sequence field of a ticket number: the numeral of the value, with
    zeros before it up to six characters. *)
Lemma fmt_06d_nonneg (n : Z) :
  0 <= n ->
  Reference.digits_value 0 (Text.fmt_06d n) = Some n /\
  (n < 1000000 -> String.length (Text.fmt_06d n) = 6%nat) /\
  (100000 <= n -> Text.fmt_06d n = Text.fmt_d n).
Proof.
  intros Hn. unfold Text.fmt_06d, Text.fmt_d, Text.zfill.
  destruct (Z.ltb_spec n 0) as [|_]; [lia|].
  destruct (pretty_nonneg n Hn) as (Hv & Hlen & Hup & Hlow).
  split; [rewrite digits_value_zeros; exact Hv|]. split.
  - intros Hlt. specialize (Hup 6%nat Hlt ltac:(lia)).
    rewrite string_app_length, length_zeros. lia.
  - intros Hge. specialize (Hlow 5%nat Hge).
    replace (6 - String.length (pretty n))%nat with 0%nat by lia. reflexivity.
Qed.

Lemma digits_value_dash (acc : Z) (a b : string) :
  Reference.digits_value acc (a +:+ String "-" b) = None.
Proof.
  revert acc. induction a as [|c a IH]; intros acc; [reflexivity|].
  rewrite append_cons. cbn [Reference.digits_value].
  destruct (Reference.digit_of c); [apply IH | reflexivity].
Qed.

(** Two texts cut at their last dash. *)
Lemma last_dash_split (b1 b2 a1 a2 : string) :
  is_Some (Reference.digits_value 0 a1) -> is_Some (Reference.digits_value 0 a2) ->
  b1 +:+ String "-" a1 = b2 +:+ String "-" a2 -> b1 = b2 /\ a1 = a2.
Proof.
  intros [v1 H1] [v2 H2]. revert b2. induction b1 as [|c b1 IH]; intros [|c2 b2] E.
  - rewrite !append_nil in E. injection E as E. split; [reflexivity | exact E].
  - rewrite append_nil, append_cons in E. injection E as _ E.
    rewrite E, digits_value_dash in H1. discriminate.
  - rewrite append_nil, append_cons in E. injection E as _ E.
    rewrite <- E, digits_value_dash in H2. discriminate.
  - rewrite !append_cons in E. injection E as -> E.
    destruct (IH b2 E) as [-> ->]. split; reflexivity.
Qed.

(** X19. The text of a ticket number: [DT-], the year, a dash and the
    sequence field, which reads back as the sequence value, has exactly six
    characters up to 999999 and is the plain numeral, wider than six, beyond:
    the value is never cut. *)
Theorem ticket_number_reads_back (year seq : Z) :
  0 <= seq ->
  exists field,
    format_ticket_number year seq = "DT-" +:+ Text.fmt_d year +:+ "-" +:+ field /\
    Reference.parse_digits field = Some seq /\
    (seq < 1000000 -> String.length field = 6%nat) /\
    (1000000 <= seq -> field = Text.fmt_d seq /\ (6 < String.length field)%nat).
Proof.
  intros Hseq. exists (Text.fmt_06d seq).
  destruct (fmt_06d_nonneg seq Hseq) as (Hv & Hlen & Hwide).
  split; [reflexivity|]. split.
  - unfold Reference.parse_digits.
    destruct (String.eqb_spec (Text.fmt_06d seq) "") as [E|_]; [|exact Hv].
    rewrite E in Hv. cbn in Hv. injection Hv as <-.
    specialize (Hlen ltac:(lia)). rewrite E in Hlen. discriminate.
  - split; [exact Hlen|]. intros Hge. rewrite Hwide by lia. split; [reflexivity|].
    destruct (pretty_nonneg seq Hseq) as (_ & _ & _ & Hlow).
    specialize (Hlow 6%nat Hge). unfold Text.fmt_d. lia.
Qed.

Lemma ticket_number_reads_back_witness :
  exists field,
    format_ticket_number 2025 1234567 = "DT-" +:+ Text.fmt_d 2025 +:+ "-" +:+ field /\
    Reference.parse_digits field = Some 1234567 /\
    field = Text.fmt_d 1234567.
Proof.
  destruct (ticket_number_reads_back 2025 1234567 ltac:(lia)) as (field & Hf & Hp & _ & Hw).
  exists field. split; [exact Hf|]. split; [exact Hp|]. apply Hw. lia.
Defined.

(** The rendering of a ticket number can be undone. *)
Lemma format_ticket_number_inj (year1 seq1 year2 seq2 : Z) :
  0 <= seq1 -> 0 <= seq2 ->
  format_ticket_number year1 seq1 = format_ticket_number year2 seq2 ->
  year1 = year2 /\ seq1 = seq2.
Proof.
  intros H1 H2 E. unfold format_ticket_number in E.
  destruct (fmt_06d_nonneg seq1 H1) as (Hv1 & _).
  destruct (fmt_06d_nonneg seq2 H2) as (Hv2 & _).
  change ("DT-" +:+ Text.fmt_d year1 +:+ "-" +:+ Text.fmt_06d seq1)
    with (String "D" (String "T" (String "-"
            (Text.fmt_d year1 +:+ String "-" (Text.fmt_06d seq1))))) in E.
  change ("DT-" +:+ Text.fmt_d year2 +:+ "-" +:+ Text.fmt_06d seq2)
    with (String "D" (String "T" (String "-"
            (Text.fmt_d year2 +:+ String "-" (Text.fmt_06d seq2))))) in E.
  injection E as E.
  apply last_dash_split in E as [Ey Es];
    [|rewrite Hv1; eexists; reflexivity | rewrite Hv2; eexists; reflexivity].
  split.
  - unfold Text.fmt_d in Ey. apply (inj pretty) in Ey. exact Ey.
  - rewrite Es in Hv1. rewrite Hv1 in Hv2. injection Hv2 as ->. reflexivity.
Qed.

(** X20. Ticket numbers tell years and sequence values apart: two
    numbers are the same text only for the same year and the same sequence
    value. *)
Theorem ticket_numbers_are_distinct (year1 seq1 year2 seq2 : Z) :
  0 <= seq1 -> 0 <= seq2 ->
  format_ticket_number year1 seq1 = format_ticket_number year2 seq2 ->
  year1 = year2 /\ seq1 = seq2.
Proof.
  intros H1 H2 E. unfold format_ticket_number in E.
  destruct (fmt_06d_nonneg seq1 H1) as (Hv1 & _).
  destruct (fmt_06d_nonneg seq2 H2) as (Hv2 & _).
  change ("DT-" +:+ Text.fmt_d year1 +:+ "-" +:+ Text.fmt_06d seq1)
    with (String "D" (String "T" (String "-"
            (Text.fmt_d year1 +:+ String "-" (Text.fmt_06d seq1))))) in E.
  change ("DT-" +:+ Text.fmt_d year2 +:+ "-" +:+ Text.fmt_06d seq2)
    with (String "D" (String "T" (String "-"
            (Text.fmt_d year2 +:+ String "-" (Text.fmt_06d seq2))))) in E.
  injection E as E.
  apply last_dash_split in E as [Ey Es];
    [|rewrite Hv1; eexists; reflexivity | rewrite Hv2; eexists; reflexivity].
  split.
  - unfold Text.fmt_d in Ey. apply (inj pretty) in Ey. exact Ey.
  - rewrite Es in Hv1. rewrite Hv1 in Hv2. injection Hv2 as ->. reflexivity.
Qed.

Lemma ticket_numbers_are_distinct_witness :
  format_ticket_number 2025 12 <> format_ticket_number 2025 120.
Proof.
  intros E.
  destruct (ticket_numbers_are_distinct 2025 12 2025 120 ltac:(lia) ltac:(lia) E) as [_ N].
  discriminate N.
Defined.

(** ** Statements that cannot fail on a uniqueness constraint *)

Lemma unfailing_mono {A : Type} (p : prog A) (txn : option store)
    (Q Q' : A -> option store -> Prop) :
  (forall a t, Q a t -> Q' a t) -> unfailing p txn Q -> unfailing p txn Q'.
Proof.
  intros HQ. revert txn. induction p as [a | e | T o k IH]; intros txn; cbn [unfailing].
  - apply HQ.
  - auto.
  - destruct o.
    + intros [He Hs]. split; [intros e; apply IH, He|].
      intros Ht s0 Hs0. apply IH, Hs; assumption.
    + destruct txn as [s|]; [apply IH|]. intros H s0 Hs0. apply IH, H, Hs0.
    + destruct txn as [s|].
      * intros (Hn & He & Hs). split; [exact Hn|]. split.
        -- intros e E. apply IH, He, E.
        -- intros s' E. apply IH, Hs, E.
      * intros (Hb & H). split; [intros e; apply IH, Hb|]. intros s0 Hs0.
        destruct (H s0 Hs0) as (Hn & He & Hs). split; [exact Hn|]. split.
        -- intros e E. apply IH, He, E.
        -- intros s' E. apply IH, Hs, E.
    + apply IH.
    + apply IH.
Qed.

Lemma unfailing_bind {A B : Type} (p : prog A) (f : A -> prog B) (txn : option store)
    (Q : B -> option store -> Prop) :
  unfailing p txn (fun a t => unfailing (f a) t Q) -> unfailing (p ≫= f) txn Q.
Proof.
  change (p ≫= f) with (bind p f).
  revert txn. induction p as [a | e | T o k IH]; intros txn; cbn [unfailing bind].
  - auto.
  - auto.
  - destruct o.
    + intros [He Hs]. split; [intros e; apply IH, He|].
      intros Ht s0 Hs0. apply IH, Hs; assumption.
    + destruct txn as [s|]; [apply IH|]. intros H s0 Hs0. apply IH, H, Hs0.
    + destruct txn as [s|].
      * intros (Hn & He & Hs). split; [exact Hn|]. split.
        -- intros e E. apply IH, He, E.
        -- intros s' E. apply IH, Hs, E.
      * intros (Hb & H). split; [intros e; apply IH, Hb|]. intros s0 Hs0.
        destruct (H s0 Hs0) as (Hn & He & Hs). split; [exact Hn|]. split.
        -- intros e E. apply IH, He, E.
        -- intros s' E. apply IH, Hs, E.
    + apply IH.
    + apply IH.
Qed.

Lemma unfailing_try_except {A : Type} (p : prog A) (h : exn -> prog A) (txn : option store)
    (Q : A -> option store -> Prop) :
  (forall e t, unfailing (h e) t Q) -> unfailing p txn Q -> unfailing (try_except p h) txn Q.
Proof.
  intros Hh. revert txn. induction p as [a | e | T o k IH]; intros txn;
    cbn [unfailing try_except].
  - auto.
  - intros _. apply Hh.
  - destruct o.
    + intros [He Hs]. split; [intros e; apply IH, He|].
      intros Ht s0 Hs0. apply IH, Hs; assumption.
    + destruct txn as [s|]; [apply IH|]. intros H s0 Hs0. apply IH, H, Hs0.
    + destruct txn as [s|].
      * intros (Hn & He & Hs). split; [exact Hn|]. split.
        -- intros e E. apply IH, He, E.
        -- intros s' E. apply IH, Hs, E.
      * intros (Hb & H). split; [intros e; apply IH, Hb|]. intros s0 Hs0.
        destruct (H s0 Hs0) as (Hn & He & Hs). split; [exact Hn|]. split.
        -- intros e E. apply IH, He, E.
        -- intros s' E. apply IH, Hs, E.
    + apply IH.
    + apply IH.
Qed.

Lemma unfailing_call {A : Type} (r : result A) (txn : option store)
    (Q : A -> option store -> Prop) :
  (forall a, r = inr a -> Q a txn) -> unfailing (call r) txn Q.
Proof. destruct r as [e|a]; cbn; auto. Qed.

Lemma unfailing_lookup {A : Type} (cond : bool) (q : store -> option A)
    (Q : option A -> option store -> Prop) :
  (forall row, Q row None) ->
  unfailing (if cond then select q else mret None) None Q.
Proof.
  intros HQ. destruct cond; [|apply HQ]. cbn. intros s0 _. apply HQ.
Qed.

(** The allocation, inside a transaction: it cannot fail, and it returns the
    number of the next value of the year on the tables with that value. *)
Lemma unfailing_next_ticket_number (year : Z) (s : store)
    (Q : string * Z * Z -> option store -> Prop) :
  Q (format_ticket_number year (last_value year s + 1), year, last_value year s + 1)
    (Some (allocated year s)) ->
  unfailing (next_ticket_number year) (Some s) Q.
Proof.
  intros HQ. unfold next_ticket_number, allocated, last_value in *.
  apply unfailing_bind. cbn [unfailing execute perform].
  split; [intros m; discriminate|]. split; [discriminate|].
  intros s1 [= <-]. cbn [unfailing].
  apply unfailing_bind. cbn [unfailing select perform].
  destruct (tbl_ticket_sequence s !! year) as [v|] eqn:E; cbn [tbl_ticket_sequence].
  - rewrite E. cbn [unfailing]. cbv zeta.
    apply unfailing_bind. cbn [unfailing execute perform].
    split; [intros m; discriminate|]. split; [discriminate|].
    intros s2 [= <-]. cbn [unfailing]. rewrite E. cbn [default] in HQ. exact HQ.
  - rewrite lookup_insert_eq. cbn [unfailing]. cbv zeta.
    apply unfailing_bind. cbn [unfailing execute perform].
    split; [intros m; discriminate|]. split; [discriminate|].
    intros s2 [= <-]. cbn [unfailing tbl_ticket_sequence tbl_tickets tbl_jobs_cache
                            tbl_trucks tbl_materials].
    rewrite lookup_insert_eq, insert_insert_eq. cbn [default] in HQ. exact HQ.
Qed.

(** On consistent tables the number of the next value of a year is in no
    ticket. *)
Lemma next_number_is_new (year : Z) (s : store) (t : ticket) :
  committed_ok s ->
  ticket_number t = format_ticket_number year (last_value year s + 1) ->
  no_conflict (insert_ticket t) (allocated year s).
Proof.
  intros [Hc (Hall & _ & _)] Hnum m. unfold insert_ticket. cbn [allocated tbl_tickets].
  destruct (Float.is_nan (quantity t)); [intros [= <-]; reflexivity|].
  destruct (existsb _ (tbl_tickets s)) eqn:E; [|discriminate].
  exfalso. apply existsb_exists in E as (x & Hx & Ex). apply String.eqb_eq in Ex.
  rewrite List.Forall_forall in Hall. destruct (Hall x Hx) as (_ & Hnx & _).
  destruct (Hc (ticket_year x)) as [Hpos Hseq].
  assert (ticket_sequence x ∈ sequences_of_year (ticket_year x) s) as Hin.
  { unfold sequences_of_year. apply list_elem_of_In, in_map, list_elem_of_In.
    apply list_elem_of_filter. split; [apply bool_decide_pack; reflexivity|].
    apply list_elem_of_In, Hx. }
  rewrite Hseq in Hin. apply elem_of_one_to in Hin.
  destruct (Hc year) as [Hpos' _].
  rewrite Hnx, Hnum in Ex.
  apply format_ticket_number_inj in Ex as [Ey Es]; [|lia|lia].
  subst year. lia.
Qed.

Lemma unfailing_rollback_and_raise {A : Type} (e : exn) (txn : option store)
    (Q : A -> option store -> Prop) :
  unfailing (@rollback_and_raise A e) txn Q.
Proof. unfold rollback_and_raise. apply unfailing_bind. cbn. exact Logic.I. Qed.

Lemma unfailing_create_ticket `{Runtime} (clk : clock) (use_now : bool)
    (custom_datetime : option string) (direction_ : string) (sn : snapshot)
    (quantity_num : double) (unit_text notes_text : string) :
  unfailing (create_ticket clk use_now custom_datetime direction_ sn quantity_num
               unit_text notes_text) None (fun _ _ => True).
Proof.
  unfold create_ticket. apply unfailing_try_except.
  { intros e t. apply unfailing_rollback_and_raise. }
  unfold create_in_transaction. apply unfailing_bind. cbn [unfailing perform].
  split; [intros e; exact Logic.I|]. intros _ s0 Hs0. cbn [unfailing].
  apply unfailing_bind, unfailing_next_ticket_number.
  destruct (choose_created_at clk use_now custom_datetime) as [early|created];
    [exact Logic.I|].
  apply unfailing_bind, unfailing_call. intros pdf_bytes _.
  apply unfailing_bind, unfailing_call. intros path _.
  apply unfailing_bind. cbn [unfailing execute perform].
  split; [apply (next_number_is_new _ _ _ Hs0); reflexivity|].
  split; [intros e _; exact Logic.I|]. intros s' _. cbn [unfailing].
  apply unfailing_bind. cbn. exact Logic.I.
Qed.

Lemma unfailing_job_snapshot (job_row : option job) (job_entry customer : string)
    (txn : option store) (Q : option Z * string * string * string -> option store -> Prop) :
  (forall a, Q a txn) -> unfailing (job_snapshot job_row job_entry customer) txn Q.
Proof.
  intros HQ. unfold job_snapshot. destruct job_row; [apply HQ|].
  destruct (Text.contains _ _); [|apply HQ].
  destruct (map _ _) as [|? [|? [|? ?]]]; try exact Logic.I. apply HQ.
Qed.

Lemma unfailing_new_ticket (rt : Runtime) (clk : clock) (f : form) :
  unfailing (@new_ticket rt clk f) None (fun _ _ => True).
Proof.
  unfold new_ticket. cbv zeta.
  destruct (negb (direction_ok (fd_direction (read_form f)))); [exact Logic.I|].
  destruct (negb (required_present (read_form f))); [exact Logic.I|].
  apply unfailing_bind, unfailing_lookup. intros job_row.
  apply unfailing_bind, unfailing_lookup. intros truck_row.
  apply unfailing_bind, unfailing_lookup. intros material_row.
  apply unfailing_bind, unfailing_job_snapshot. intros job_part.
  destruct (py_float (fd_quantity (read_form f))) as [q|]; [|exact Logic.I].
  apply unfailing_bind.
  eapply unfailing_mono; [|apply unfailing_create_ticket].
  intros [early|[number path]] t _; exact Logic.I.
Qed.

(** The statement a connection sends next is answered as [unfailing]
    foresees. *)
Lemma do_op_unfailing (me : nat) {B : Type} (o : op B) (k : result B -> prog response)
    (txn : option store) (d : database) (r : result B) (txn' : option store)
    (d' : database) :
  committed_ok (db_store d) ->
  unfailing (Op o k) txn (fun _ _ => True) ->
  do_op me o txn d = (r, txn', d') ->
  (forall m, r = inl (IntegrityError m) ->
             m = "NOT NULL constraint failed: tickets.quantity") /\
  unfailing (k r) txn' (fun _ _ => True).
Proof.
  intros Hd Hu Hop. destruct o; cbn [unfailing do_op] in Hu, Hop.
  - destruct Hu as [He Hs]. destruct txn as [s|].
    + injection Hop as <- <- _. split; [discriminate | apply He].
    + destruct (locked_by_other me d); injection Hop as <- <- _.
      * split; [discriminate | apply He].
      * split; [discriminate | apply Hs; [reflexivity | exact Hd]].
  - injection Hop as <- <- _. split; [discriminate|].
    destruct txn as [s|]; [exact Hu | apply Hu, Hd].
  - destruct txn as [s|].
    + destruct Hu as (Hn & He & Hs). destruct (w s) as [e|s'] eqn:E; injection Hop as <- <- _.
      * split; [intros m [= ->]; exact (Hn m E) | apply He; reflexivity].
      * split; [discriminate | apply Hs; reflexivity].
    + destruct Hu as (Hb & H). destruct (locked_by_other me d).
      * injection Hop as <- <- _. split; [discriminate | apply Hb].
      * destruct (H _ Hd) as (Hn & He & Hs).
        destruct (w (db_store d)) as [e|s'] eqn:E; injection Hop as <- <- _.
        -- split; [intros m [= ->]; exact (Hn m E) | apply He; reflexivity].
        -- split; [discriminate | apply Hs; reflexivity].
  - destruct txn as [s|]; injection Hop as <- <- _; (split; [discriminate | exact Hu]).
  - injection Hop as <- <- _. split; [discriminate | exact Hu].
Qed.

Lemma reachable_committed_ok (s : system) : reachable s -> committed_ok (db_store (sys_db s)).
Proof.
  intros Hs. split.
  - apply (reachable_ok s Hs).
  - apply (reachable_keeps tickets_well_formed s tickets_well_formed_empty keeps_new_ticket Hs).
Qed.

Lemma reachable_unfailing (s : system) :
  reachable s ->
  forall i txn p, sys_threads s !! i = Some (Running txn p) ->
                  unfailing p txn (fun _ _ => True).
Proof.
  induction 1 as [|s s' Hs IH Hstep]; [intros i txn p Hi; destruct i; discriminate|].
  pose proof (reachable_committed_ok s Hs) as Hd.
  destruct Hstep as [d ts rt clk f | d ts i txn B o k r txn' d' Hi Hop
                     | d ts i txn a Hi | d ts i txn e Hi]; cbn in *.
  - intros i txn p Hi. destruct (decide (i < length ts)%nat) as [Hlt|Hge].
    + rewrite lookup_app_l in Hi by exact Hlt. eapply IH, Hi.
    + rewrite lookup_app_r in Hi by lia.
      destruct (i - length ts)%nat as [|n] eqn:En; [|destruct n; discriminate].
      injection Hi as <- <-. apply unfailing_new_ticket.
  - assert (i < length ts)%nat as Hlt by (eapply lookup_lt_Some; eassumption).
    intros j txn_j p_j Hj. destruct (decide (j = i)) as [->|N].
    + rewrite list_lookup_insert_eq in Hj by exact Hlt. injection Hj as <- <-.
      apply (do_op_unfailing i o k txn d r txn' d' Hd (IH i txn _ Hi) Hop).
    + rewrite list_lookup_insert_ne in Hj by congruence. eapply IH, Hj.
  - assert (i < length ts)%nat as Hlt by (eapply lookup_lt_Some; eassumption).
    intros j txn_j p_j Hj. destruct (decide (j = i)) as [->|N].
    + rewrite list_lookup_insert_eq in Hj by exact Hlt. discriminate.
    + rewrite list_lookup_insert_ne in Hj by congruence. eapply IH, Hj.
  - assert (i < length ts)%nat as Hlt by (eapply lookup_lt_Some; eassumption).
    intros j txn_j p_j Hj. destruct (decide (j = i)) as [->|N].
    + rewrite list_lookup_insert_eq in Hj by exact Hlt. discriminate.
    + rewrite list_lookup_insert_ne in Hj by congruence. eapply IH, Hj.
Qed.

(** X21. The allocation never collides: in every state the system reaches,
    whichever connection moves next, the statement it sends is not answered by
    the [IntegrityError] of a UNIQUE constraint: the INSERT of a ticket never
    finds its number in the table. The one [IntegrityError] a statement can
    be answered by is that of the NOT NULL constraint on the quantity, for a
    quantity text that reads as a NaN. *)
Theorem allocation_never_collides (s : system) (i : nat) (txn : option store)
    (B : Type) (o : op B) (k : result B -> prog response)
    (r : result B) (txn' : option store) (d' : database) :
  reachable s ->
  sys_threads s !! i = Some (Running txn (Op o k)) ->
  do_op i o txn (sys_db s) = (r, txn', d') ->
  (forall m, r <> inl (IntegrityError ("UNIQUE constraint failed: " +:+ m))) /\
  (forall m, r = inl (IntegrityError m) ->
             m = "NOT NULL constraint failed: tickets.quantity").
Proof.
  intros Hs Hi Hop.
  assert (forall m, r = inl (IntegrityError m) ->
                    m = "NOT NULL constraint failed: tickets.quantity") as Hm;
    [|split; [intros m E; specialize (Hm _ E); rewrite append_cons in Hm; discriminate Hm
             | exact Hm]].
  apply (do_op_unfailing i o k txn (sys_db s) r txn' d' (reachable_committed_ok s Hs)
           (reachable_unfailing s Hs i txn _ Hi) Hop).
Qed.

Lemma allocation_never_collides_witness :
  let s := run_schedule (take 17 contended_schedule) start in
  reachable s /\
  length (tbl_tickets (db_store (sys_db s))) = 1%nat /\
  exists txn B (o : op B) k,
    sys_threads s !! 2%nat = Some (Running txn (Op o k)) /\
    forall m, (do_op 2 o txn (sys_db s)).1.1
              <> inl (IntegrityError ("UNIQUE constraint failed: " +:+ m)).
Proof.
  cbv zeta.
  assert (reachable (run_schedule (take 17 contended_schedule) start)) as Hs
    by apply run_schedule_reachable, reachable_start.
  split; [exact Hs|]. split; [vm_compute; reflexivity|].
  assert (exists txn B (o : op B) k,
             sys_threads (run_schedule (take 17 contended_schedule) start) !! 2%nat
             = Some (Running txn (Op o k))) as (txn & B & o & k & Hi).
  { vm_compute. do 4 eexists. reflexivity. }
  exists txn, B, o, k. split; [exact Hi|].
  apply (allocation_never_collides _ 2%nat txn B o k _
           (do_op 2 o txn (sys_db (run_schedule (take 17 contended_schedule) start))).1.2
           (do_op 2 o txn (sys_db (run_schedule (take 17 contended_schedule) start))).2
           Hs Hi).
  destruct (do_op 2 o txn _) as [[r t] d]. reflexivity.
Defined.

(** ** The refresh at startup *)

(** X22. The refresh at startup is the refresh of [/jobs/refresh]. The
    variable, taken as 1 when it is not set, is trimmed of its white space
    and put in lower case: when that reads 1, true, yes or on, the refresh
    leaves the file and the connection exactly as the request does and never
    raises; otherwise -- also when the variable is set to the empty text --
    it sends no statement at all. *)
Theorem startup_refresh_is_the_same_refresh `{Runtime} (me : nat)
    (auto_refresh : option string) (now : string) (source : jobs_source)
    (txn : option store) (d : database) :
  exists value,
    value = Text.strip (default "1" auto_refresh) /\
    Text.trimmed (default "1" auto_refresh) value /\
    if existsb (String.eqb (str_lower value)) ["1"; "true"; "yes"; "on"] then
      exists line,
        run me (refresh_jobs_on_startup auto_refresh now source) txn d
        = (inr line, (run me (refresh_jobs now source) txn d).1.2,
           (run me (refresh_jobs now source) txn d).2)
    else
      refresh_jobs_on_startup auto_refresh now source
      = Ret "Startup jobs refresh disabled by AUTO_REFRESH_JOBS_ON_STARTUP.".
Proof.
  eexists. split; [reflexivity|]. split; [apply strip_trimmed|].
  unfold refresh_jobs_on_startup. cbv zeta.
  destruct (existsb _ _); cbn [negb]; [|reflexivity].
  unfold refresh_jobs. rewrite !run_try_except, !run_bind.
  destruct (run me (refresh_jobs_cache now source) txn d) as [[[e|count] txn1] d1].
  - rewrite !run_bind. cbn [run perform do_op]. eexists. reflexivity.
  - rewrite !run_bind. cbn [run perform do_op].
    destruct txn1 as [s|]; cbn [run mret prog_ret]; eexists; reflexivity.
Qed.

Lemma startup_refresh_is_the_same_refresh_witness :
  (exists line,
      run 0 (@refresh_jobs_on_startup Reference.runtime (Some " TRUE ")
               "2025-03-01T10:00:00" jobs_file) None Depot.depot
      = (inr line,
         (run 0 (@refresh_jobs Reference.runtime "2025-03-01T10:00:00" jobs_file)
              None Depot.depot).1.2,
         (run 0 (@refresh_jobs Reference.runtime "2025-03-01T10:00:00" jobs_file)
              None Depot.depot).2)) /\
  @refresh_jobs_on_startup Reference.runtime (Some "") "2025-03-01T10:00:00" jobs_file
  = Ret "Startup jobs refresh disabled by AUTO_REFRESH_JOBS_ON_STARTUP.".
Proof.
  split.
  - destruct (@startup_refresh_is_the_same_refresh Reference.runtime 0%nat (Some " TRUE ")
                "2025-03-01T10:00:00" jobs_file None Depot.depot) as (value & -> & _ & Hrun).
    exact Hrun.
  - destruct (@startup_refresh_is_the_same_refresh Reference.runtime 0%nat (Some "")
                "2025-03-01T10:00:00" jobs_file None Depot.depot) as (value & -> & _ & Hrun).
    exact Hrun.
Defined.

(** ** The reprint of a ticket *)

(** X23. The reprint of a ticket that was just stored sends to the printer
    the file [save_pdf] wrote for it at its creation; it answers with the
    ticket number in the redirect, says "Print sent" when the printer takes
    the file and "Print failed" with the reason when it does not, and in
    either case raises nothing and leaves the file as it is. *)
Theorem stored_ticket_is_reprinted `{Runtime} (me : nat) (clk : clock) (f : form)
    (d : database) (r : result response) (txn' : option store) (d' : database) :
  db_writer d <> Some me ->
  run me (new_ticket clk f) None d = (r, txn', d') ->
  tbl_tickets (db_store d') <> tbl_tickets (db_store d) ->
  exists t,
    tbl_tickets (db_store d') = tbl_tickets (db_store d) ++ [t] /\
    save_pdf (ticket_number t) (pdf_blob t) = inr (pdf_path t) /\
    forall other,
      run other (print_ticket (ticket_id t)) None d'
      = (inr (match print_pdf_file (pdf_path t) with
              | inr _ => Redirect "search_tickets" "success"
                           ("Print sent for " +:+ ticket_number t +:+ ".")
              | inl e => Redirect "search_tickets" "error"
                           ("Print failed: " +:+ exn_message e)
              end, Some (ticket_number t)), None, d').
Proof.
  intros W R Hne.
  destruct (new_ticket_committed me clk f d r txn' d' W R Hne)
    as (job_part & q & created & pdf_bytes & path & H0).
  cbv zeta in H0.
  destruct H0 as (_ & _ & _ & _ & _ & _ & Hsave & _ & _ & _ & Ht & _).
  eexists. split; [exact Ht|]. split; [exact Hsave|].
  intros other. unfold print_ticket. rewrite run_bind.
  cbn [run select perform do_op default]. unfold ticket_by_id. rewrite Ht.
  rewrite find_app_fresh.
  - cbn [with_id ticket_of pdf_path ticket_number].
    destruct (print_pdf_file path); reflexivity.
  - intros y Hy. apply Z.eqb_neq. cbn [with_id ticket_id].
    pose proof (next_rowid_fresh _ _ (in_map ticket_id _ _ Hy)). lia.
  - apply Z.eqb_refl.
Qed.

Lemma stored_ticket_is_reprinted_witness :
  let d' := snd (run 0 (@new_ticket Reference.runtime Scenario.clock_2025
                          Depot.selected_form) None Depot.depot) in
  exists t,
    ticket_number t = "DT-2025-000001" /\
    run 5 (@print_ticket Reference.runtime (ticket_id t)) None d'
    = (inr (Redirect "search_tickets" "error"
              ("Print failed: "
               +:+ "Automatic printing is currently implemented for Windows only."),
            Some "DT-2025-000001"), None, d').
Proof.
  cbv zeta.
  assert (db_writer Depot.depot <> Some 0%nat) as W by discriminate.
  assert (tbl_tickets (db_store (snd (run 0 (@new_ticket Reference.runtime Scenario.clock_2025
            Depot.selected_form) None Depot.depot)))
          <> tbl_tickets (db_store Depot.depot)) as N
    by (vm_compute; discriminate).
  destruct (@stored_ticket_is_reprinted Reference.runtime 0%nat Scenario.clock_2025
              Depot.selected_form Depot.depot _ _ _ W (surjective_pairing _) N)
    as (t & Ht & _ & Hp).
  exists t.
  assert (ticket_number t = "DT-2025-000001") as Hn.
  { vm_compute in Ht. injection Ht as <-. reflexivity. }
  split; [exact Hn|]. rewrite (Hp 5%nat), Hn. reflexivity.
Defined.

(** ** The jobs the entry form offers *)





(** ** The pages of the report *)

Lemma request_filters_with_offset `{Runtime} (args : report_args) (offset : option string) :
  request_filters (with_offset args offset) = request_filters args.
Proof. reflexivity. Qed.

(** The page the report shows for an offset. *)
Lemma run_reports_page `{Runtime} (me : nat) (today_first today_second : Z)
    (args : report_args) (text : string) (offset : Z) (d : database) :
  py_int text = Some offset ->
  exists view,
    run me (reports today_first today_second (with_offset args (Some text))) None d
    = (inr view, None, d) /\
    rv_tickets view
    = page_of offset
        (order_by report_le
           (filtered (with_default_window today_first today_second (request_filters args))
              (db_store d))).
Proof.
  intros Hint. rewrite run_reports. unfold request_offset. cbn [with_offset ra_offset].
  rewrite Hint. cbv zeta. eexists. split; [reflexivity|]. reflexivity.
Qed.

Lemma pages_tile {A : Type} (l : list A) (n : nat) :
  concat (map (fun k => take 20 (drop (20 * k) l)) (seq 0 n)) = take (20 * n) l.
Proof.
  induction n as [|n IH]; [rewrite Nat.mul_0_r; reflexivity|].
  rewrite seq_S, map_app, concat_app, IH. cbn [map concat plus].
  rewrite app_nil_r, take_take_drop. f_equal. lia.
Qed.

(** X25. The pages of the report tile the selection: read at the offsets
    0, 20, 40, ... on the same day and with the same filters, the pages have at
    most 20 tickets each and, put one after the other, are the selected
    tickets in report order up to the last offset read; so with enough pages
    every selected ticket is shown once, and a page past the end is empty. *)
Theorem report_pages_tile_the_selection `{Runtime} (me : nat) (today : Z)
    (args : report_args) (d : database) (texts : list string) :
  (forall (k : nat) text, texts !! k = Some text -> py_int text = Some (20 * Z.of_nat k)) ->
  let selection :=
    order_by report_le
      (filtered (with_default_window today today (request_filters args)) (db_store d)) in
  exists pages,
    Forall2 (fun text page =>
               exists view,
                 run me (reports today today (with_offset args (Some text))) None d
                 = (inr view, None, d) /\ rv_tickets view = page /\
                 (length page <= 20)%nat)
            texts pages /\
    concat pages = take (20 * length texts) selection /\
    ((length selection <= 20 * length texts)%nat -> concat pages = selection) /\
    (forall (k : nat) page, pages !! k = Some page ->
                            (length selection <= 20 * k)%nat -> page = []).
Proof.
  intros Hoff. cbv zeta.
  set (selection := order_by report_le _).
  exists (map (fun k => take 20 (drop (20 * k) selection)) (seq 0 (length texts))).
  split; [|split; [|split]].
  - apply Forall2_same_length_lookup_2.
    + rewrite length_map, length_seq. reflexivity.
    + intros k text page Htext Hpage.
      rewrite list_lookup_fmap in Hpage.
      assert (k < length texts)%nat as Hk by (eapply lookup_lt_Some; exact Htext).
      rewrite lookup_seq_lt in Hpage by exact Hk. cbn in Hpage. injection Hpage as <-.
      destruct (run_reports_page me today today args text (20 * Z.of_nat k) d
                  (Hoff k text Htext)) as (view & Hrun & Hview).
      exists view. split; [exact Hrun|]. split.
      * rewrite Hview. unfold page_of. fold selection. do 2 f_equal. lia.
      * rewrite length_take. lia.
  - apply pages_tile.
  - intros Hlen. rewrite pages_tile. apply take_ge. exact Hlen.
  - intros k page Hpage Hlen. rewrite list_lookup_fmap in Hpage.
    destruct (seq 0 (length texts) !! k) as [k'|] eqn:E; [|discriminate].
    apply lookup_seq in E as [-> _]. cbn in Hpage. injection Hpage as <-.
    rewrite drop_ge by lia. reflexivity.
Qed.

Lemma report_pages_tile_the_selection_witness :
  exists pages,
    Forall2 (fun text page =>
               exists view,
                 run 0 (@reports Reference.runtime Yard.today Yard.today
                          (with_offset Yard.no_filter (Some text))) None Yard.yard
                 = (inr view, None, Yard.yard) /\ rv_tickets view = page /\
                 (length page <= 20)%nat)
            ["0"; "20"] pages /\
    concat pages
    = order_by report_le
        (@filtered Reference.runtime
           (@with_default_window Reference.runtime Yard.today Yard.today
              (@request_filters Reference.runtime Yard.no_filter)) (db_store Yard.yard)).
Proof.
  assert (forall (k : nat) text, ["0"; "20"] !! k = Some text ->
                                 @py_int Reference.runtime text = Some (20 * Z.of_nat k)) as Hoff.
  { intros [|[|k]] text [=]; subst; reflexivity. }
  destruct (@report_pages_tile_the_selection Reference.runtime 0%nat Yard.today
              Yard.no_filter Yard.yard ["0"; "20"] Hoff) as (pages & Hp & _ & Hall & _).
  exists pages. split; [exact Hp|]. apply Hall. vm_compute. lia.
Defined.
